(** * AIR_RLTaskEnv: the batched pick-and-place task environment

    A shallow embedding of [src/isaac_env/air_env_data.py].

    Conventions of the embedding.
    - Float tensors are modelled with exact rationals ([Q]); there is no
      rounding and no NaN.  Integer tensors are [Z].
    - Tensors that the physics engine hands over (root states) have a fixed
      shape and are modelled as total functions of their indices; tensors the
      class itself owns and mutates ([sm_state], [reward_recorder], ...) are
      lists, read with [!!] and written with [<[ i := x ]>], and every
      out-of-range access is written out as the Python exception it raises.
    - The constants imported with [from isaac_env import *] are not part of
      the file; they are gathered in the record [Params]. *)

From Stdlib Require Import ZArith QArith Qabs List Bool Lia.
From stdpp Require Import base option list strings gmap.

Local Open Scope Z_scope.

(** ** Rationals as tensor entries *)

Definition Qltb (x y : Q) : bool := negb (Qle_bool y x).

(** [bool(x)] of a float: non-zero. *)
Definition Qtruthy (x : Q) : bool := negb (Qeq_bool x 0).

Definition Qsum (l : list Q) : Q := foldr Qplus 0%Q l.

(** [torch.mean(torch.abs(v), -1)] *)
Definition mean_abs (v : list Q) : Q :=
  (Qsum (map Qabs v) / inject_Z (Z.of_nat (length v)))%Q.

(** ** Vectors, quaternions and root states *)

Record V3 := mkV3 { vx : Q; vy : Q; vz : Q }.

(** Quaternions are stored (w, x, y, z), as Isaac Lab does. *)
Record Quat := mkQuat { qw : Q; qx : Q; qy : Q; qz : Q }.

Definition v3_add (a b : V3) : V3 :=
  mkV3 (vx a + vx b) (vy a + vy b) (vz a + vz b)%Q.
Definition v3_sub (a b : V3) : V3 :=
  mkV3 (vx a - vx b) (vy a - vy b) (vz a - vz b)%Q.
Definition v3_scale (a : V3) (k : Q) : V3 :=
  mkV3 (vx a * k) (vy a * k) (vz a * k)%Q.
Definition v3_div (a : V3) (k : Q) : V3 :=
  mkV3 (vx a / k) (vy a / k) (vz a / k)%Q.
Definition v3_cross (a b : V3) : V3 :=
  mkV3 (vy a * vz b - vz a * vy b)
       (vz a * vx b - vx a * vz b)
       (vx a * vy b - vy a * vx b)%Q.

(** Componentwise equality up to the value of the fractions. *)
Definition v3_eq (a b : V3) : Prop :=
  (vx a == vx b)%Q /\ (vy a == vy b)%Q /\ (vz a == vz b)%Q.

(** One row of [root_state_w]: position [0:3], orientation [3:7],
    linear and angular velocity [7:13]. *)
Record RootState := mkRoot {
  root_pos : V3;
  root_quat : Quat;
  root_lin_vel : V3;
  root_ang_vel : V3
}.

(** [root_state_w[..., 7:]] *)
Definition root_vel (r : RootState) : list Q :=
  [vx (root_lin_vel r); vy (root_lin_vel r); vz (root_lin_vel r);
   vx (root_ang_vel r); vy (root_ang_vel r); vz (root_ang_vel r)].

(** ** Constants of [isaac_env] *)

Record Params := mkParams {
  num_objs : nat;
  obj_height_limit : Q;
  (** [ee_goals_default[axis][0]] and [[axis][1]]: lower and upper bound *)
  ee_goals_default : nat -> nat -> Q;
  obj_vel_limit : Q;
  step_total : nat;
  (** the dictionary of state codes, by key *)
  STATE_MACHINE : string -> Z;
  (** which [k] have a rigid object named [obj_k] in the scene *)
  scene_has_obj : Z -> bool;
  (** position part of [obj_drop_pose] *)
  obj_drop_pose : V3;
  (** [self.sim.has_gui()], which decides whether [pc_markers] exists *)
  has_gui : bool;
  (** ["RMPFLOW"] leaves [self.controller] undefined *)
  CONTROLLER : string;
  use_sb3 : bool;
  (** the prefix of the scene names of [self.objs]: entry [k] is
      [scene[object_name + "_k"]] *)
  object_name : string;
  (** the rest of [obj_drop_pose]: orientation, linear and angular velocity *)
  obj_drop_quat : Quat;
  obj_drop_lin_vel : V3;
  obj_drop_ang_vel : V3;
  (** [self.camera] is created only when [disable_camera] is false; it then
      has [n_multiple_cam] entries *)
  disable_camera : bool;
  n_multiple_cam : nat
}.

(** What the simulation exposes of the scene on one tick. *)
Record Sim := mkSim {
  (** [self.robot.data.root_state_w[env]] *)
  robot_root_state_w : nat -> RootState;
  (** [self.objs[id_obj].data.root_state_w[env]] *)
  objs_root_state_w : nat -> nat -> RootState;
  (** [self.scene.env_origins[env]] *)
  env_origins : nat -> V3;
  (** [self.robot.data.joint_pos[env]] and [joint_vel[env]] *)
  joint_pos : nat -> list Q;
  joint_vel : nat -> list Q
}.

(** ** Readiness classification: [update_env_state] *)

Section Readiness.
Context (cfg : Params) (sim : Sim).

(** [_get_obj_pos(id_obj)[env]] *)
Definition _get_obj_pos (id_obj env : nat) : V3 :=
  v3_sub (root_pos (objs_root_state_w sim id_obj env))
         (root_pos (robot_root_state_w sim env)).

(** [_get_obj_vel(id_obj)[env]] *)
Definition _get_obj_vel (id_obj env : nat) : list Q :=
  root_vel (objs_root_state_w sim id_obj env).

(** [object_pos[env, id_obj, :3]] and [object_pos[env, id_obj, -1]] *)
Definition object_pos (env id_obj : nat) : V3 * Q :=
  (_get_obj_pos id_obj env, mean_abs (_get_obj_vel id_obj env)).

Definition obj_reachable (env id_obj : nat) : bool :=
  let p := fst (object_pos env id_obj) in
  Qltb (vz p) (obj_height_limit cfg)
  && Qltb (- (5 # 100)) (vz p)
  && Qltb (ee_goals_default cfg 0 0) (vx p)
  && Qltb (vx p) (ee_goals_default cfg 0 1)
  && Qltb (ee_goals_default cfg 1 0) (vy p)
  && Qltb (vy p) (ee_goals_default cfg 1 1).

Definition obj_stable (env id_obj : nat) : bool :=
  Qltb (snd (object_pos env id_obj)) (obj_vel_limit cfg)
  || negb (obj_reachable env id_obj).

(** [obj_reachable.any(dim=1)] *)
Definition env_reachable (env : nat) : bool :=
  existsb (obj_reachable env) (seq 0 (num_objs cfg)).

Definition obj_graspable (env id_obj : nat) : bool :=
  obj_reachable env id_obj && obj_stable env id_obj.

(** The last two assignments of [update_env_state]; the second one is an
    elementwise [&] with [sm_wait_time > 1.0]. *)
Definition env_reachable_and_stable (sm_wait_time : list Q) : list bool :=
  zip_with andb
    (map (fun env => forallb (obj_stable env) (seq 0 (num_objs cfg))
                     && env_reachable env)
         (seq 0 (length sm_wait_time)))
    (map (fun t => Qltb 1 t) sm_wait_time).

End Readiness.

(** ** Python exceptions and results *)

(** An exception is identified by the name of its class. *)
Inductive exn := Exn (cls : string).

Definition RuntimeError : exn := Exn "RuntimeError".
Definition ValueError : exn := Exn "ValueError".
Definition IndexError : exn := Exn "IndexError".
Definition KeyError : exn := Exn "KeyError".
Definition AssertionError : exn := Exn "AssertionError".
Definition AttributeError : exn := Exn "AttributeError".
Definition UnboundLocalError : exn := Exn "UnboundLocalError".

Inductive result (A : Type) :=
| Ok (a : A)
| Raise (e : exn).
Arguments Ok {A} a.
Arguments Raise {A} e.

Definition is_ok {A} (r : result A) : bool :=
  match r with Ok _ => true | Raise _ => false end.

Definition result_bind {A B} (r : result A) (f : A -> result B) : result B :=
  match r with Ok a => f a | Raise e => Raise e end.

(** [for x in l: ys.append(f(x))], stopping at the first exception. *)
Fixpoint result_mapM {A B} (f : A -> result B) (l : list A) : result (list B) :=
  match l with
  | [] => Ok []
  | x :: l' =>
      result_bind (f x) (fun y =>
      result_bind (result_mapM f l') (fun ys => Ok (y :: ys)))
  end.

(** An index into a sequence of length [n], as Python and torch read it:
    negative indices count from the end, anything else is out of range. *)
Definition py_norm_index (n : nat) (i : Z) : option nat :=
  if (0 <=? i) && (i <? Z.of_nat n) then Some (Z.to_nat i)
  else if (- Z.of_nat n <=? i) && (i <? 0) then Some (Z.to_nat (i + Z.of_nat n))
  else None.

(** The normalised index and the item of [l[i]]. *)
Definition py_locate {A} (l : list A) (i : Z) : result (nat * A) :=
  match py_norm_index (length l) i with
  | Some k => match l !! k with Some x => Ok (k, x) | None => Raise IndexError end
  | None => Raise IndexError
  end.

(** [l[i]] *)
Definition py_get {A} (l : list A) (i : Z) : result A :=
  result_bind (py_locate l i) (fun p => Ok (snd p)).

(** [l[i]] for an index that is never negative ([enumerate], [arange]). *)
Definition get_item {A} (l : list A) (i : nat) : result A :=
  match l !! i with Some x => Ok x | None => Raise IndexError end.

(** [t[ids]]: the rows of [t] at a tensor of indices. *)
Definition rows_at {A} (t : list A) (ids : list nat) : result (list A) :=
  result_mapM (get_item t) ids.

(** [ids[mask]] with a boolean mask of the same shape. *)
Definition masked {A} (ids : list A) (mask : list bool) : result (list A) :=
  if decide (length ids = length mask)
  then Ok (map fst (List.filter snd (zip ids mask)))
  else Raise IndexError.

(** [max(l)]: the running maximum is replaced only by a strictly greater
    item. *)
Fixpoint py_max_from (m : Q) (l : list Q) : Q :=
  match l with
  | [] => m
  | x :: l' => py_max_from (if Qltb m x then x else m) l'
  end.

Definition py_max (l : list Q) : result Q :=
  match l with
  | [] => Raise ValueError
  | x :: l' => Ok (py_max_from x l')
  end.

(** [l.index(m)]: the first position whose item equals [m]. *)
Fixpoint py_index (m : Q) (l : list Q) : result nat :=
  match l with
  | [] => Raise ValueError
  | x :: l' =>
      if Qeq_bool x m then Ok 0%nat
      else result_bind (py_index m l') (fun k => Ok (S k))
  end.

(** ** Frame transforms of [omni.isaac.lab.utils.math] *)

(** Hamilton product. *)
Definition quat_mul (a b : Quat) : Quat :=
  mkQuat (qw a * qw b - qx a * qx b - qy a * qy b - qz a * qz b)
         (qw a * qx b + qx a * qw b + qy a * qz b - qz a * qy b)
         (qw a * qy b - qx a * qz b + qy a * qw b + qz a * qx b)
         (qw a * qz b + qx a * qy b - qy a * qx b + qz a * qw b)%Q.

(** Rotation of a vector by a quaternion:
    [t = 2 * (xyz x v); v + w * t + xyz x t]. *)
Definition quat_apply (q : Quat) (v : V3) : V3 :=
  let xyz := mkV3 (qx q) (qy q) (qz q) in
  let t := v3_scale (v3_cross xyz v) 2 in
  v3_add (v3_add v (v3_scale t (qw q))) (v3_cross xyz t).

Definition Pose : Type := V3 * Quat.

(** [combine_frame_transforms(t01, q01, t12, q12)]; a missing [q12] leaves
    the orientation [q01]. *)
Definition combine_frame_transforms
    (t01 : V3) (q01 : Quat) (t12 : V3) (q12 : option Quat) : Pose :=
  (v3_add t01 (quat_apply q01 t12),
   match q12 with Some q => quat_mul q01 q | None => q01 end).

(** ** Grasp candidates *)

(** One row of [paralleljaw_pregrasp_transform]:
    [grasp[0:3]], [grasp[3:6]], [grasp[6:9]] and [grasp[9]]. *)
Record GraspRow := mkGrasp {
  g_approach : V3;
  g_baseline : V3;
  g_contact : V3;
  g_width : Q
}.

Record GraspDict := mkGraspDict {
  paralleljaw_pregrasp_transform : list GraspRow;
  paralleljaw_pregrasp_score : list Q
}.

(** [contact_pt = grasp[6:9] / 100] *)
Definition contact_pt_obj (g : GraspRow) : V3 := v3_div (g_contact g) 100.

(** [pt2 = contact_pt + baseline * grasp[9] / 100] *)
Definition pt2_obj (g : GraspRow) : V3 :=
  v3_add (contact_pt_obj g) (v3_div (v3_scale (g_baseline g) (g_width g)) 100).

(** [grasp_pos = pt2 - approach_vec * 0.1] *)
Definition grasp_pos_obj (g : GraspRow) : V3 :=
  v3_sub (pt2_obj g) (v3_scale (g_approach g) (1 # 10)).

(** The midpoint of the two contact points, in the object frame. *)
Definition mid_pt_obj (g : GraspRow) : V3 :=
  v3_div (v3_add (contact_pt_obj g) (pt2_obj g)) 2.

(** The claimed pre-grasp position: a step back from the midpoint along the
    approach vector.  It follows the words of the specification and is only
    compared with [grasp_pos_obj]. *)
Definition spec_grasp_pos_obj (g : GraspRow) (standoff : Q) : V3 :=
  v3_sub (mid_pt_obj g) (v3_scale (g_approach g) standoff).

(** ** The environment object *)

(** What the environment asks of its collaborators, in the order asked. *)
Inductive Effect :=
(** [scene.rigid_objects["obj_k"].write_root_state_to_sim(pose, [env])] *)
| WriteRootState (k : Z) (env : nat) (pos : V3)
(** the success line: world, episode, step, sum of the episode's row *)
| PrintSuccess (env : nat) (episode step : Z) (total : Q)
| WriteJointState (ids : list nat)
| RobotReset (ids : list nat)
| ControllerReset (ids : list nat)
(** [ManagerBasedRLEnv._reset_idx(ids)] *)
| ResetIdx (ids : list nat)
(** [save_data(env_id, ...)] *)
| SaveData (env : nat).

Record Env := mkEnv {
  sim : Sim;
  sm_state : list Z;
  sm_wait_time : list Q;
  (** rows [(episode, step)] *)
  epi_step_count : list (Z * Z);
  reward_recorder : list (list (list Q));
  reward_buf : list Q;
  obj_chosen : list Z;
  grasp_pose : list Pose;
  env_idx : list nat;
  env_reset_id : list nat;
  joint_pos_init : list (list Q);
  joint_vel_init : list (list Q);
  (** [self.count], an attribute that is read by [recorder] and set outside
      the file *)
  count : Z;
  (** the requests made so far *)
  effects : list Effect;
  (** [self.camera_info]: the info objects of the cameras, by camera index;
      the attribute does not exist until [step] has assigned it *)
  camera_info : option (list nat)
}.

Definition set_sim (v : Sim) (st : Env) : Env :=
  mkEnv v (sm_state st) (sm_wait_time st) (epi_step_count st)
        (reward_recorder st) (reward_buf st) (obj_chosen st) (grasp_pose st)
        (env_idx st) (env_reset_id st) (joint_pos_init st) (joint_vel_init st)
        (count st) (effects st) (camera_info st).

Definition set_sm_state (v : list Z) (st : Env) : Env :=
  mkEnv (sim st) v (sm_wait_time st) (epi_step_count st)
        (reward_recorder st) (reward_buf st) (obj_chosen st) (grasp_pose st)
        (env_idx st) (env_reset_id st) (joint_pos_init st) (joint_vel_init st)
        (count st) (effects st) (camera_info st).

Definition set_reward_recorder (v : list (list (list Q))) (st : Env) : Env :=
  mkEnv (sim st) (sm_state st) (sm_wait_time st) (epi_step_count st)
        v (reward_buf st) (obj_chosen st) (grasp_pose st)
        (env_idx st) (env_reset_id st) (joint_pos_init st) (joint_vel_init st)
        (count st) (effects st) (camera_info st).

Definition set_epi_step_count (v : list (Z * Z)) (st : Env) : Env :=
  mkEnv (sim st) (sm_state st) (sm_wait_time st) v
        (reward_recorder st) (reward_buf st) (obj_chosen st) (grasp_pose st)
        (env_idx st) (env_reset_id st) (joint_pos_init st) (joint_vel_init st)
        (count st) (effects st) (camera_info st).

Definition set_reward_buf (v : list Q) (st : Env) : Env :=
  mkEnv (sim st) (sm_state st) (sm_wait_time st) (epi_step_count st)
        (reward_recorder st) v (obj_chosen st) (grasp_pose st)
        (env_idx st) (env_reset_id st) (joint_pos_init st) (joint_vel_init st)
        (count st) (effects st) (camera_info st).

Definition set_obj_chosen (v : list Z) (st : Env) : Env :=
  mkEnv (sim st) (sm_state st) (sm_wait_time st) (epi_step_count st)
        (reward_recorder st) (reward_buf st) v (grasp_pose st)
        (env_idx st) (env_reset_id st) (joint_pos_init st) (joint_vel_init st)
        (count st) (effects st) (camera_info st).

Definition set_grasp_pose (v : list Pose) (st : Env) : Env :=
  mkEnv (sim st) (sm_state st) (sm_wait_time st) (epi_step_count st)
        (reward_recorder st) (reward_buf st) (obj_chosen st) v
        (env_idx st) (env_reset_id st) (joint_pos_init st) (joint_vel_init st)
        (count st) (effects st) (camera_info st).

Definition set_sm_wait_time (v : list Q) (st : Env) : Env :=
  mkEnv (sim st) (sm_state st) v (epi_step_count st)
        (reward_recorder st) (reward_buf st) (obj_chosen st) (grasp_pose st)
        (env_idx st) (env_reset_id st) (joint_pos_init st) (joint_vel_init st)
        (count st) (effects st) (camera_info st).

Definition set_camera_info (v : option (list nat)) (st : Env) : Env :=
  mkEnv (sim st) (sm_state st) (sm_wait_time st) (epi_step_count st)
        (reward_recorder st) (reward_buf st) (obj_chosen st) (grasp_pose st)
        (env_idx st) (env_reset_id st) (joint_pos_init st) (joint_vel_init st)
        (count st) (effects st) v.

Definition set_effects (v : list Effect) (st : Env) : Env :=
  mkEnv (sim st) (sm_state st) (sm_wait_time st) (epi_step_count st)
        (reward_recorder st) (reward_buf st) (obj_chosen st) (grasp_pose st)
        (env_idx st) (env_reset_id st) (joint_pos_init st) (joint_vel_init st)
        (count st) v (camera_info st).

(** Methods read and mutate [self] and may raise: a state and error monad.
    The state that comes back with an exception is the one the exception
    left behind. *)
Definition M (A : Type) : Type := Env -> result A * Env.

#[export] Instance M_ret : MRet M := fun A a st => (Ok a, st).
#[export] Instance M_bind : MBind M := fun A B f m st =>
  match m st with
  | (Ok a, st') => f a st'
  | (Raise e, st') => (Raise e, st')
  end.

Definition raise {A} (e : exn) : M A := fun st => (Raise e, st).
Definition get_self : M Env := fun st => (Ok st, st).
Definition modify (f : Env -> Env) : M unit := fun st => (Ok tt, f st).
Definition lift {A} (r : result A) : M A := fun st => (r, st).
Definition emit (e : Effect) : M unit :=
  modify (fun st => set_effects (effects st ++ [e]) st).

(** [for x in l: body(x)] *)
Fixpoint for_each {A} (body : A -> M unit) (l : list A) : M unit :=
  match l with
  | [] => mret tt
  | x :: l' => body x ;; for_each body l'
  end.

(** [t[i] = v] on a tensor row, with the index in range or [IndexError]. *)
Definition set_item {A} (l : list A) (i : nat) (v : A) : result (list A) :=
  if decide (i < length l)%nat then Ok (<[ i := v ]> l) else Raise IndexError.

(** [__init__]: the fields the class sets up for [num_envs] worlds. *)
Definition init_env (cfg : Params) (num_envs : nat) (s : Sim)
    (default_joint_pos default_joint_vel : list (list Q)) (cnt : Z) : Env :=
  mkEnv s
        (replicate num_envs 2)
        (replicate num_envs 0%Q)
        (replicate num_envs (0, 0))
        (replicate num_envs (replicate 100 (replicate (step_total cfg) 0%Q)))
        (replicate num_envs 0%Q)
        (replicate num_envs (-1))
        (replicate num_envs (mkV3 0 0 0, mkQuat 0 0 0 0))
        (seq 0 num_envs)
        (seq 0 num_envs)
        default_joint_pos default_joint_vel cnt [] None.

(** ** Grasp selection: [get_grasp_poses_from_hdf5] *)

Section Selector.
Context (cfg : Params).

(** The orientation part of
    [transformation_matrix_to_pose_vector(from_contact_to_6D(grasp))];
    both functions live outside the file. *)
Variable grasp_quat_obj : GraspRow -> Quat.

(** [_get_obj_pose(id_obj, id_env)]; [self.objs] is a Python list of
    [num_objs] entries. *)
Definition _get_obj_pose (s : Sim) (id_obj : Z) (id_env : nat) : result Pose :=
  match py_norm_index (num_objs cfg) id_obj with
  | Some o =>
      Ok (v3_sub (root_pos (objs_root_state_w s o id_env))
                 (root_pos (robot_root_state_w s id_env)),
          root_quat (objs_root_state_w s o id_env))
  | None => Raise IndexError
  end.

(** One turn of the loop over the candidates: the world-frame pose that is
    appended to [grasp_poses]. *)
Definition grasp_pose_world (st : Env) (env_id : nat) (grasp : GraspRow)
    : result Pose :=
  let grasp_pos := grasp_pos_obj grasp in
  let grasp_pose_obj := (grasp_pos, grasp_quat_obj grasp) in
  result_bind (get_item (obj_chosen st) env_id) (fun k =>
  result_bind (_get_obj_pose (sim st) k env_id) (fun obj_pose_w =>
  Ok (combine_frame_transforms (fst obj_pose_w) (snd obj_pose_w)
        (fst grasp_pose_obj) (Some (snd grasp_pose_obj))))).

Definition get_grasp_poses_from_hdf5 (grasp_dict : GraspDict) (env_id : nat)
    : M Pose :=
  st ← get_self;
  grasp_poses ← lift (result_mapM (grasp_pose_world st env_id)
                        (paralleljaw_pregrasp_transform grasp_dict));
  match grasp_poses with
  | [] => raise RuntimeError (* torch.stack of an empty list *)
  | _ :: _ =>
      m ← lift (py_max (paralleljaw_pregrasp_score grasp_dict));
      idx ← lift (py_index m (paralleljaw_pregrasp_score grasp_dict));
      grasp_pose ← lift (get_item grasp_poses idx);
      if has_gui cfg then mret grasp_pose else raise AttributeError
  end.

End Selector.

(** ** Reward bookkeeping: [_record_reward] *)

(** [reward_recorder[i, e, s] += v] *)
Definition ledger_add (L : list (list (list Q))) (i : nat) (e s : Z) (v : Q)
    : result (list (list (list Q))) :=
  result_bind (get_item L i) (fun W =>
  result_bind (py_locate W e) (fun '(e', row) =>
  result_bind (py_locate row s) (fun '(s', x) =>
  Ok (<[ i := <[ e' := <[ s' := (x + v)%Q ]> row ]> W ]> L)))).

(** [torch.sum(reward_recorder[i, e])] *)
Definition episode_total (L : list (list (list Q))) (i : nat) (e : Z) : result Q :=
  result_bind (get_item L i) (fun W =>
  result_bind (py_get W e) (fun row => Ok (Qsum row))).

(** [f] with the value at [(o, env)] replaced. *)
Definition fn_set2 {A} (f : nat -> nat -> A) (o env : nat) (v : A)
    : nat -> nat -> A :=
  fun o' env' => if decide (o' = o /\ env' = env) then v else f o' env'.

Section Reward.
Context (cfg : Params).

(** The root state written for a relocated object of world [i]:
    [obj_drop_pose] with the origin of the world added to its position. *)
Definition drop_root_state (s : Sim) (i : nat) : RootState :=
  mkRoot (v3_add (obj_drop_pose cfg) (env_origins s i))
         (obj_drop_quat cfg) (obj_drop_lin_vel cfg) (obj_drop_ang_vel cfg).

(** [scene.rigid_objects["obj_k"].write_root_state_to_sim(root, [i])].  The
    rigid object [obj_k] is entry [k] of [self.objs] when [object_name] is
    ["obj"] and [k] is in [range(num_objs)]; any other rigid object is not
    among the objects whose root state the environment reads. *)
Definition write_root_state_to_sim (k : Z) (i : nat) (root : RootState)
    (s : Sim) : Sim :=
  if String.eqb (object_name cfg) "obj"
     && (0 <=? k) && (k <? Z.of_nat (num_objs cfg))
  then mkSim (robot_root_state_w s)
             (fn_set2 (objs_root_state_w s) (Z.to_nat k) i root)
             (env_origins s) (joint_pos s) (joint_vel s)
  else s.

(** The body of the loop [for i, env_success in enumerate(reward_buf)]. *)
Definition record_one (judge_reward : list bool) (i : nat) (env_success : Q)
    : M unit :=
  if Qtruthy env_success then
    judged ← lift (get_item judge_reward i);
    if judged : bool then
      st ← get_self;
      '(e, s) ← lift (get_item (epi_step_count st) i);
      r ← lift (get_item (reward_buf st) i);
      L ← lift (ledger_add (reward_recorder st) i e s r);
      modify (set_reward_recorder L);;
      k ← lift (get_item (obj_chosen st) i);
      (if scene_has_obj cfg k then mret tt else raise KeyError);;
      modify (fun st' =>
                set_sim (write_root_state_to_sim k i
                           (drop_root_state (sim st) i) (sim st')) st');;
      emit (WriteRootState k i
              (v3_add (obj_drop_pose cfg) (env_origins (sim st) i)));;
      total ← lift (episode_total L i e);
      emit (PrintSuccess i e s total);;
      sm ← lift (set_item (sm_state st) i (STATE_MACHINE cfg "init"));
      modify (set_sm_state sm);;
      oc ← lift (set_item (obj_chosen st) i (-1));
      modify (set_obj_chosen oc)
    else mret tt
  else mret tt.

Definition _record_reward (judge_reward : list bool) : M unit :=
  st ← get_self;
  for_each (fun '(i, env_success) => record_one judge_reward i env_success)
           (imap pair (reward_buf st)).

End Reward.

(** *** Vocabulary for the ledger *)

(** The table has one block per world, of 100 episodes by [step_total]
    steps. *)
Definition ledger_shape (cfg : Params) (n : nat) (L : list (list (list Q))) : Prop :=
  length L = n
  /\ Forall (fun W => length W = 100%nat
                      /\ Forall (fun row => length row = step_total cfg) W) L.

(** The per-world tensors all have [n] rows. *)
Definition wf_env (cfg : Params) (n : nat) (st : Env) : Prop :=
  length (sm_state st) = n /\ length (epi_step_count st) = n
  /\ length (reward_buf st) = n /\ length (obj_chosen st) = n
  /\ ledger_shape cfg n (reward_recorder st).

(** The cell [reward_recorder[i, e, s]] for counters that are not negative. *)
Definition ledger_cell (L : list (list (list Q))) (i : nat) (e s : Z) : option Q :=
  match L !! i with
  | Some W => match W !! Z.to_nat e with
              | Some row => row !! Z.to_nat s
              | None => None
              end
  | None => None
  end.

(** The counters of world [i] point into the table. *)
Definition in_capacity (cfg : Params) (st : Env) (i : nat) : Prop :=
  exists e s, epi_step_count st !! i = Some (e, s)
              /\ 0 <= e < 100 /\ 0 <= s < Z.of_nat (step_total cfg).

(** World [i] has chosen an object that exists in the scene. *)
Definition has_choice (cfg : Params) (st : Env) (i : nat) : Prop :=
  exists k, obj_chosen st !! i = Some k /\ scene_has_obj cfg k = true.

(** The test [env_success and judge_reward[i]] of the loop. *)
Definition succeeded (st : Env) (judge_reward : list bool) (i : nat) : bool :=
  match reward_buf st !! i with
  | Some r => Qtruthy r && default false (judge_reward !! i)
  | None => false
  end.

(** What a recorded success leaves behind for world [i]. *)
Definition credited (cfg : Params) (st st' : Env) (i : nat) : Prop :=
  exists e s r k x,
    epi_step_count st !! i = Some (e, s)
    /\ reward_buf st !! i = Some r
    /\ obj_chosen st !! i = Some k
    /\ ledger_cell (reward_recorder st) i e s = Some x
    /\ ledger_cell (reward_recorder st') i e s = Some (x + r)%Q
    /\ (exists total, In (PrintSuccess i e s total) (effects st'))
    /\ In (WriteRootState k i (v3_add (obj_drop_pose cfg) (env_origins (sim st) i)))
          (effects st')
    /\ (object_name cfg = "obj" -> 0 <= k < Z.of_nat (num_objs cfg) ->
        objs_root_state_w (sim st') (Z.to_nat k) i
        = drop_root_state cfg (sim st) i)
    /\ obj_chosen st' !! i = Some (-1)
    /\ sm_state st' !! i = Some (STATE_MACHINE cfg "init").

(** World [i] keeps its state, its choice and its block of the table. *)
Definition untouched (st st' : Env) (i : nat) : Prop :=
  sm_state st' !! i = sm_state st !! i
  /\ obj_chosen st' !! i = obj_chosen st !! i
  /\ reward_recorder st' !! i = reward_recorder st !! i.

(** Everything a successful turn for world [i] reads is in range. *)
Definition recordable (cfg : Params) (st : Env) (i : nat) : Prop :=
  exists e s W row x k,
    epi_step_count st !! i = Some (e, s)
    /\ reward_recorder st !! i = Some W
    /\ 0 <= e /\ W !! Z.to_nat e = Some row
    /\ 0 <= s /\ row !! Z.to_nat s = Some x
    /\ obj_chosen st !! i = Some k /\ scene_has_obj cfg k = true
    /\ (i < length (sm_state st))%nat.

(** ** Resets: [_reset_robot] and [_summerize_and_reset] *)

(** [f] with the value at [i] replaced. *)
Definition fn_set {A} (f : nat -> A) (i : nat) (v : A) : nat -> A :=
  fun j => if decide (j = i) then v else f j.

(** [robot.write_joint_state_to_sim(pos, vel, env_ids=ids)]: row [k] of the
    two tensors goes to world [ids[k]]. *)
Definition write_joint_state_to_sim
    (pos vel : list (list Q)) (ids : list nat) (s : Sim) : Sim :=
  mkSim (robot_root_state_w s) (objs_root_state_w s) (env_origins s)
        (foldl (fun f '(i, row) => fn_set f i row) (joint_pos s) (zip ids pos))
        (foldl (fun f '(i, row) => fn_set f i row) (joint_vel s) (zip ids vel)).

Section Resets.
Context (cfg : Params).

Definition _reset_robot (robot_reset_id : list nat) : M unit :=
  st ← get_self;
  pos ← lift (rows_at (joint_pos_init st) robot_reset_id);
  vel ← lift (rows_at (joint_vel_init st) robot_reset_id);
  modify (fun st => set_sim (write_joint_state_to_sim pos vel robot_reset_id (sim st)) st);;
  emit (WriteJointState robot_reset_id);;
  emit (RobotReset robot_reset_id);;
  if String.eqb (CONTROLLER cfg) "RMPFLOW"
  then raise AttributeError (* no [self.controller] was created *)
  else emit (ControllerReset robot_reset_id).

(** [ManagerBasedRLEnv._reset_idx], a request to the base class. *)
Definition _reset_idx (env_ids : list nat) : M unit :=
  emit (ResetIdx env_ids).

Definition _summerize_and_reset : M unit :=
  st ← get_self;
  init_id ← lift (masked (env_idx st)
                    (map (fun x => x =? STATE_MACHINE cfg "init") (sm_state st)));
  init_env_id ← lift (masked (env_idx st)
                    (map (fun x => x =? STATE_MACHINE cfg "init_env") (sm_state st)));
  _reset_robot init_id;;
  _reset_idx init_env_id.

End Resets.

(** World [w] is one of those a tick resets: it is in [init] or in
    [init_env]. *)
Definition flagged (cfg : Params) (st : Env) (w : nat) : Prop :=
  sm_state st !! w = Some (STATE_MACHINE cfg "init")
  \/ sm_state st !! w = Some (STATE_MACHINE cfg "init_env").

(** The worlds a request names. *)
Definition effect_ids (e : Effect) : list nat :=
  match e with
  | WriteRootState _ env _ => [env]
  | PrintSuccess env _ _ _ => [env]
  | WriteJointState ids => ids
  | RobotReset ids => ids
  | ControllerReset ids => ids
  | ResetIdx ids => ids
  | SaveData env => [env]
  end.

(** What the turns of the reward loop for other worlds leave alone of
    world [i]: its state, choice, ledger block and objects, the counters,
    the rewards and the origins; and the requests they add do not name
    [i]. *)
Definition frame_at (i : nat) (st st' : Env) : Prop :=
  untouched st st' i
  /\ (forall o, objs_root_state_w (sim st') o i = objs_root_state_w (sim st) o i)
  /\ epi_step_count st' = epi_step_count st
  /\ reward_buf st' = reward_buf st
  /\ env_origins (sim st') = env_origins (sim st)
  /\ length (sm_state st') = length (sm_state st)
  /\ exists new, effects st' = effects st ++ new
                 /\ Forall (fun eff => ~ In i (effect_ids eff)) new.

(** ** Export: [recorder] *)

Record Row := mkRow {
  environment_id : nat;
  episode_number : Z;
  step_number : nat;
  grasp_success : list Q
}.

(** [np.repeat(xs, counts)] *)
Definition np_repeat {A} (xs : list A) (counts : list nat) : list A :=
  flat_map (fun '(x, c) => replicate c x) (zip xs counts).

(** [pd.DataFrame(data)] for the four columns; columns of unequal length
    are refused. *)
Definition data_frame (c1 : list nat) (c2 : list Z) (c3 : list nat)
    (c4 : list (list Q)) : result (list Row) :=
  if decide (length c1 = length c2 /\ length c2 = length c3
             /\ length c3 = length c4)
  then Ok (zip_with (fun '(a, b) '(c, d) => mkRow a b c d) (zip c1 c2) (zip c3 c4))
  else Raise ValueError.

(** The new rows [df_new_data]. *)
Definition new_rows (environment_ids : list nat) (episode_numbers : list Z)
    (grasp_tensor : list (list (list Q))) : result (list Row) :=
  data_frame
    (np_repeat environment_ids (map (@length _) grasp_tensor))
    (np_repeat episode_numbers (map (@length _) grasp_tensor))
    (flat_map (fun episode => seq 0 (length episode)) grasp_tensor)
    (flat_map (fun episode => episode) grasp_tensor).

(** [recorder(file_name)]: the file is [None] while it does not exist; the
    result is the file afterwards. *)
Definition recorder (st : Env) (file : option (list Row))
    : result (option (list Row)) :=
  let environment_ids := env_reset_id st in
  result_bind (rows_at (epi_step_count st) (env_reset_id st)) (fun eps =>
  let episode_numbers := map fst eps in
  result_bind (rows_at (reward_recorder st) (env_reset_id st)) (fun grasp_tensor =>
  if (length environment_ids =? 0)%nat || (count st =? 0) then Ok file
  else if negb ((length environment_ids =? length episode_numbers)%nat
                && (length episode_numbers =? length grasp_tensor)%nat)
  then Raise ValueError
  else
    result_bind (new_rows environment_ids episode_numbers grasp_tensor)
      (fun df_new_data =>
         match file with
         | Some df_existing => Ok (Some (df_existing ++ df_new_data))
         | None => Ok (Some df_new_data)
         end))).

(** ** Camera data: [get_grasp_pose_demo] *)

Section Demo.
(** The tensors of the observation dictionary are not inspected. *)
Context {Channel : Type}.

(** [save_data] is reduced to the record it writes for the world. *)
Definition save_data (env_id : nat) : M unit := emit (SaveData env_id).

Definition dict_get (d : gmap string Channel) (k : string) : result Channel :=
  match d !! k with Some c => Ok c | None => Raise KeyError end.

Definition get_grasp_pose_demo (ids : list nat)
    (obs_buf : gmap string (gmap string Channel)) : M (list Pose) :=
  data_cam ← lift (match obs_buf !! "policy" with
                   | Some d => Ok d | None => Raise KeyError end);
  let instances_all_env := data_cam !! "instance_segmentation_fast" in
  (if decide (is_Some (data_cam !! "distance_to_image_plane"))
   then mret tt else raise AssertionError);;
  pcds_all_env ← lift (dict_get data_cam "pcd");
  depths_all_env ← lift (dict_get data_cam "distance_to_image_plane");
  normals_all_env ← lift (dict_get data_cam "normals");
  for_each save_data ids;;
  st ← get_self;
  mret (grasp_pose st).

End Demo.

(** ** The outer loop: [step] *)

Section Step.
Context (cfg : Params).

(** The two parts of one turn of the loop that run outside the file.  The
    state-machine kernel [infer_state_machine_data], launched by
    [_advance_state_machine], receives the readiness signal computed by
    [update_env_state].  The kinematics of the controller and the step of
    the base class (physics, observations, rewards) follow the command to
    the controller. *)
Variable advance_state_machine : list bool -> Env -> Env.
Variable simulate : Env -> Env.

(** [self.controller.set_command(...)]: [__init__] creates no
    [self.controller] when [CONTROLLER] is ["RMPFLOW"]. *)
Definition set_command : M unit :=
  if String.eqb (CONTROLLER cfg) "RMPFLOW" then raise AttributeError
  else mret tt.

Definition loop_body : M unit :=
  st ← get_self;
  modify (advance_state_machine
            (env_reachable_and_stable cfg (sim st) (sm_wait_time st)));;
  set_command;;
  modify simulate;;
  _summerize_and_reset cfg.

(** [self.sm_state == STATE_MACHINE["choose_object"]] *)
Definition criteria_of (st : Env) : list bool :=
  map (fun x => x =? STATE_MACHINE cfg "choose_object") (sm_state st).

(** [while not policy_inference_criteria.any(): ...]; [ran] records whether
    the body has run, that is, whether [obs_buf] is bound.  [None] is a
    loop that has not ended within [fuel] turns. *)
Fixpoint step_loop (fuel : nat) (ran : bool) (crit : list bool) (st : Env)
    : option (result (bool * list bool) * Env) :=
  if existsb id crit then Some (Ok (ran, crit), st)
  else
    match fuel with
    | O => None
    | S fuel' =>
        match loop_body st with
        | (Ok _, st') => step_loop fuel' true (criteria_of st') st'
        | (Raise e, st') => Some (Raise e, st')
        end
    end.

(** The environment after [n] turns of the loop body, if none raises. *)
Fixpoint ticks (n : nat) (st : Env) : result Env :=
  match n with
  | O => Ok st
  | S n' =>
      match loop_body st with
      | (Ok _, st') => ticks n' st'
      | (Raise e, _) => Raise e
      end
  end.

(** [self.camera_info = [self.camera[can_id].data.info for can_id in
    range(n_multiple_cam)]]: [self.camera] exists only when the cameras are
    not disabled, and it is read once per camera.  The info itself belongs
    to the sensor; the list holds the cameras read. *)
Definition read_camera_info : M unit :=
  if disable_camera cfg && negb (n_multiple_cam cfg =? 0)%nat
  then raise AttributeError
  else modify (set_camera_info (Some (seq 0 (n_multiple_cam cfg)))).

(** [step(grasp_pose, policy_inference_criteria)]; the last component of
    the returned tuple, which [use_sb3] replaces by an empty dictionary.
    Returning needs [obs_buf], which only the loop body binds. *)
Definition step (fuel : nat) (grasp : list Pose)
    (policy_inference_criteria : list bool) (st : Env)
    : option (result (option (list bool)) * Env) :=
  match step_loop fuel false policy_inference_criteria (set_grasp_pose grasp st) with
  | None => None
  | Some (Raise e, st') => Some (Raise e, st')
  | Some (Ok (ran, crit), st') =>
      match read_camera_info st' with
      | (Raise e, st'') => Some (Raise e, st'')
      | (Ok _, st'') =>
          if ran : bool
          then Some (Ok (if use_sb3 cfg then None else Some crit), st'')
          else Some (Raise UnboundLocalError, st'')
      end
  end.

End Step.

(** Some world, respectively every world, is in [choose_object]. *)
Definition some_world_chooses (cfg : Params) (st : Env) : Prop :=
  exists w, sm_state st !! w = Some (STATE_MACHINE cfg "choose_object").

Definition every_world_chooses (cfg : Params) (st : Env) : Prop :=
  forall w x, sm_state st !! w = Some x -> x = STATE_MACHINE cfg "choose_object".

(** ** A small concrete installation

    Two worlds with two objects each, used to run the definitions. *)

Definition demo_STATE_MACHINE (key : string) : Z :=
  if String.eqb key "init" then 0
  else if String.eqb key "init_env" then 1
  else if String.eqb key "start" then 2
  else if String.eqb key "choose_object" then 3
  else if String.eqb key "approach" then 4
  else if String.eqb key "grasp" then 5
  else 6.

Definition demo_cfg : Params :=
  mkParams 2 (1 # 2)
    (fun axis side =>
       match axis, side with
       | O, O => 0 | O, _ => 1
       | _, O => - (1 # 2) | _, _ => 1 # 2
       end)%Q
    (1 # 100) 3 demo_STATE_MACHINE
    (fun k => (0 <=? k) && (k <? 2))
    (mkV3 2 2 0) true "DIFFIK" false
    "obj" (mkQuat 1 0 0 0) (mkV3 0 0 0) (mkV3 0 0 0) false 1.

(** The same installation run without a GUI. *)
Definition headless_cfg : Params :=
  mkParams 2 (1 # 2) (ee_goals_default demo_cfg) (1 # 100) 3
    demo_STATE_MACHINE (scene_has_obj demo_cfg) (mkV3 2 2 0)
    false "DIFFIK" false
    "obj" (mkQuat 1 0 0 0) (mkV3 0 0 0) (mkV3 0 0 0) false 1.

(** The same installation configured for the RMPflow controller. *)
Definition rmpflow_cfg : Params :=
  mkParams 2 (1 # 2) (ee_goals_default demo_cfg) (1 # 100) 3
    demo_STATE_MACHINE (scene_has_obj demo_cfg) (mkV3 2 2 0)
    true "RMPFLOW" false
    "obj" (mkQuat 1 0 0 0) (mkV3 0 0 0) (mkV3 0 0 0) false 1.

Definition v3_zero : V3 := mkV3 0 0 0.
Definition quat_id : Quat := mkQuat 1 0 0 0.

(** Object 0 of world 0 rests inside the workspace, turned by half a turn
    about the vertical axis; every other object hangs two metres up and
    moves. *)
Definition demo_sim : Sim :=
  mkSim
    (fun _ => mkRoot v3_zero quat_id v3_zero v3_zero)
    (fun id_obj env =>
       match id_obj, env with
       | O, O => mkRoot (mkV3 (1 # 2) 0 (1 # 10)) (mkQuat 0 0 0 1) v3_zero v3_zero
       | _, _ => mkRoot (mkV3 (1 # 2) 0 2) quat_id (mkV3 1 0 0) v3_zero
       end)
    (fun _ => v3_zero)
    (fun _ => [1 # 1; 2 # 1])
    (fun _ => [0 # 1; 0 # 1]).

(** Both worlds wait in [start]; world 0 has waited two seconds and carries
    a reward, world 1 has not. *)
Definition demo_env : Env :=
  mkEnv demo_sim
        [2; 2] [2 # 1; 2 # 1] [(0, 0); (0, 0)]
        (replicate 2 (replicate 100 (replicate 3 0%Q)))
        [1 # 1; 0 # 1] [0; 1]
        (replicate 2 (v3_zero, quat_id))
        [0; 1]%nat [0; 1]%nat
        [[0 # 1; 0 # 1]; [0 # 1; 0 # 1]] [[0 # 1; 0 # 1]; [0 # 1; 0 # 1]]
        1 [] None.

(** Modelled from the spec: the edge [START -> CHOOSE_OBJECT] of the kernel
    [infer_state_machine_data], which is not in the file.  A world in [start]
    whose readiness signal is set moves to [choose_object]; nothing else
    changes. *)
Definition demo_kernel (ready : list bool) (st : Env) : Env :=
  set_sm_state
    (zip_with (fun x (r : bool) => if (x =? 2) && r then 3 else x)
              (sm_state st) ready)
    st.

(** Modelled from the spec: the edges of the kernel that lead to
    [choose_object].  A world in [init] moves to [init_env] and a world in
    [init_env] to [start] at once; a world in [start] whose readiness signal
    is set moves to [choose_object]; the timer of a world restarts at 0 when
    the world enters a state and grows by [dt] otherwise.  The later states,
    the counters and the poses are left alone. *)
Definition spec_kernel (cfg : Params) (dt : Q) (ready : list bool) (st : Env)
    : Env :=
  let next (x : Z) (r : bool) : Z :=
    if x =? STATE_MACHINE cfg "init" then STATE_MACHINE cfg "init_env"
    else if x =? STATE_MACHINE cfg "init_env" then STATE_MACHINE cfg "start"
    else if (x =? STATE_MACHINE cfg "start") && r
         then STATE_MACHINE cfg "choose_object"
         else x in
  let sm' := zip_with next (sm_state st) ready in
  let wait' :=
    zip_with (fun (xx : Z * Z) (w : Q) =>
                if fst xx =? snd xx then (w + dt)%Q else 0%Q)
             (zip (sm_state st) sm') (sm_wait_time st) in
  set_sm_wait_time wait' (set_sm_state sm' st).

Definition demo_grasp : GraspRow :=
  mkGrasp (mkV3 0 0 1) (mkV3 1 0 0) (mkV3 0 0 0) 4.

Definition demo_grasp_low : GraspRow :=
  mkGrasp (mkV3 0 0 1) (mkV3 0 1 0) (mkV3 1 0 0) 2.

Definition demo_grasp_quat (_ : GraspRow) : Quat := quat_id.

(** ** Further methods *)

(** *** Quaternion order: [_advance_state_machine] *)

(** [pose[:, [0, 1, 2, 4, 5, 6, 3]]] on one row: (w, x, y, z) to
    (x, y, z, w). *)
Definition to_xyzw {A} (row : list A) : result (list A) :=
  rows_at row [0; 1; 2; 4; 5; 6; 3]%nat.

(** [pose[:, [0, 1, 2, 6, 3, 4, 5]]] on one row: back to (w, x, y, z). *)
Definition to_wxyz {A} (row : list A) : result (list A) :=
  rows_at row [0; 1; 2; 6; 3; 4; 5]%nat.

(** What [_advance_state_machine] does to [self.grasp_pose]: the tensor is
    reordered before the kernel is launched and reordered back after it; the
    kernel is not handed the tensor. *)
Definition advance_grasp_pose {A} (grasp_pose : list (list A))
    : result (list (list A)) :=
  result_bind (result_mapM to_xyzw grasp_pose) (result_mapM to_wxyz).

(** *** The object list of [save_data] *)

Section SceneObjects.
Context (cfg : Params).
(** [pose_vector_to_transformation_matrix] and the table [OBJ_LABLE] are
    defined outside the file. *)
Context {Mat : Type} (pose_vector_to_transformation_matrix : Pose -> Mat).
Variable OBJ_LABLE : list string.

(** One turn of [for obj in range(num_objs)], on the two lists built so
    far. *)
Definition scene_object_step (s : Sim) (env_id : nat)
    (acc : list Mat * list string) (obj : nat)
    : result (list Mat * list string) :=
  result_bind (_get_obj_pose cfg s (Z.of_nat obj) env_id) (fun pose =>
  if Qltb (- (5 # 100)) (vz (fst pose)) then
    let pose := (v3_scale (fst pose) 100, snd pose) in
    let poses := fst acc ++ [pose_vector_to_transformation_matrix pose] in
    result_bind (get_item OBJ_LABLE obj) (fun label =>
    Ok (poses, snd acc ++ [label]))
  else Ok acc).

Fixpoint scene_object_loop (s : Sim) (env_id : nat)
    (acc : list Mat * list string) (objs : list nat)
    : result (list Mat * list string) :=
  match objs with
  | [] => Ok acc
  | obj :: objs' =>
      result_bind (scene_object_step s env_id acc obj) (fun acc' =>
      scene_object_loop s env_id acc' objs')
  end.

(** [obj_poses_robot] and [scene_obj_id] as [save_data] stores them: the
    poses are [None] when the list is empty. *)
Definition scene_objects (s : Sim) (env_id : nat)
    : result (option (list Mat) * list string) :=
  result_bind (scene_object_loop s env_id ([], []) (seq 0 (num_objs cfg)))
    (fun '(poses, scene_obj_id) =>
       Ok (match poses with [] => None | _ :: _ => Some poses end,
           scene_obj_id)).

(** The object stands higher than five centimetres below the robot base. *)
Definition above_floor (s : Sim) (env_id obj : nat) : bool :=
  Qltb (- (5 # 100)) (vz (_get_obj_pos s obj env_id)).

(** The pose stored for an object: its position relative to the robot base
    in centimetres, with its orientation. *)
Definition stored_pose (s : Sim) (env_id obj : nat) : Mat :=
  pose_vector_to_transformation_matrix
    (v3_scale (_get_obj_pos s obj env_id) 100,
     root_quat (objs_root_state_w s obj env_id)).

End SceneObjects.

Definition demo_OBJ_LABLE : list string := ["cup"; "box"].

(** The fields [_record_reward] never writes, together with the shape of
    the tensors it does write.  Of the scene it writes root states of
    objects only: the robot, the joints and the origins are kept. *)
Definition kept_by_record (cfg : Params) (n : nat) (st0 st : Env) : Prop :=
  wf_env cfg n st
  /\ epi_step_count st = epi_step_count st0
  /\ reward_buf st = reward_buf st0
  /\ sm_wait_time st = sm_wait_time st0
  /\ robot_root_state_w (sim st) = robot_root_state_w (sim st0)
  /\ env_origins (sim st) = env_origins (sim st0)
  /\ joint_pos (sim st) = joint_pos (sim st0)
  /\ joint_vel (sim st) = joint_vel (sim st0).

(** The rows of an export, block by block: world, episode counter of the
    world, position of the row in the world's block, and the row itself.
    It is only compared with what [new_rows] computes from the four
    columns. *)
Fixpoint block_rows (ids : list nat) (eps : list Z)
    (grasp_tensor : list (list (list Q))) : list Row :=
  match ids, eps, grasp_tensor with
  | i :: ids', e :: eps', W :: gt' =>
      imap (fun j row => mkRow i e j row) W ++ block_rows ids' eps' gt'
  | _, _, _ => []
  end.

(** * Properties *)

(** ** Helper lemmas *)

Lemma Qltb_lt (x y : Q) : Qltb x y = true <-> (x < y)%Q.
Proof.
  unfold Qltb. rewrite negb_true_iff. split.
  - intros Hb. apply Qnot_le_lt. intros Hle.
    apply Qle_bool_iff in Hle. congruence.
  - intros Hlt. destruct (Qle_bool y x) eqn:E; [|reflexivity].
    apply Qle_bool_iff in E. exfalso. exact (Qlt_not_le _ _ Hlt E).
Qed.

Lemma map_is_fmap {A B} (f : A -> B) (l : list A) : map f l = f <$> l.
Proof. induction l as [|x l IH]; simpl; [reflexivity | now rewrite IH]. Qed.

Lemma forallb_seq_lt (p : nat -> bool) (n : nat) :
  forallb p (seq 0 n) = true <-> forall o, (o < n)%nat -> p o = true.
Proof.
  rewrite forallb_forall. split.
  - intros H o Ho. apply H, in_seq. lia.
  - intros H o Ho. apply in_seq in Ho. apply H. lia.
Qed.

Lemma existsb_seq_lt (p : nat -> bool) (n : nat) :
  existsb p (seq 0 n) = true <-> exists o, (o < n)%nat /\ p o = true.
Proof.
  rewrite existsb_exists. split.
  - intros (o & Ho & Hp). apply in_seq in Ho. exists o. split; [lia | exact Hp].
  - intros (o & Ho & Hp). exists o. split; [apply in_seq; lia | exact Hp].
Qed.

(** ** Readiness *)

Lemma obj_reachable_iff (cfg : Params) (s : Sim) (env o : nat) :
  obj_reachable cfg s env o = true <->
  (vz (_get_obj_pos s o env) < obj_height_limit cfg
   /\ - (5 # 100) < vz (_get_obj_pos s o env)
   /\ ee_goals_default cfg 0 0 < vx (_get_obj_pos s o env)
   /\ vx (_get_obj_pos s o env) < ee_goals_default cfg 0 1
   /\ ee_goals_default cfg 1 0 < vy (_get_obj_pos s o env)
   /\ vy (_get_obj_pos s o env) < ee_goals_default cfg 1 1)%Q.
Proof.
  unfold obj_reachable, object_pos. cbn [fst].
  rewrite !andb_true_iff, !Qltb_lt. tauto.
Qed.

Lemma obj_stable_iff (cfg : Params) (s : Sim) (env o : nat) :
  obj_stable cfg s env o = true <->
  (mean_abs (_get_obj_vel s o env) < obj_vel_limit cfg)%Q
  \/ obj_reachable cfg s env o = false.
Proof.
  unfold obj_stable, object_pos. cbn [snd].
  rewrite orb_true_iff, negb_true_iff, Qltb_lt. tauto.
Qed.

Lemma env_ready_lookup (cfg : Params) (s : Sim) (wait : list Q) (env : nat) (t : Q) :
  wait !! env = Some t ->
  env_reachable_and_stable cfg s wait !! env
  = Some (forallb (obj_stable cfg s env) (seq 0 (num_objs cfg))
          && env_reachable cfg s env && Qltb 1 t).
Proof.
  intros Ht. unfold env_reachable_and_stable.
  rewrite !map_is_fmap, lookup_zip_with, !list_lookup_fmap, Ht.
  rewrite lookup_seq_lt by (eapply lookup_lt_Some; eassumption).
  reflexivity.
Qed.

(** The velocity proxy of an object, written out. *)
Lemma mean_abs_root_vel (r : RootState) :
  (mean_abs (root_vel r)
   == (Qabs (vx (root_lin_vel r)) + Qabs (vy (root_lin_vel r))
       + Qabs (vz (root_lin_vel r)) + Qabs (vx (root_ang_vel r))
       + Qabs (vy (root_ang_vel r)) + Qabs (vz (root_ang_vel r))) / 6)%Q.
Proof.
  unfold mean_abs, root_vel, Qsum. cbn [map foldr length].
  change (inject_Z (Z.of_nat 6)) with 6%Q. field.
Qed.

(** C1. On every tick and for every world, an object is reachable iff its
    height (relative to the robot's root) is below the height limit and
    above the lower tolerance of 5 cm and its x and y lie strictly inside the
    workspace bounds; it is stable iff the mean of the absolute values of
    its six velocity components is below the velocity limit or it is not
    reachable; and the world is ready iff all objects are stable, some object
    is reachable and the wait time exceeds the settle time of one second. *)
Theorem update_env_state_classifies
    (cfg : Params) (s : Sim) (wait : list Q) (env : nat) (t : Q) :
  wait !! env = Some t ->
  (forall o,
      let obj := objs_root_state_w s o env in
      let robot := robot_root_state_w s env in
      let x := (vx (root_pos obj) - vx (root_pos robot))%Q in
      let y := (vy (root_pos obj) - vy (root_pos robot))%Q in
      let height := (vz (root_pos obj) - vz (root_pos robot))%Q in
      let mean_abs_velocity :=
        ((Qabs (vx (root_lin_vel obj)) + Qabs (vy (root_lin_vel obj))
          + Qabs (vz (root_lin_vel obj)) + Qabs (vx (root_ang_vel obj))
          + Qabs (vy (root_ang_vel obj)) + Qabs (vz (root_ang_vel obj))) / 6)%Q in
      (obj_reachable cfg s env o = true <->
       (height < obj_height_limit cfg
        /\ - (5 # 100) < height
        /\ ee_goals_default cfg 0 0 < x
        /\ x < ee_goals_default cfg 0 1
        /\ ee_goals_default cfg 1 0 < y
        /\ y < ee_goals_default cfg 1 1)%Q)
      /\ (obj_stable cfg s env o = true <->
          (mean_abs_velocity < obj_vel_limit cfg)%Q
          \/ ~ obj_reachable cfg s env o = true))
  /\ exists ready,
      env_reachable_and_stable cfg s wait !! env = Some ready
      /\ (ready = true <->
          (forall o, (o < num_objs cfg)%nat -> obj_stable cfg s env o = true)
          /\ (exists o, (o < num_objs cfg)%nat /\ obj_reachable cfg s env o = true)
          /\ (1 < t)%Q).
Proof.
  intros Ht. split.
  - intros o obj robot x y height mean_abs_velocity. split.
    + apply obj_reachable_iff.
    + rewrite obj_stable_iff, not_true_iff_false.
      unfold _get_obj_vel. fold obj.
      rewrite (mean_abs_root_vel obj). fold mean_abs_velocity. tauto.
  - eexists. split; [apply env_ready_lookup; exact Ht|].
    unfold env_reachable.
    rewrite !andb_true_iff, forallb_seq_lt, existsb_seq_lt, Qltb_lt. tauto.
Qed.

(** In world 0 of the demo scene the resting object 0 is 10 cm up at
    x = 1/2, y = 0 and does not move; the world has waited two seconds. *)
Lemma update_env_state_classifies_witness :
  (obj_reachable demo_cfg demo_sim 0 0 = true <->
   ((1 # 10) - 0 < 1 # 2 /\ - (5 # 100) < (1 # 10) - 0
    /\ 0 < (1 # 2) - 0 /\ (1 # 2) - 0 < 1
    /\ - (1 # 2) < 0 - 0 /\ 0 - 0 < 1 # 2)%Q)
  /\ (obj_stable demo_cfg demo_sim 0 0 = true <->
      ((Qabs 0 + Qabs 0 + Qabs 0 + Qabs 0 + Qabs 0 + Qabs 0) / 6 < 1 # 100)%Q
      \/ ~ obj_reachable demo_cfg demo_sim 0 0 = true)
  /\ exists ready,
    env_reachable_and_stable demo_cfg demo_sim [2 # 1; 2 # 1]%Q !! 0%nat = Some ready
    /\ (ready = true <->
        (forall o, (o < 2)%nat -> obj_stable demo_cfg demo_sim 0 o = true)
        /\ (exists o, (o < 2)%nat /\ obj_reachable demo_cfg demo_sim 0 o = true)
        /\ (1 < 2 # 1)%Q).
Proof.
  destruct (update_env_state_classifies
              demo_cfg demo_sim [2 # 1; 2 # 1]%Q 0%nat (2 # 1)%Q eq_refl)
    as [Hobj Hready].
  destruct (Hobj 0%nat) as [Hreach Hstable].
  split; [exact Hreach|]. split; [exact Hstable | exact Hready].
Defined.

(** The resting object of world 0 is reachable and stable; the object two
    metres up is not reachable and therefore stable although it moves; world
    0 is ready after two seconds and world 1, with nothing in reach, is not. *)
Example readiness_of_the_demo_scene :
  obj_reachable demo_cfg demo_sim 0 0 = true
  /\ obj_stable demo_cfg demo_sim 0 0 = true
  /\ obj_reachable demo_cfg demo_sim 0 1 = false
  /\ obj_stable demo_cfg demo_sim 0 1 = true
  /\ env_reachable_and_stable demo_cfg demo_sim [2 # 1; 2 # 1]%Q = [true; false]
  /\ env_reachable_and_stable demo_cfg demo_sim [1 # 1; 2 # 1]%Q = [false; false].
Proof. vm_compute. repeat split. Qed.

(** ** Frame composition and the pre-grasp position *)

Lemma v3_eq_refl (a : V3) : v3_eq a a.
Proof. unfold v3_eq. repeat split; reflexivity. Qed.

(** With the identity orientation the composition is a plain addition. *)
Lemma quat_apply_id (v : V3) : v3_eq (quat_apply quat_id v) v.
Proof. unfold v3_eq, quat_apply, quat_id; simpl. repeat split; ring. Qed.

(** [quat_apply] is the sandwich product [q (0, v) q*] up to the defect of
    the norm of [q]: for a unit quaternion it is the rotation by [q]. *)
Lemma quat_apply_sandwich (q : Quat) (v : V3) :
  let n2 := (qw q * qw q + qx q * qx q + qy q * qy q + qz q * qz q)%Q in
  let s := quat_mul (quat_mul q (mkQuat 0 (vx v) (vy v) (vz v)))
                    (mkQuat (qw q) (- qx q) (- qy q) (- qz q)) in
  v3_eq (quat_apply q v)
        (v3_add (mkV3 (qx s) (qy s) (qz s)) (v3_scale v (1 - n2))).
Proof.
  destruct q as [w x y z], v as [a b c].
  unfold v3_eq, quat_apply, quat_mul; simpl. repeat split; ring.
Qed.

Lemma get_obj_pose_ok (cfg : Params) (s : Sim) (k : Z) (env o : nat) :
  py_norm_index (num_objs cfg) k = Some o ->
  _get_obj_pose cfg s k env
  = Ok (v3_sub (root_pos (objs_root_state_w s o env))
               (root_pos (robot_root_state_w s env)),
        root_quat (objs_root_state_w s o env)).
Proof. intros H. unfold _get_obj_pose. now rewrite H. Qed.

(** C2 (amended). For every candidate the second contact point is the
    contact point plus the baseline scaled by the separation (both in
    centimetres, hence divided by 100); the pre-grasp position steps back by
    0.1 along the approach vector from the SECOND CONTACT POINT, which lies
    half a scaled baseline away from the midpoint; and the local pose is
    composed with the object's pose by rotating with the object's
    orientation and then translating, the orientations being multiplied. *)
Theorem grasp_pose_world_composes
    (cfg : Params) (gq : GraspRow -> Quat) (st : Env) (env_id : nat)
    (g : GraspRow) (k : Z) (ot : V3) (oq : Quat) :
  obj_chosen st !! env_id = Some k ->
  _get_obj_pose cfg (sim st) k env_id = Ok (ot, oq) ->
  grasp_pose_world cfg gq st env_id g
  = Ok (v3_add ot (quat_apply oq (grasp_pos_obj g)), quat_mul oq (gq g))
  /\ v3_eq (v3_sub (pt2_obj g) (contact_pt_obj g))
           (v3_div (v3_scale (g_baseline g) (g_width g)) 100)
  /\ v3_eq (v3_add (grasp_pos_obj g) (v3_scale (g_approach g) (1 # 10)))
           (pt2_obj g)
  /\ v3_eq (v3_sub (grasp_pos_obj g) (spec_grasp_pos_obj g (1 # 10)))
           (v3_div (v3_scale (g_baseline g) (g_width g)) 200).
Proof.
  intros Hk Hpose. split; [|split; [|split]].
  - unfold grasp_pose_world, get_item. rewrite Hk. cbn [result_bind].
    rewrite Hpose. reflexivity.
  - destruct g as [[a1 a2 a3] [b1 b2 b3] [c1 c2 c3] w].
    unfold v3_eq, pt2_obj, contact_pt_obj; simpl. repeat split; field.
  - destruct g as [[a1 a2 a3] [b1 b2 b3] [c1 c2 c3] w].
    unfold v3_eq, grasp_pos_obj, pt2_obj, contact_pt_obj; simpl.
    repeat split; field.
  - destruct g as [[a1 a2 a3] [b1 b2 b3] [c1 c2 c3] w].
    unfold v3_eq, grasp_pos_obj, spec_grasp_pos_obj, mid_pt_obj, pt2_obj,
      contact_pt_obj; simpl.
    repeat split; field.
Qed.

Lemma grasp_pose_world_composes_witness :
  grasp_pose_world demo_cfg demo_grasp_quat demo_env 0 demo_grasp
  = Ok (v3_add (v3_sub (mkV3 (1 # 2) 0 (1 # 10)) v3_zero)
          (quat_apply (mkQuat 0 0 0 1) (grasp_pos_obj demo_grasp)),
        quat_mul (mkQuat 0 0 0 1) (demo_grasp_quat demo_grasp)).
Proof.
  exact (proj1 (grasp_pose_world_composes demo_cfg demo_grasp_quat demo_env
                  0%nat demo_grasp 0 _ _ eq_refl eq_refl)).
Defined.

(** The object of world 0 sits at (0.5, 0, 0.1), turned by half a turn about
    the vertical axis: the grasp position (0.04, 0, -0.1) of [demo_grasp]
    lands at (0.46, 0, 0), where a plain addition would give (0.54, 0, 0). *)
Example composition_is_not_addition :
  exists p,
    grasp_pose_world demo_cfg demo_grasp_quat demo_env 0 demo_grasp = Ok p
    /\ v3_eq (fst p) (mkV3 (46 # 100) 0 0)
    /\ ~ v3_eq (fst p) (v3_add (mkV3 (1 # 2) 0 (1 # 10)) (grasp_pos_obj demo_grasp)).
Proof.
  eexists. split; [vm_compute; reflexivity|]. split.
  - vm_compute. repeat split; reflexivity.
  - intros (Hx & _). vm_compute in Hx. discriminate Hx.
Qed.

(** C2 (as stated, refuted). For the candidate [demo_grasp] the pre-grasp
    position the code computes is not a step back from the midpoint of the
    two contact points along the approach vector, whatever the standoff
    distance: it is 4 cm along the baseline, the midpoint is at 2 cm. *)
Lemma pregrasp_not_from_midpoint :
  v3_eq (grasp_pos_obj demo_grasp) (mkV3 (4 # 100) 0 (- (1 # 10)))
  /\ v3_eq (mid_pt_obj demo_grasp) (mkV3 (2 # 100) 0 0)
  /\ ~ exists standoff,
        v3_eq (grasp_pos_obj demo_grasp) (spec_grasp_pos_obj demo_grasp standoff).
Proof.
  split; [|split].
  - vm_compute. repeat split; reflexivity.
  - vm_compute. repeat split; reflexivity.
  - intros [d (Hx & _)].
    unfold grasp_pos_obj, spec_grasp_pos_obj, mid_pt_obj, pt2_obj,
      contact_pt_obj, demo_grasp in Hx; simpl in Hx.
    assert (Hd : (0 * d == 0)%Q) by ring.
    assert (Hl : ((0 / 100 + 1 * 4 / 100 - 0 * (1 # 10)) == 4 # 100)%Q)
      by reflexivity.
    assert (Hr : (((0 / 100 + (0 / 100 + 1 * 4 / 100)) / 2 - 0 * d) == 2 # 100)%Q).
    { rewrite Hd. reflexivity. }
    rewrite Hl, Hr in Hx. vm_compute in Hx. discriminate Hx.
Qed.

(** ** Selection of the best candidate *)

Lemma py_max_from_ge (l : list Q) : forall m,
  (m <= py_max_from m l)%Q /\ (forall x, In x l -> (x <= py_max_from m l)%Q).
Proof.
  induction l as [|y l IH]; intros m; simpl.
  - split; [apply Qle_refl | intros x []].
  - destruct (IH (if Qltb m y then y else m)) as [Hm Hall].
    assert (Hmy : (m <= (if Qltb m y then y else m))%Q
                  /\ (y <= (if Qltb m y then y else m))%Q).
    { destruct (Qltb m y) eqn:E.
      - apply Qltb_lt in E. split; [apply Qlt_le_weak, E | apply Qle_refl].
      - split; [apply Qle_refl|].
        unfold Qltb in E. apply negb_false_iff in E.
        apply Qle_bool_iff, E. }
    destruct Hmy as [H1 H2]. split.
    + eapply Qle_trans; eassumption.
    + intros x [<- | Hx]; [eapply Qle_trans; eassumption | apply Hall, Hx].
Qed.

Lemma py_max_from_in (l : list Q) : forall m,
  py_max_from m l = m \/ In (py_max_from m l) l.
Proof.
  induction l as [|y l IH]; intros m; simpl; [left; reflexivity|].
  destruct (IH (if Qltb m y then y else m)) as [H | H].
  - rewrite H. destruct (Qltb m y); [right; left; reflexivity | left; reflexivity].
  - right. right. exact H.
Qed.

Lemma py_max_spec (l : list Q) (m : Q) :
  py_max l = Ok m -> In m l /\ forall x, In x l -> (x <= m)%Q.
Proof.
  destruct l as [|y l]; simpl; [discriminate|].
  intros [= <-]. split.
  - destruct (py_max_from_in l y) as [-> | H]; [left; reflexivity | right; exact H].
  - destruct (py_max_from_ge l y) as [Hy Hall].
    intros x [<- | Hx]; [exact Hy | apply Hall, Hx].
Qed.

Lemma py_index_first (l : list Q) (m : Q) :
  In m l ->
  exists i sc,
    py_index m l = Ok i /\ l !! i = Some sc /\ (sc == m)%Q
    /\ forall j sj, (j < i)%nat -> l !! j = Some sj -> ~ (sj == m)%Q.
Proof.
  induction l as [|y l IH]; intros Hin; [destruct Hin|]. simpl.
  destruct (Qeq_bool y m) eqn:E.
  - exists 0%nat, y. repeat split; [apply Qeq_bool_iff, E|]. intros j sj Hj. lia.
  - destruct Hin as [-> | Hin].
    { rewrite (proj2 (Qeq_bool_iff m m)) in E by reflexivity. discriminate. }
    destruct (IH Hin) as (i & sc & Hi & Hsc & Heq & Hfirst).
    exists (S i), sc. rewrite Hi. cbn [result_bind]. repeat split; auto.
    intros [|j] sj Hj Hsj; simpl in Hsj.
    + injection Hsj as <-. intros Hq. apply Qeq_bool_iff in Hq. congruence.
    + apply (Hfirst j sj); [lia | exact Hsj].
Qed.

Lemma result_mapM_ok {A B} (f : A -> result B) (h : A -> B) (l : list A) :
  (forall x, f x = Ok (h x)) -> result_mapM f l = Ok (h <$> l).
Proof.
  intros Hf. induction l as [|x l IH]; simpl; [reflexivity|].
  rewrite Hf, IH. reflexivity.
Qed.

(** C3. For a non-empty candidate set whose scores are given one per
    candidate, and a fixed object pose, grasp selection computes the pose
    built from the candidate at the first position at which the score is
    maximal (every score is at most it, every earlier score is strictly
    below it) and leaves the environment as it found it, so that a repeated
    call computes the same pose.  With a GUI the call returns this pose.
    Without a GUI it does not: [__init__] has created no [pc_markers], the
    drawing of the candidates after the selection raises AttributeError and
    the selected pose is lost. *)
Theorem get_grasp_poses_from_hdf5_loses_max_headless
    (cfg : Params) (gq : GraspRow -> Quat) (gd : GraspDict)
    (env_id : nat) (st : Env) (k : Z) :
  paralleljaw_pregrasp_transform gd <> [] ->
  length (paralleljaw_pregrasp_score gd)
  = length (paralleljaw_pregrasp_transform gd) ->
  obj_chosen st !! env_id = Some k ->
  is_Some (py_norm_index (num_objs cfg) k) ->
  exists i g sc p,
    paralleljaw_pregrasp_transform gd !! i = Some g
    /\ paralleljaw_pregrasp_score gd !! i = Some sc
    /\ grasp_pose_world cfg gq st env_id g = Ok p
    /\ (forall j sj, paralleljaw_pregrasp_score gd !! j = Some sj -> (sj <= sc)%Q)
    /\ (forall j sj, (j < i)%nat ->
          paralleljaw_pregrasp_score gd !! j = Some sj -> (sj < sc)%Q)
    /\ get_grasp_poses_from_hdf5 cfg gq gd env_id st
       = (if has_gui cfg then Ok p else Raise AttributeError, st).
Proof.
  intros Hne Hlen Hk [o Ho].
  destruct gd as [cands scores]; simpl in *.
  pose (h := fun g : GraspRow =>
    combine_frame_transforms
      (v3_sub (root_pos (objs_root_state_w (sim st) o env_id))
              (root_pos (robot_root_state_w (sim st) env_id)))
      (root_quat (objs_root_state_w (sim st) o env_id))
      (grasp_pos_obj g) (Some (gq g))).
  assert (Hpose : forall g, grasp_pose_world cfg gq st env_id g = Ok (h g)).
  { intros g. unfold grasp_pose_world, get_item. rewrite Hk. cbn [result_bind].
    rewrite (get_obj_pose_ok _ _ _ _ _ Ho). reflexivity. }
  assert (Hs : scores <> []).
  { intros ->. destruct cands; [congruence | discriminate]. }
  destruct (py_max scores) as [m|e] eqn:Hmax;
    [|destruct scores; [congruence | discriminate]].
  destruct (py_max_spec _ _ Hmax) as [Hin Hle].
  destruct (py_index_first _ _ Hin) as (i & sc & Hidx & Hsc & Heq & Hfirst).
  assert (Hi : (i < length cands)%nat).
  { rewrite <- Hlen. eapply lookup_lt_Some, Hsc. }
  destruct (lookup_lt_is_Some_2 cands i Hi) as [g Hg].
  exists i, g, sc, (h g). repeat split; auto.
  - intros j sj Hj. rewrite Heq. apply Hle.
    apply list_elem_of_In, list_elem_of_lookup. eauto.
  - intros j sj Hlt Hj. rewrite Heq.
    assert (Hsj : (sj <= m)%Q).
    { apply Hle, list_elem_of_In, list_elem_of_lookup. eauto. }
    destruct (Qle_lt_or_eq _ _ Hsj) as [Hcase | Hcase]; [exact Hcase|].
    exfalso. exact (Hfirst j sj Hlt Hj Hcase).
  - unfold get_grasp_poses_from_hdf5, mbind, M_bind, get_self, lift; simpl.
    rewrite (result_mapM_ok _ h _ Hpose).
    destruct cands as [|c cands']; [congruence|]. rewrite fmap_cons.
    rewrite Hmax, Hidx. unfold get_item.
    rewrite <- fmap_cons, list_lookup_fmap, Hg. simpl.
    destruct (has_gui cfg); reflexivity.
Qed.

(** Three candidates with scores 1/2, 3/4, 3/4 in the headless
    installation: the second candidate is the first of maximal score, and
    the call ends in AttributeError instead of returning its pose. *)
Lemma get_grasp_poses_from_hdf5_loses_max_headless_witness :
  let gd := mkGraspDict [demo_grasp_low; demo_grasp; demo_grasp]
                        [1 # 2; 3 # 4; 3 # 4]%Q in
  (exists p, grasp_pose_world headless_cfg demo_grasp_quat demo_env 0 demo_grasp
             = Ok p)
  /\ get_grasp_poses_from_hdf5 headless_cfg demo_grasp_quat gd 0 demo_env
     = (Raise AttributeError, demo_env)
  /\ exists p, get_grasp_poses_from_hdf5 demo_cfg demo_grasp_quat gd 0 demo_env
               = (Ok p, demo_env).
Proof.
  intros gd.
  destruct (get_grasp_poses_from_hdf5_loses_max_headless headless_cfg
              demo_grasp_quat gd 0%nat demo_env 0)
    as (i & g & sc & p & _ & _ & _ & _ & _ & H).
  { discriminate. }
  { reflexivity. }
  { reflexivity. }
  { exists 0%nat. reflexivity. }
  destruct (get_grasp_poses_from_hdf5_loses_max_headless demo_cfg
              demo_grasp_quat gd 0%nat demo_env 0)
    as (i' & g' & sc' & p' & _ & _ & _ & _ & _ & H').
  { discriminate. }
  { reflexivity. }
  { reflexivity. }
  { exists 0%nat. reflexivity. }
  split; [eexists; reflexivity|]. split; [exact H|].
  exists p'. exact H'.
Defined.

(** C4 (amended). When the grasp library has no candidate for the chosen
    object, grasp selection raises the [RuntimeError] of stacking an empty
    list and changes nothing in the environment: no state is set, no object
    is excluded, and the exception is left to the caller. *)
Theorem get_grasp_poses_from_hdf5_no_candidates
    (cfg : Params) (gq : GraspRow -> Quat) (gd : GraspDict)
    (env_id : nat) (st : Env) :
  paralleljaw_pregrasp_transform gd = [] ->
  get_grasp_poses_from_hdf5 cfg gq gd env_id st = (Raise RuntimeError, st).
Proof.
  intros Hnil.
  unfold get_grasp_poses_from_hdf5, mbind, M_bind, get_self, lift.
  rewrite Hnil. reflexivity.
Qed.

Lemma get_grasp_poses_from_hdf5_no_candidates_witness :
  get_grasp_poses_from_hdf5 demo_cfg demo_grasp_quat (mkGraspDict [] []) 0
    (set_sm_state [3; 2] demo_env)
  = (Raise RuntimeError, set_sm_state [3; 2] demo_env).
Proof.
  apply (get_grasp_poses_from_hdf5_no_candidates demo_cfg demo_grasp_quat
           (mkGraspDict [] []) 0%nat (set_sm_state [3; 2] demo_env)).
  reflexivity.
Defined.

(** C4 (as stated, refuted). World 0 has chosen object 0 and is in
    [choose_object]; the library has no candidate.  The call ends in a
    [RuntimeError], not in [NoCandidatesError]; world 0 is still in
    [choose_object], not in [start], and object 0 is still its choice. *)
Lemma no_candidates_is_not_handled :
  let r := get_grasp_poses_from_hdf5 demo_cfg demo_grasp_quat
             (mkGraspDict [] []) 0 (set_sm_state [3; 2] demo_env) in
  fst r = Raise (Exn "RuntimeError")
  /\ fst r <> Raise (Exn "NoCandidatesError")
  /\ sm_state (snd r) !! 0%nat = Some (STATE_MACHINE demo_cfg "choose_object")
  /\ sm_state (snd r) !! 0%nat <> Some (STATE_MACHINE demo_cfg "start")
  /\ obj_chosen (snd r) !! 0%nat = Some 0.
Proof.
  vm_compute. repeat split; try reflexivity; discriminate.
Qed.

(** ** Recording rewards *)

Ltac m_unfold :=
  unfold mbind, M_bind, mret, M_ret, get_self, lift, modify, emit, raise.

Lemma py_norm_index_nonneg (n : nat) (i : Z) :
  0 <= i < Z.of_nat n -> py_norm_index n i = Some (Z.to_nat i).
Proof.
  intros H. unfold py_norm_index.
  destruct (Z.leb_spec 0 i); [|lia]. destruct (Z.ltb_spec i (Z.of_nat n)); [|lia].
  reflexivity.
Qed.

Lemma py_locate_nonneg {A} (l : list A) (i : Z) (x : A) :
  0 <= i -> l !! Z.to_nat i = Some x -> py_locate l i = Ok (Z.to_nat i, x).
Proof.
  intros Hi Hx. unfold py_locate.
  rewrite py_norm_index_nonneg, Hx; [reflexivity|].
  apply lookup_lt_Some in Hx. lia.
Qed.


(** What one successful turn of the loop does to the environment. *)
Lemma record_one_success (cfg : Params) (judge : list bool) (i : nat) (r0 r : Q)
    (st : Env) (e s : Z) (W : list (list Q)) (row : list Q) (x : Q) (k : Z) :
  Qtruthy r0 = true -> judge !! i = Some true ->
  epi_step_count st !! i = Some (e, s) ->
  reward_buf st !! i = Some r ->
  reward_recorder st !! i = Some W ->
  0 <= e -> W !! Z.to_nat e = Some row ->
  0 <= s -> row !! Z.to_nat s = Some x ->
  obj_chosen st !! i = Some k -> scene_has_obj cfg k = true ->
  (i < length (sm_state st))%nat ->
  exists st' total,
    record_one cfg judge i r0 st = (Ok tt, st')
    /\ epi_step_count st' = epi_step_count st
    /\ reward_buf st' = reward_buf st
    /\ sim st'
       = write_root_state_to_sim cfg k i (drop_root_state cfg (sim st) i) (sim st)
    /\ length (sm_state st') = length (sm_state st)
    /\ (forall j, j <> i -> untouched st st' j)
    /\ effects st'
       = effects st
         ++ [WriteRootState k i (v3_add (obj_drop_pose cfg) (env_origins (sim st) i));
             PrintSuccess i e s total]
    /\ ledger_cell (reward_recorder st') i e s = Some (x + r)%Q
    /\ obj_chosen st' !! i = Some (-1)
    /\ sm_state st' !! i = Some (STATE_MACHINE cfg "init")
    /\ reward_recorder st'
       = <[ i := <[ Z.to_nat e := <[ Z.to_nat s := (x + r)%Q ]> row ]> W ]>
           (reward_recorder st).
Proof.
  intros Hr Hj He Hb HW He0 Hrow Hs0 Hx Hk Hobj Hi.
  pose proof (lookup_lt_Some _ _ _ HW) as HiL.
  pose proof (lookup_lt_Some _ _ _ Hrow) as HeL.
  pose proof (lookup_lt_Some _ _ _ Hx) as HsL.
  pose proof (lookup_lt_Some _ _ _ Hk) as HiC.
  eexists _, _. split.
  - unfold record_one. rewrite Hr. m_unfold. unfold get_item. rewrite Hj, He.
    cbn. rewrite Hb.
    unfold ledger_add, get_item. rewrite HW. cbn [result_bind].
    rewrite (py_locate_nonneg _ _ _ He0 Hrow). cbn [result_bind].
    rewrite (py_locate_nonneg _ _ _ Hs0 Hx). cbn [result_bind].
    rewrite Hk, Hobj.
    unfold episode_total, get_item, py_get.
    rewrite list_lookup_insert_eq by exact HiL.
    cbn [result_bind].
    erewrite py_locate_nonneg;
      [| exact He0 | apply list_lookup_insert_eq; exact HeL].
    cbn [result_bind snd].
    unfold set_item.
    destruct (decide (i < length (sm_state st))%nat) as [_|]; [|contradiction].
    destruct (decide (i < length (obj_chosen st))%nat) as [_|]; [|contradiction].
    reflexivity.
  - cbn. repeat split.
    + apply length_insert.
    + cbn. apply list_lookup_insert_ne. congruence.
    + cbn. apply list_lookup_insert_ne. congruence.
    + cbn. apply list_lookup_insert_ne. congruence.
    + rewrite <- app_assoc. reflexivity.
    + unfold ledger_cell.
      rewrite list_lookup_insert_eq by exact HiL.
      rewrite list_lookup_insert_eq by exact HeL.
      apply list_lookup_insert_eq. exact HsL.
    + apply list_lookup_insert_eq. exact HiC.
    + apply list_lookup_insert_eq. exact Hi.
Qed.

(** A turn of the loop for a world without success changes nothing. *)
Lemma record_one_skip (cfg : Params) (judge : list bool) (i : nat) (r0 : Q)
    (st : Env) (j : bool) :
  judge !! i = Some j -> Qtruthy r0 && j = false ->
  record_one cfg judge i r0 st = (Ok tt, st).
Proof.
  intros Hj Hf. unfold record_one.
  destruct (Qtruthy r0); [|reflexivity].
  m_unfold. unfold get_item. rewrite Hj. simpl in Hf. subst j. reflexivity.
Qed.

Lemma untouched_refl (st : Env) (i : nat) : untouched st st i.
Proof. repeat split. Qed.

Lemma untouched_trans (a b c : Env) (i : nat) :
  untouched a b i -> untouched b c i -> untouched a c i.
Proof.
  intros (H1 & H2 & H3) (K1 & K2 & K3). repeat split; congruence.
Qed.

Lemma ledger_cell_untouched (a b : Env) (i : nat) (e s : Z) :
  untouched a b i ->
  ledger_cell (reward_recorder b) i e s = ledger_cell (reward_recorder a) i e s.
Proof. intros (_ & _ & H). unfold ledger_cell. now rewrite H. Qed.

Lemma for_each_app {A} (body : A -> M unit) (l1 l2 : list A) (st : Env) :
  for_each body (l1 ++ l2) st
  = match for_each body l1 st with
    | (Ok _, st') => for_each body l2 st'
    | (Raise e, st') => (Raise e, st')
    end.
Proof.
  revert st. induction l1 as [|x l1 IH]; intros st; [reflexivity|].
  cbn [app for_each]. unfold mbind, M_bind.
  destruct (body x st) as [[[]|e] st1]; [apply IH | reflexivity].
Qed.

Lemma for_each_skip {A} (body : A -> M unit) (l : list A) (st : Env) :
  (forall x, x ∈ l -> body x st = (Ok tt, st)) ->
  for_each body l st = (Ok tt, st).
Proof.
  induction l as [|x l IH]; intros Hl; [reflexivity|].
  cbn [for_each]. unfold mbind, M_bind at 1.
  rewrite (Hl x (list_elem_of_here _ _)).
  apply IH. intros y Hy. apply Hl, list_elem_of_further, Hy.
Qed.

Lemma record_one_no_success (cfg : Params) (judge : list bool) (i : nat)
    (r : Q) (st : Env) :
  Qtruthy r = false \/ judge !! i = Some false ->
  record_one cfg judge i r st = (Ok tt, st).
Proof.
  intros [Hr | Hj]; unfold record_one.
  - now rewrite Hr.
  - destruct (Qtruthy r); [|reflexivity].
    m_unfold. unfold get_item. now rewrite Hj.
Qed.

(** Relocating an object of world [i] moves nothing of another world, and
    nothing but objects. *)
Lemma write_root_state_frame (cfg : Params) (k : Z) (i : nat) (root : RootState)
    (s : Sim) :
  robot_root_state_w (write_root_state_to_sim cfg k i root s) = robot_root_state_w s
  /\ env_origins (write_root_state_to_sim cfg k i root s) = env_origins s
  /\ joint_pos (write_root_state_to_sim cfg k i root s) = joint_pos s
  /\ joint_vel (write_root_state_to_sim cfg k i root s) = joint_vel s
  /\ (forall o j, j <> i ->
        objs_root_state_w (write_root_state_to_sim cfg k i root s) o j
        = objs_root_state_w s o j).
Proof.
  unfold write_root_state_to_sim.
  destruct (String.eqb _ _ && _ && _); repeat split.
  intros o j Hj. cbn. unfold fn_set2.
  destruct (decide _) as [[_ ->]|]; [contradiction | reflexivity].
Qed.

Lemma write_root_state_at (cfg : Params) (k : Z) (i : nat) (root : RootState)
    (s : Sim) :
  object_name cfg = "obj" -> 0 <= k < Z.of_nat (num_objs cfg) ->
  objs_root_state_w (write_root_state_to_sim cfg k i root s) (Z.to_nat k) i = root.
Proof.
  intros Hn [Hk0 Hk1]. unfold write_root_state_to_sim.
  rewrite Hn. cbn [String.eqb Ascii.eqb Bool.eqb andb].
  destruct (Z.leb_spec 0 k); [|lia]. destruct (Z.ltb_spec k (Z.of_nat (num_objs cfg))); [|lia].
  cbn. unfold fn_set2. destruct (decide _) as [|[]]; [reflexivity | split; reflexivity].
Qed.

Lemma frame_at_refl (i : nat) (st : Env) : frame_at i st st.
Proof.
  repeat split. exists []. split; [symmetry; apply app_nil_r | constructor].
Qed.

Lemma frame_at_trans (i : nat) (a b c : Env) :
  frame_at i a b -> frame_at i b c -> frame_at i a c.
Proof.
  intros (U1 & O1 & E1 & R1 & G1 & L1 & n1 & F1 & N1)
         (U2 & O2 & E2 & R2 & G2 & L2 & n2 & F2 & N2).
  split; [eapply untouched_trans; eassumption|].
  split; [intros o; now rewrite O2, O1|].
  do 4 (split; [congruence|]).
  exists (n1 ++ n2). split.
  - rewrite F2, F1. symmetry. apply app_assoc.
  - apply Forall_app. split; assumption.
Qed.

Lemma ledger_add_other (L L' : list (list (list Q))) (i j : nat) (e s : Z) (v : Q) :
  ledger_add L i e s v = Ok L' -> j <> i -> L' !! j = L !! j.
Proof.
  unfold ledger_add, get_item. intros H Hj.
  destruct (L !! i); [|discriminate]. cbn [result_bind] in H.
  destruct (py_locate l e) as [[e' row]|]; [|discriminate]. cbn [result_bind] in H.
  destruct (py_locate row s) as [[s' x]|]; [|discriminate]. cbn [result_bind] in H.
  injection H as <-. apply list_lookup_insert_ne. congruence.
Qed.

(** A turn of the loop for a world without success changes nothing, on any
    path. *)
Lemma record_one_unsuccessful (cfg : Params) (judge : list bool) (i : nat)
    (r : Q) (st : Env) :
  Qtruthy r = false \/ judge !! i <> Some true ->
  snd (record_one cfg judge i r st) = st.
Proof.
  intros H. unfold record_one.
  destruct (Qtruthy r); [|reflexivity].
  destruct H as [H|H]; [discriminate|].
  m_unfold. unfold get_item.
  destruct (judge !! i) as [[]|]; [contradiction | reflexivity | reflexivity].
Qed.

(** The turn of world [i] leaves every other world [j] alone, however it
    ends. *)
Lemma record_one_frame_at (cfg : Params) (judge : list bool) (i : nat) (r : Q)
    (st : Env) (j : nat) :
  j <> i -> frame_at j st (snd (record_one cfg judge i r st)).
Proof.
  intros Hj. unfold record_one.
  destruct (Qtruthy r); [|apply frame_at_refl].
  m_unfold. unfold get_item.
  destruct (judge !! i) as [[]|]; cbn; try apply frame_at_refl.
  destruct (epi_step_count st !! i) as [[e s]|]; cbn; [|apply frame_at_refl].
  destruct (reward_buf st !! i) as [rb|]; cbn; [|apply frame_at_refl].
  destruct (ledger_add (reward_recorder st) i e s rb) as [L|] eqn:HL;
    cbn; [|apply frame_at_refl].
  pose proof (ledger_add_other _ _ _ j _ _ _ HL Hj) as HLj.
  assert (F1 : frame_at j st (set_reward_recorder L st)).
  { repeat split; [exact HLj|]. exists []. split; [symmetry; apply app_nil_r | constructor]. }
  destruct (obj_chosen st !! i) as [k|]; cbn; [|exact F1].
  destruct (scene_has_obj cfg k); cbn; [|exact F1].
  destruct (write_root_state_frame cfg k i (drop_root_state cfg (sim st) i) (sim st))
    as (W1 & W2 & W3 & W4 & W5).
  assert (Hw : ~ In j (effect_ids (WriteRootState k i
              (v3_add (obj_drop_pose cfg) (env_origins (sim st) i))))).
  { cbn. intros [->|[]]. contradiction. }
  destruct (episode_total L i e) as [total|]; cbn.
  2:{ repeat split; cbn; try assumption.
      - intros o. apply W5, Hj.
      - eexists. split; [reflexivity|]. repeat constructor. exact Hw. }
  assert (Hp : ~ In j (effect_ids (PrintSuccess i e s total))).
  { cbn. intros [->|[]]. contradiction. }
  unfold set_item.
  destruct (decide (i < length (sm_state st))%nat); cbn.
  2:{ repeat split; cbn; try assumption.
      - intros o. apply W5, Hj.
      - eexists. split; [rewrite <- app_assoc; reflexivity|].
        repeat constructor; assumption. }
  destruct (decide (i < length (obj_chosen st))%nat); cbn.
  - repeat split; cbn; try assumption.
    + apply list_lookup_insert_ne. congruence.
    + apply list_lookup_insert_ne. congruence.
    + intros o. apply W5, Hj.
    + apply length_insert.
    + eexists. split; [rewrite <- app_assoc; reflexivity|].
      repeat constructor; assumption.
  - repeat split; cbn; try assumption.
    + apply list_lookup_insert_ne. congruence.
    + intros o. apply W5, Hj.
    + apply length_insert.
    + eexists. split; [rewrite <- app_assoc; reflexivity|].
      repeat constructor; assumption.
Qed.

(** The loop over [items] leaves world [j] alone when no item is a success of
    [j], however the loop ends. *)
Lemma loop_frame_at (cfg : Params) (judge : list bool) (j : nat) :
  forall (items : list (nat * Q)) (st : Env),
    (forall r, (j, r) ∈ items -> Qtruthy r = false \/ judge !! j <> Some true) ->
    frame_at j st
      (snd (for_each (fun '(i, r) => record_one cfg judge i r) items st)).
Proof.
  induction items as [|[i r] items IH]; intros st Hall; [apply frame_at_refl|].
  cbn [for_each]. unfold mbind, M_bind.
  assert (F : frame_at j st (snd (record_one cfg judge i r st))).
  { destruct (decide (j = i)) as [->|Hne].
    - rewrite record_one_unsuccessful; [apply frame_at_refl|].
      apply Hall, list_elem_of_here.
    - apply record_one_frame_at, Hne. }
  destruct (record_one cfg judge i r st) as [[[]|ex] st1]; [|exact F].
  eapply frame_at_trans; [exact F|].
  apply IH. intros r' Hin. apply Hall, list_elem_of_further, Hin.
Qed.

Lemma recordable_frame (cfg : Params) (a b : Env) (i : nat) :
  frame_at i a b -> recordable cfg a i -> recordable cfg b i.
Proof.
  intros ((U1 & U2 & U3) & _ & E & _ & _ & Hlen & _)
         (e & s & W & row & x & k & H).
  exists e, s, W, row, x, k. rewrite E, U2, U3, Hlen. exact H.
Qed.

Lemma succeeded_frame (a b : Env) (judge : list bool) (i j : nat) :
  frame_at j a b -> succeeded b judge i = succeeded a judge i.
Proof.
  intros (_ & _ & _ & R & _). unfold succeeded. now rewrite R.
Qed.

Lemma imap_pair_fst {A} (l : list A) : (imap pair l).*1 = seq 0 (length l).
Proof.
  rewrite fmap_imap.
  rewrite (imap_ext _ (fun j _ => j)) by (intros; reflexivity).
  rewrite (imap_seq_0 l (fun j => j)). apply list_fmap_id.
Qed.

Lemma recordable_of_shape (cfg : Params) (n : nat) (st : Env) (i : nat) :
  wf_env cfg n st -> (i < n)%nat ->
  in_capacity cfg st i -> has_choice cfg st i -> recordable cfg st i.
Proof.
  intros (Hsm & Hep & Hrb & Hoc & HL & Hshape) Hi (e & s & Hes & He & Hs)
         (k & Hk & Hobj).
  destruct (lookup_lt_is_Some_2 (reward_recorder st) i) as [W HW]; [lia|].
  destruct (proj1 (Forall_lookup _ _) Hshape i W HW) as [HlenW Hrows].
  destruct (lookup_lt_is_Some_2 W (Z.to_nat e)) as [row Hrow]; [lia|].
  pose proof (proj1 (Forall_lookup _ _) Hrows _ row Hrow) as Hlenrow.
  simpl in Hlenrow.
  destruct (lookup_lt_is_Some_2 row (Z.to_nat s)) as [x Hx]; [lia|].
  exists e, s, W, row, x, k. repeat split; try assumption; lia.
Qed.

(** The turn of a world whose success can be recorded credits it. *)
Lemma record_one_credits (cfg : Params) (judge : list bool) (i : nat) (r : Q)
    (st : Env) :
  reward_buf st !! i = Some r -> succeeded st judge i = true ->
  recordable cfg st i ->
  exists st', record_one cfg judge i r st = (Ok tt, st')
              /\ credited cfg st st' i.
Proof.
  intros Hb Hs (e & s & W & row & x & k & He & HW & He0 & Hrow & Hs0 & Hx & Hk
                & Hobj & Hi).
  unfold succeeded in Hs. rewrite Hb in Hs.
  apply andb_prop in Hs as [Hr Hj].
  assert (Hj' : judge !! i = Some true).
  { destruct (judge !! i) as [[]|]; [reflexivity | discriminate | discriminate]. }
  destruct (record_one_success cfg judge i r r st e s W row x k)
    as (st' & total & Hone & _ & _ & Hsim & _ & _ & Heff & Hcell & Hoc & Hsm & _);
    try assumption.
  exists st'. split; [exact Hone|].
  exists e, s, r, k, x. repeat split; try assumption.
  - unfold ledger_cell. rewrite HW. cbn. rewrite Hrow. cbn. exact Hx.
  - exists total. rewrite Heff. apply in_or_app. right. right. left. reflexivity.
  - rewrite Heff. apply in_or_app. right. left. reflexivity.
  - intros Hn Hk01. rewrite Hsim. apply write_root_state_at; assumption.
Qed.

(** The loop ends normally when every success among its items can be
    recorded. *)
Lemma loop_ok (cfg : Params) (judge : list bool) :
  forall (items : list (nat * Q)) (st : Env),
    NoDup items.*1 ->
    (forall i r, (i, r) ∈ items ->
       reward_buf st !! i = Some r /\ (i < length judge)%nat
       /\ (succeeded st judge i = true -> recordable cfg st i)) ->
    fst (for_each (fun '(i, r) => record_one cfg judge i r) items st) = Ok tt.
Proof.
  induction items as [|[i r] items IH]; intros st Hnd Hall; [reflexivity|].
  cbn [for_each]. unfold mbind, M_bind.
  apply NoDup_cons in Hnd as [Hni Hnd].
  destruct (Hall i r (list_elem_of_here _ _)) as (Hb & Hlt & Hrec).
  assert (Hone : exists st1, record_one cfg judge i r st = (Ok tt, st1)
                 /\ forall j, j <> i -> frame_at j st st1).
  { destruct (succeeded st judge i) eqn:Hs.
    - destruct (record_one_credits cfg judge i r st Hb Hs (Hrec eq_refl))
        as (st1 & H1 & _).
      exists st1. split; [exact H1|]. intros j Hj.
      pose proof (record_one_frame_at cfg judge i r st j Hj) as F.
      rewrite H1 in F. exact F.
    - exists st. split; [|intros; apply frame_at_refl].
      unfold succeeded in Hs. rewrite Hb in Hs.
      destruct (lookup_lt_is_Some_2 judge i Hlt) as [b Hjb].
      apply (record_one_skip cfg judge i r st b Hjb).
      rewrite Hjb in Hs. exact Hs. }
  destruct Hone as (st1 & -> & Hfr).
  apply IH; [exact Hnd|].
  intros i' r' Hin.
  assert (Hne : i' <> i).
  { intros ->. apply Hni. apply list_elem_of_fmap. exists (i, r'). split; [reflexivity | exact Hin]. }
  destruct (Hall i' r' (list_elem_of_further _ _ _ Hin)) as (Hb' & Hlt' & Hrec').
  pose proof (Hfr i' Hne) as F.
  pose proof F as (_ & _ & _ & R & _).
  repeat split; [now rewrite R | exact Hlt' |].
  rewrite (succeeded_frame _ _ _ _ _ F). intros Hs.
  apply (recordable_frame cfg st st1 i' F), Hrec', Hs.
Qed.

(** C6 (amended). Let [judge_reward] hold an entry per world of a well-formed
    environment.  A world whose reward is non-zero and whose
    [judge_reward[i]] holds is credited when it and every such world of a
    lower index has its episode and step index inside the table and a chosen
    object that exists: the cell at the world's episode and step index grows
    by the world's reward [reward_buf[i]], the success line and the
    relocation of the chosen object to the drop pose are issued, the object's
    root state is the drop state, the choice is cleared to -1 and the state
    is [init]; and this holds also when the call raises at a later world.  A
    world without such a success keeps its state, its choice, its ledger
    block and its objects, and no effect names it, however the call ends.
    The call ends normally when every successful world meets the two
    conditions, and it never changes the episode and step counters. *)
Theorem record_reward_outcomes
    (cfg : Params) (judge_reward : list bool) (st : Env) (n : nat) :
  wf_env cfg n st ->
  length judge_reward = n ->
  (forall i, (i < n)%nat ->
     succeeded st judge_reward i = true ->
     (forall j, (j <= i)%nat -> succeeded st judge_reward j = true ->
                in_capacity cfg st j /\ has_choice cfg st j) ->
     credited cfg st (snd (_record_reward cfg judge_reward st)) i)
  /\ (forall i, succeeded st judge_reward i = false ->
        untouched st (snd (_record_reward cfg judge_reward st)) i
        /\ (forall o, objs_root_state_w
                        (sim (snd (_record_reward cfg judge_reward st))) o i
                      = objs_root_state_w (sim st) o i)
        /\ exists new,
             effects (snd (_record_reward cfg judge_reward st))
             = effects st ++ new
             /\ Forall (fun eff => ~ In i (effect_ids eff)) new)
  /\ ((forall j, succeeded st judge_reward j = true ->
                 in_capacity cfg st j /\ has_choice cfg st j) ->
      fst (_record_reward cfg judge_reward st) = Ok tt)
  /\ epi_step_count (snd (_record_reward cfg judge_reward st))
     = epi_step_count st.
Proof.
  intros Hwf Hjudge.
  pose proof Hwf as (Hsm & Hep & Hrb & Hoc & HL).
  assert (Hlt : forall i, succeeded st judge_reward i = true -> (i < n)%nat).
  { intros i Hs. unfold succeeded in Hs.
    destruct (reward_buf st !! i) eqn:E; [|discriminate].
    apply lookup_lt_Some in E. lia. }
  assert (Hunsucc : forall i r, succeeded st judge_reward i = false ->
            (i, r) ∈ imap pair (reward_buf st) ->
            Qtruthy r = false \/ judge_reward !! i <> Some true).
  { intros i r Hs Hin.
    apply elem_of_lookup_imap in Hin as (i' & r' & [= <- <-] & Hl).
    unfold succeeded in Hs. rewrite Hl in Hs.
    destruct (Qtruthy r); [right | left; reflexivity].
    destruct (judge_reward !! i) as [[]|]; [discriminate | congruence | congruence]. }
  unfold _record_reward. m_unfold.
  split; [|split; [|split]].
  - intros i Hi Hs Hpre.
    destruct (lookup_lt_is_Some_2 (reward_buf st) i) as [r Hr]; [lia|].
    rewrite <- (take_drop_middle _ _ _ Hr).
    rewrite imap_app, for_each_app.
    assert (Hlen : length (take i (reward_buf st)) = i).
    { rewrite length_take. lia. }
    pose proof (loop_ok cfg judge_reward (imap pair (take i (reward_buf st))) st)
      as Hok.
    pose proof (loop_frame_at cfg judge_reward i
                  (imap pair (take i (reward_buf st))) st) as Hfr.
    destruct (for_each _ (imap pair (take i (reward_buf st))) st)
      as [res st1].
    cbn [fst snd] in Hok, Hfr.
    rewrite Hok; cycle 1.
    { rewrite imap_pair_fst. apply NoDup_seq. }
    { intros j rj Hin.
      apply elem_of_lookup_imap in Hin as (j' & r' & [= <- <-] & Hl).
      apply lookup_take_Some in Hl as [Hl Hji].
      repeat split; [exact Hl | lia |].
      intros Hsj. destruct (Hpre j ltac:(lia) Hsj).
      apply (recordable_of_shape cfg n); try assumption. lia. }
    assert (F1 : frame_at i st st1).
    { apply Hfr. intros r' Hin.
      apply elem_of_lookup_imap in Hin as (j' & r'' & [= <- <-] & Hl).
      apply lookup_take_Some in Hl as [_ Hji]. lia. }
    clear Hok Hfr.
    cbn [imap for_each]. unfold mbind, M_bind. rewrite Hlen, Nat.add_0_r.
    assert (Hrec : recordable cfg st1 i).
    { apply (recordable_frame cfg st st1 i F1).
      destruct (Hpre i ltac:(lia) Hs).
      apply (recordable_of_shape cfg n); assumption. }
    pose proof F1 as (U1 & O1 & E1 & R1 & G1 & _).
    destruct (record_one_credits cfg judge_reward i r st1) as (st2 & -> & Hcr).
    { now rewrite R1. }
    { now rewrite (succeeded_frame _ _ _ _ _ F1). }
    { exact Hrec. }
    match goal with
    | |- credited _ _ (snd (for_each ?b ?items st2)) _ =>
        pose proof (loop_frame_at cfg judge_reward i items st2) as F3
    end.
    match type of F3 with
    | ?P -> _ => assert (Hvac : P)
    end.
    { intros r' Hin.
      apply elem_of_lookup_imap in Hin as (j' & r'' & Heq & _).
      unfold compose in Heq. injection Heq as Heq _. lia. }
    specialize (F3 Hvac).
    destruct F3 as ((V1 & V2 & V3) & P3 & _ & _ & _ & _ & new & Hnew & _).
    destruct Hcr as (e & s & r0 & k & x & C1 & C2 & C3 & C4 & C5 & [total C6]
                     & C7 & C8 & C9 & C10).
    destruct U1 as (U1 & U2 & U3).
    exists e, s, r0, k, x.
    split; [now rewrite <- E1|]. split; [now rewrite <- R1|].
    split; [now rewrite <- U2|].
    split; [unfold ledger_cell in *; now rewrite <- U3|].
    split; [unfold ledger_cell in *; now rewrite V3|].
    split; [exists total; rewrite Hnew; apply in_or_app; left; exact C6|].
    split; [rewrite Hnew; apply in_or_app; left; rewrite <- G1; exact C7|].
    split.
    { intros Hn Hk. rewrite P3, (C8 Hn Hk).
      unfold drop_root_state. now rewrite G1. }
    split; [now rewrite V2 | now rewrite V1].
  - intros i Hs.
    pose proof (loop_frame_at cfg judge_reward i (imap pair (reward_buf st)) st
                  (fun r => Hunsucc i r Hs)) as (U & O & _ & _ & _ & _ & Hnew).
    repeat split; try apply U; assumption.
  - intros Hpre. apply loop_ok.
    + rewrite imap_pair_fst. apply NoDup_seq.
    + intros i r Hin.
      apply elem_of_lookup_imap in Hin as (i' & r' & [= <- <-] & Hl).
      pose proof (lookup_lt_Some _ _ _ Hl).
      repeat split; [exact Hl | lia |].
      intros Hs. destruct (Hpre i Hs).
      apply (recordable_of_shape cfg n); try assumption. lia.
  - pose proof (loop_frame_at cfg judge_reward n (imap pair (reward_buf st)) st)
      as F.
    destruct F as (_ & _ & E & _); [|exact E].
    intros r Hin.
    apply elem_of_lookup_imap in Hin as (i' & r' & [= <- <-] & Hl).
    apply lookup_lt_Some in Hl. lia.
Qed.

Lemma demo_env_wf : wf_env demo_cfg 2 demo_env.
Proof.
  repeat split.
  apply Forall_replicate. split; [reflexivity|].
  apply Forall_replicate. reflexivity.
Qed.

(** Both worlds of [st] succeed, but world 1 has no chosen object: the call
    raises at world 1 and world 0 is credited all the same.  In the demo
    environment world 1 has no reward: it is left alone and the call ends
    normally. *)
Lemma record_reward_outcomes_witness :
  let st := set_reward_buf [1 # 1; 1 # 1]%Q (set_obj_chosen [0; -1] demo_env) in
  fst (_record_reward demo_cfg [true; true] st) = Raise KeyError
  /\ credited demo_cfg st (snd (_record_reward demo_cfg [true; true] st)) 0
  /\ untouched demo_env (snd (_record_reward demo_cfg [true; true] demo_env)) 1
  /\ fst (_record_reward demo_cfg [true; true] demo_env) = Ok tt.
Proof.
  intros st. split; [reflexivity|].
  assert (Hwf : wf_env demo_cfg 2 st).
  { repeat split.
    apply Forall_replicate. split; [reflexivity|].
    apply Forall_replicate. reflexivity. }
  destruct (record_reward_outcomes demo_cfg [true; true] st 2 Hwf eq_refl)
    as (Hcred & _).
  destruct (record_reward_outcomes demo_cfg [true; true] demo_env 2
              demo_env_wf eq_refl) as (_ & Hun & Hok & _).
  split; [|split].
  - apply Hcred; [lia | reflexivity |].
    intros [|j] Hj Hs; [|lia].
    split; [exists 0, 0 | exists 0]; repeat split; lia.
  - apply Hun. reflexivity.
  - apply Hok. intros [|[|j]] Hs; try discriminate Hs.
    split; [exists 0, 0 | exists 0]; repeat split; lia.
Defined.

(** C6 (as stated, refuted).  Both worlds are in [lift] (code 6).  World 1
    has no reward: after [_record_reward] it is still in [lift], not in
    [init].  World 0 succeeds with a reward of 1/50: its cell grows by 1/50,
    not by one. *)
Lemma failure_is_not_forced_to_init :
  let st := set_reward_buf [1 # 50; 0 # 1]%Q (set_sm_state [6; 6] demo_env) in
  let r := _record_reward demo_cfg [true; true] st in
  fst r = Ok tt
  /\ succeeded st [true; true] 1 = false
  /\ sm_state (snd r) !! 1%nat = Some 6
  /\ sm_state (snd r) !! 1%nat <> Some (STATE_MACHINE demo_cfg "init")
  /\ sm_state (snd r) !! 0%nat = Some (STATE_MACHINE demo_cfg "init")
  /\ ledger_cell (reward_recorder st) 0 0 0 = Some (0 # 1)%Q
  /\ ledger_cell (reward_recorder (snd r)) 0 0 0 = Some (0 + (1 # 50))%Q
  /\ ~ (0 + (1 # 50) == 0 + 1)%Q.
Proof.
  vm_compute. repeat split; try reflexivity; discriminate.
Qed.

(** ** Capacity of the ledger *)

Lemma py_norm_index_high (n : nat) (i : Z) :
  Z.of_nat n <= i -> py_norm_index n i = None.
Proof.
  intros H. unfold py_norm_index.
  destruct (Z.ltb_spec i (Z.of_nat n)); [lia|]. rewrite andb_false_r.
  destruct (Z.ltb_spec i 0); [lia|]. now rewrite andb_false_r.
Qed.

Lemma py_locate_high {A} (l : list A) (i : Z) :
  Z.of_nat (length l) <= i -> py_locate l i = Raise IndexError.
Proof. intros H. unfold py_locate. now rewrite py_norm_index_high. Qed.

Lemma init_env_ledger_shape (cfg : Params) (n : nat) (s : Sim)
    (jp jv : list (list Q)) (cnt : Z) :
  ledger_shape cfg n (reward_recorder (init_env cfg n s jp jv cnt)).
Proof.
  unfold init_env, ledger_shape. cbn [reward_recorder].
  split; [apply length_replicate|].
  apply Forall_replicate. split; [apply length_replicate|].
  apply Forall_replicate, length_replicate.
Qed.

(** C10. The ledger is created with 100 episodes of [step_total] steps for
    each world and keeps that shape.  For a successful world whose counters
    are not negative, the write of [_record_reward] lands in the table when
    the episode index is below 100 and the step index below [step_total];
    when either bound is reached nothing guards the write and it raises
    [IndexError], leaving the environment as it was. *)
Theorem ledger_write_needs_capacity
    (cfg : Params) (n : nat) (judge_reward : list bool) (i : nat) (r : Q)
    (st : Env) (e s : Z) :
  wf_env cfg n st ->
  Qtruthy r = true -> judge_reward !! i = Some true ->
  reward_buf st !! i = Some r ->
  epi_step_count st !! i = Some (e, s) ->
  0 <= e -> 0 <= s ->
  has_choice cfg st i ->
  (forall sim0 jp jv cnt,
      ledger_shape cfg n (reward_recorder (init_env cfg n sim0 jp jv cnt)))
  /\ (e < 100 /\ s < Z.of_nat (step_total cfg) ->
      exists st' x,
        record_one cfg judge_reward i r st = (Ok tt, st')
        /\ ledger_shape cfg n (reward_recorder st')
        /\ ledger_cell (reward_recorder st) i e s = Some x
        /\ ledger_cell (reward_recorder st') i e s = Some (x + r)%Q)
  /\ (100 <= e \/ Z.of_nat (step_total cfg) <= s ->
      record_one cfg judge_reward i r st = (Raise IndexError, st)).
Proof.
  intros Hwf Hr Hj Hb Hes He0 Hs0 Hch.
  pose proof Hwf as (Hsm & Hep & Hrb & Hoc & HL & Hshape).
  pose proof (lookup_lt_Some _ _ _ Hb) as Hi.
  destruct (lookup_lt_is_Some_2 (reward_recorder st) i) as [W HW]; [lia|].
  destruct (proj1 (Forall_lookup _ _) Hshape i W HW) as [HlenW Hrows].
  split; [|split].
  - intros. apply init_env_ledger_shape.
  - intros [He Hs].
    destruct (recordable_of_shape cfg n st i Hwf) as
      (e' & s' & W' & row & x & k & Hes' & HW' & _ & Hrow & _ & Hx & Hk & Hobj & Hlt);
      [lia | exists e, s; repeat split; assumption | exact Hch |].
    rewrite Hes in Hes'. injection Hes' as <- <-.
    rewrite HW in HW'. injection HW' as <-.
    destruct (record_one_success cfg judge_reward i r r st e s W row x k)
      as (st' & total & Hone & _ & _ & _ & _ & _ & _ & Hcell & _ & _ & HL');
      try assumption.
    exists st', x. split; [exact Hone|]. split; [|split; [|exact Hcell]].
    + rewrite HL'. split; [rewrite length_insert; exact HL|].
      apply Forall_insert; [exact Hshape|]. split.
      * rewrite length_insert. exact HlenW.
      * apply Forall_insert; [exact Hrows|]. rewrite length_insert.
        exact (proj1 (Forall_lookup _ _) Hrows _ row Hrow).
    + unfold ledger_cell. rewrite HW, Hrow. exact Hx.
  - intros Hout.
    unfold record_one. rewrite Hr. m_unfold. unfold get_item. rewrite Hj, Hes.
    cbn. rewrite Hb. unfold ledger_add, get_item. rewrite HW. cbn [result_bind].
    destruct (Z_lt_le_dec e 100) as [He | He].
    + destruct Hout as [Hout | Hout]; [lia|].
      destruct (lookup_lt_is_Some_2 W (Z.to_nat e)) as [row Hrow]; [lia|].
      rewrite (py_locate_nonneg _ _ _ He0 Hrow). cbn [result_bind].
      rewrite py_locate_high; [reflexivity|].
      rewrite (proj1 (Forall_lookup _ _) Hrows _ row Hrow). exact Hout.
    + rewrite py_locate_high; [reflexivity|]. rewrite HlenW. exact He.
Qed.

Lemma ledger_write_needs_capacity_witness :
  (exists st' x,
     record_one demo_cfg [true; true] 0 (1 # 1) demo_env = (Ok tt, st')
     /\ ledger_shape demo_cfg 2 (reward_recorder st')
     /\ ledger_cell (reward_recorder demo_env) 0 0 0 = Some x
     /\ ledger_cell (reward_recorder st') 0 0 0 = Some (x + (1 # 1))%Q)
  /\ record_one demo_cfg [true; true] 0 (1 # 1)
       (set_epi_step_count [(100, 0); (0, 0)] demo_env)
     = (Raise IndexError, set_epi_step_count [(100, 0); (0, 0)] demo_env).
Proof.
  split.
  - apply (proj1 (proj2 (ledger_write_needs_capacity demo_cfg 2 [true; true]
                           0%nat (1 # 1)%Q demo_env 0 0 demo_env_wf
                           eq_refl eq_refl eq_refl eq_refl
                           ltac:(lia) ltac:(lia)
                           (ex_intro _ 0 (conj eq_refl eq_refl))))).
    split; reflexivity.
  - apply (proj2 (proj2 (ledger_write_needs_capacity demo_cfg 2 [true; true]
                           0%nat (1 # 1)%Q
                           (set_epi_step_count [(100, 0); (0, 0)] demo_env)
                           100 0 demo_env_wf
                           eq_refl eq_refl eq_refl eq_refl
                           ltac:(lia) ltac:(lia)
                           (ex_intro _ 0 (conj eq_refl eq_refl))))).
    left. lia.
Defined.

(** ** Export *)

Lemma rows_at_ok {A} (t : list A) (ids : list nat) :
  Forall (fun i => (i < length t)%nat) ids ->
  exists rows,
    rows_at t ids = Ok rows /\ length rows = length ids
    /\ Forall (fun x => x ∈ t) rows.
Proof.
  induction 1 as [|i ids Hi _ IH].
  - exists []. repeat split. constructor.
  - destruct IH as (rows & Hrows & Hlen & Hin).
    destruct (lookup_lt_is_Some_2 t i Hi) as [x Hx].
    exists (x :: rows). unfold rows_at in *. cbn [result_mapM].
    unfold get_item at 1. rewrite Hx. cbn [result_bind]. rewrite Hrows.
    repeat split; [simpl; lia|]. constructor; [|exact Hin].
    apply list_elem_of_lookup. eauto.
Qed.

Lemma length_np_repeat {A} (xs : list A) : forall counts,
  length xs = length counts ->
  length (np_repeat xs counts) = sum_list counts.
Proof.
  unfold np_repeat.
  induction xs as [|x xs IH]; intros [|c counts] Hlen; try discriminate;
    [reflexivity|].
  simpl. rewrite length_app, length_replicate, IH by (simpl in Hlen; lia).
  reflexivity.
Qed.

Lemma length_flat_map_sum {A B} (f : A -> list B) (l : list A) :
  length (flat_map f l) = sum_list (map (fun x => length (f x)) l).
Proof.
  induction l as [|x l IH]; simpl; [reflexivity|].
  now rewrite length_app, IH.
Qed.

Lemma sum_list_const (c : nat) (l : list nat) :
  Forall (fun x => x = c) l -> sum_list l = (length l * c)%nat.
Proof. induction 1 as [|x l -> _ IH]; simpl; [reflexivity | now rewrite IH]. Qed.

Lemma new_rows_ok (ids : list nat) (eps : list Z) (gt : list (list (list Q))) :
  length ids = length gt -> length eps = length gt ->
  exists rows,
    new_rows ids eps gt = Ok rows
    /\ length rows = sum_list (map (@length _) gt).
Proof.
  intros H1 H2. unfold new_rows, data_frame.
  set (counts := map (@length _) gt).
  assert (Hc : length counts = length gt) by apply length_map.
  assert (L1 : length (np_repeat ids counts) = sum_list counts)
    by (apply length_np_repeat; lia).
  assert (L2 : length (np_repeat eps counts) = sum_list counts)
    by (apply length_np_repeat; lia).
  assert (L3 : length (flat_map (fun episode => seq 0 (length episode)) gt)
               = sum_list counts).
  { rewrite length_flat_map_sum. unfold counts. f_equal.
    apply map_ext. intros a. apply length_seq. }
  assert (L4 : length (flat_map (fun episode => episode) gt) = sum_list counts).
  { rewrite length_flat_map_sum. reflexivity. }
  destruct (decide _) as [_ | Hn]; [|exfalso; apply Hn; lia].
  eexists. split; [reflexivity|].
  rewrite length_zip_with, !length_zip. lia.
Qed.

(** ** Resets *)

Lemma masked_elem {A} (ids : list A) (mask : list bool) (l : list A) (w : A) :
  masked ids mask = Ok l -> w ∈ l ->
  exists k, ids !! k = Some w /\ mask !! k = Some true.
Proof.
  unfold masked. destruct (decide _) as [_|]; [|discriminate].
  intros [= <-] Hw.
  apply list_elem_of_In, in_map_iff in Hw as ([w' b] & <- & Hin).
  apply filter_In in Hin as [Hin Hb]. simpl in Hb. subst b.
  apply list_elem_of_In, list_elem_of_lookup in Hin as [k Hk].
  apply lookup_zip_Some in Hk. exists k. exact Hk.
Qed.

Lemma masked_seq_elem (n : nat) (mask : list bool) (l : list nat) (w : nat) :
  masked (seq 0 n) mask = Ok l -> w ∈ l -> mask !! w = Some true.
Proof.
  intros Hm Hw. destruct (masked_elem _ _ _ _ Hm Hw) as (k & Hk & Hmask).
  apply lookup_seq in Hk as [-> _]. exact Hmask.
Qed.

Lemma masked_ok {A} (ids : list A) (mask : list bool) :
  length ids = length mask -> exists l, masked ids mask = Ok l.
Proof.
  intros H. unfold masked. destruct (decide _); [eauto | contradiction].
Qed.

Lemma foldl_fn_set_other {A} (ids : list nat) : forall (rows : list A) f w,
  w ∉ ids ->
  foldl (fun f '(i, row) => fn_set f i row) f (zip ids rows) w = f w.
Proof.
  induction ids as [|i ids IH]; intros [|row rows] f w Hw; try reflexivity.
  apply not_elem_of_cons in Hw as [Hne Hw]. simpl.
  rewrite IH by exact Hw. unfold fn_set.
  destruct (decide (w = i)); [contradiction | reflexivity].
Qed.

(** [_reset_robot] writes the joints of the listed worlds and names only
    them; this holds whether or not it ends in an exception. *)
Lemma reset_robot_frame (cfg : Params) (ids : list nat) (st : Env) :
  let r := _reset_robot cfg ids st in
  sm_state (snd r) = sm_state st
  /\ sm_wait_time (snd r) = sm_wait_time st
  /\ epi_step_count (snd r) = epi_step_count st
  /\ reward_recorder (snd r) = reward_recorder st
  /\ obj_chosen (snd r) = obj_chosen st
  /\ (forall w, w ∉ ids ->
        joint_pos (sim (snd r)) w = joint_pos (sim st) w
        /\ joint_vel (sim (snd r)) w = joint_vel (sim st) w)
  /\ exists new,
       effects (snd r) = effects st ++ new
       /\ Forall (fun eff => effect_ids eff = ids) new.
Proof.
  unfold _reset_robot. m_unfold. cbn.
  destruct (rows_at (joint_pos_init st) ids) as [pos|e1]; cbn.
  2:{ repeat split. exists []. split; [now rewrite app_nil_r | constructor]. }
  destruct (rows_at (joint_vel_init st) ids) as [vel|e2]; cbn.
  2:{ repeat split. exists []. split; [now rewrite app_nil_r | constructor]. }
  destruct (String.eqb (CONTROLLER cfg) "RMPFLOW"); cbn.
  - repeat split; try (apply foldl_fn_set_other; assumption).
    eexists. split; [rewrite <- app_assoc; reflexivity|].
    repeat constructor.
  - repeat split; try (apply foldl_fn_set_other; assumption).
    eexists. split; [rewrite <- !app_assoc; reflexivity|].
    repeat constructor.
Qed.

Lemma reset_robot_ok (cfg : Params) (ids : list nat) (st : Env) :
  Forall (fun i => (i < length (joint_pos_init st))%nat) ids ->
  Forall (fun i => (i < length (joint_vel_init st))%nat) ids ->
  String.eqb (CONTROLLER cfg) "RMPFLOW" = false ->
  fst (_reset_robot cfg ids st) = Ok tt.
Proof.
  intros Hp Hv Hc. unfold _reset_robot. m_unfold. cbn.
  destruct (rows_at_ok _ _ Hp) as (pos & -> & _).
  destruct (rows_at_ok _ _ Hv) as (vel & -> & _).
  cbn. rewrite Hc. reflexivity.
Qed.

Lemma state_mask_elem (code : Z) (sm : list Z) (l : list nat) (w : nat) :
  masked (seq 0 (length sm)) (map (fun x => x =? code) sm) = Ok l ->
  w ∈ l -> sm !! w = Some code.
Proof.
  intros Hm Hw. pose proof (masked_seq_elem _ _ _ _ Hm Hw) as Hmask.
  rewrite map_is_fmap, list_lookup_fmap in Hmask.
  destruct (sm !! w) as [x|]; [|discriminate]. simpl in Hmask.
  injection Hmask as Hx. apply Z.eqb_eq in Hx. now subst.
Qed.

(** C8. The reset phase of a tick leaves the discrete state, the timers,
    the ledger, the counters and the choices of all worlds as they are; for
    every world that is neither in [init] nor in [init_env] it also leaves
    the joints untouched, and none of the reset requests it issues names
    that world.  This holds whether or not the phase ends normally; it ends
    normally when the joint defaults have a row for every world and the
    controller exists. *)
Theorem summerize_and_reset_isolates (cfg : Params) (st : Env) :
  env_idx st = seq 0 (length (sm_state st)) ->
  let r := _summerize_and_reset cfg st in
  (sm_state (snd r) = sm_state st
   /\ sm_wait_time (snd r) = sm_wait_time st
   /\ reward_recorder (snd r) = reward_recorder st
   /\ epi_step_count (snd r) = epi_step_count st
   /\ obj_chosen (snd r) = obj_chosen st)
  /\ (forall w, ~ flagged cfg st w ->
        joint_pos (sim (snd r)) w = joint_pos (sim st) w
        /\ joint_vel (sim (snd r)) w = joint_vel (sim st) w
        /\ exists new,
             effects (snd r) = effects st ++ new
             /\ Forall (fun eff => w ∉ effect_ids eff) new)
  /\ (length (joint_pos_init st) = length (sm_state st) ->
      length (joint_vel_init st) = length (sm_state st) ->
      String.eqb (CONTROLLER cfg) "RMPFLOW" = false ->
      fst r = Ok tt).
Proof.
  intros Hidx. unfold _summerize_and_reset. m_unfold. cbn. rewrite Hidx.
  destruct (masked_ok (seq 0 (length (sm_state st)))
              (map (fun x => x =? STATE_MACHINE cfg "init") (sm_state st)))
    as [init_id Hinit]; [now rewrite length_seq, length_map|].
  destruct (masked_ok (seq 0 (length (sm_state st)))
              (map (fun x => x =? STATE_MACHINE cfg "init_env") (sm_state st)))
    as [init_env_id Hinit_env]; [now rewrite length_seq, length_map|].
  rewrite Hinit, Hinit_env.
  pose proof (reset_robot_frame cfg init_id st) as Hframe.
  pose proof (reset_robot_ok cfg init_id st) as Hok.
  destruct (_reset_robot cfg init_id st) as [res st1].
  cbn in Hframe, Hok.
  destruct Hframe as (F1 & F2 & F3 & F4 & F5 & Fj & new & Fnew & Fnames).
  assert (Hnot : forall w, ~ flagged cfg st w ->
            (w ∉ init_id) /\ (w ∉ init_env_id)).
  { intros w Hw. split; intros Hin; apply Hw.
    - left. exact (state_mask_elem _ _ _ _ Hinit Hin).
    - right. exact (state_mask_elem _ _ _ _ Hinit_env Hin). }
  assert (Hlt : forall code l,
            masked (seq 0 (length (sm_state st)))
                   (map (fun x => x =? code) (sm_state st)) = Ok l ->
            Forall (fun i => (i < length (sm_state st))%nat) l).
  { intros code l Hm. apply Forall_forall. intros i Hi.
    eapply lookup_lt_Some, state_mask_elem; eassumption. }
  destruct res as [[]|e]; cbn.
  - split; [repeat split; assumption|]. split.
    + intros w Hw. destruct (Hnot w Hw) as [Hw1 Hw2].
      destruct (Fj w Hw1) as [J1 J2]. repeat split; try assumption.
      exists (new ++ [ResetIdx init_env_id]). split.
      * rewrite Fnew, app_assoc. reflexivity.
      * apply Forall_app. split.
        -- eapply Forall_impl; [exact Fnames|]. intros eff ->. exact Hw1.
        -- repeat constructor. exact Hw2.
    + reflexivity.
  - split; [repeat split; assumption|]. split.
    + intros w Hw. destruct (Hnot w Hw) as [Hw1 Hw2].
      destruct (Fj w Hw1) as [J1 J2]. repeat split; try assumption.
      exists new. split; [exact Fnew|].
      eapply Forall_impl; [exact Fnames|]. intros eff ->. exact Hw1.
    + intros Hp Hv Hc. apply Hok; [| |exact Hc].
      * rewrite Hp. eapply Hlt, Hinit.
      * rewrite Hv. eapply Hlt, Hinit.
Qed.

Lemma summerize_and_reset_isolates_witness :
  let st := set_sm_state [0; 3; 1; 2] (init_env demo_cfg 4 demo_sim
              (replicate 4 [0 # 1; 0 # 1]%Q) (replicate 4 [0 # 1; 0 # 1]%Q) 1) in
  let r := _summerize_and_reset demo_cfg st in
  fst r = Ok tt
  /\ sm_state (snd r) = [0; 3; 1; 2]
  /\ effects (snd r)
     = [WriteJointState [0%nat]; RobotReset [0%nat]; ControllerReset [0%nat];
        ResetIdx [2%nat]]
  /\ joint_pos (sim (snd r)) 0 = [0 # 1; 0 # 1]%Q
  /\ joint_pos (sim (snd r)) 1 = [1 # 1; 2 # 1]%Q.
Proof.
  pose proof (summerize_and_reset_isolates demo_cfg
                (set_sm_state [0; 3; 1; 2] (init_env demo_cfg 4 demo_sim
                   (replicate 4 [0 # 1; 0 # 1]%Q) (replicate 4 [0 # 1; 0 # 1]%Q) 1))
                eq_refl) as (_ & _ & Hok).
  split; [exact (Hok eq_refl eq_refl eq_refl)|].
  vm_compute. repeat split.
Defined.

(** ** Camera data *)

(** C9 (amended). When the depth channel is missing from the observation
    data, [get_grasp_pose_demo] fails its assertion before any world is
    looked at: it raises [AssertionError] for the whole call, writes no data
    for any of the requested worlds and leaves the environment unchanged;
    nothing is held back or retried. *)
Theorem get_grasp_pose_demo_without_depth
    {Channel : Type} (ids : list nat)
    (obs_buf : gmap string (gmap string Channel))
    (data_cam : gmap string Channel) (st : Env) :
  obs_buf !! "policy" = Some data_cam ->
  data_cam !! "distance_to_image_plane" = None ->
  get_grasp_pose_demo ids obs_buf st = (Raise AssertionError, st).
Proof.
  intros Hpolicy Hdepth. unfold get_grasp_pose_demo. m_unfold.
  rewrite Hpolicy. cbn.
  destruct (decide (is_Some (data_cam !! "distance_to_image_plane")))
    as [[c Hc] | _]; [congruence | reflexivity].
Qed.

(** With all channels present every requested world is written, in order. *)
Lemma for_each_save_data (ids : list nat) (st : Env) :
  for_each save_data ids st
  = (Ok tt, set_effects (effects st ++ map SaveData ids) st).
Proof.
  revert st. induction ids as [|i ids IH]; intros st.
  - cbn. rewrite app_nil_r. destruct st; reflexivity.
  - cbn [for_each]. unfold mbind, M_bind at 1. unfold save_data at 1. cbn.
    rewrite IH. cbn. rewrite <- app_assoc. reflexivity.
Qed.

Lemma get_grasp_pose_demo_without_depth_witness :
  get_grasp_pose_demo [0; 1]%nat
    ({[ "policy" := {[ "rgb" := tt; "pcd" := tt; "normals" := tt ]} ]}
       : gmap string (gmap string unit)) demo_env
  = (Raise AssertionError, demo_env).
Proof.
  apply (get_grasp_pose_demo_without_depth [0; 1]%nat _
           {[ "rgb" := tt; "pcd" := tt; "normals" := tt ]} demo_env).
  - reflexivity.
  - reflexivity.
Defined.

(** C9 (as stated, refuted).  Worlds 0 and 1 are requested and the depth
    channel is missing: the call ends in an [AssertionError] and nothing is
    written, for world 0 as little as for world 1.  With the depth channel
    in place the same call writes both worlds. *)
Lemma missing_depth_fails_every_world :
  let without : gmap string (gmap string unit) :=
    {[ "policy" := {[ "rgb" := tt; "pcd" := tt; "normals" := tt ]} ]} in
  let with_depth : gmap string (gmap string unit) :=
    {[ "policy" := {[ "rgb" := tt; "pcd" := tt; "normals" := tt;
                      "distance_to_image_plane" := tt ]} ]} in
  fst (get_grasp_pose_demo [0; 1]%nat without demo_env)
  = Raise (Exn "AssertionError")
  /\ effects (snd (get_grasp_pose_demo [0; 1]%nat without demo_env)) = []
  /\ fst (get_grasp_pose_demo [0; 1]%nat with_depth demo_env)
     = Ok (grasp_pose demo_env)
  /\ effects (snd (get_grasp_pose_demo [0; 1]%nat with_depth demo_env))
     = [SaveData 0; SaveData 1].
Proof.
  vm_compute. repeat split.
Qed.

(** ** The outer loop *)

Lemma criteria_any (cfg : Params) (st : Env) :
  existsb id (criteria_of cfg st) = true <-> some_world_chooses cfg st.
Proof.
  unfold criteria_of, some_world_chooses. rewrite existsb_exists. split.
  - intros (b & Hin & Hb). unfold id in Hb. subst b.
    apply in_map_iff in Hin as (x & Hx & Hin). apply Z.eqb_eq in Hx. subst x.
    apply list_elem_of_In, list_elem_of_lookup in Hin. exact Hin.
  - intros (w & Hw). exists true. split; [|reflexivity].
    apply in_map_iff. exists (STATE_MACHINE cfg "choose_object").
    split; [apply Z.eqb_refl|].
    apply list_elem_of_In, list_elem_of_lookup. eauto.
Qed.

Lemma criteria_none (cfg : Params) (st : Env) :
  ~ some_world_chooses cfg st -> existsb id (criteria_of cfg st) = false.
Proof.
  intros H. destruct (existsb id (criteria_of cfg st)) eqn:E; [|reflexivity].
  exfalso. apply H, criteria_any, E.
Qed.

Section StepLoop.
Context (cfg : Params) (kernel : list bool -> Env -> Env)
        (simulate : Env -> Env).

Lemma step_loop_stops (fuel : nat) (ran : bool) (crit : list bool) (st : Env) :
  existsb id crit = true ->
  step_loop cfg kernel simulate fuel ran crit st = Some (Ok (ran, crit), st).
Proof. intros H. destruct fuel; simpl; now rewrite H. Qed.

(** Whatever the loop returns after running its body satisfies the exit
    test, and it is the test of the state it returns. *)
Lemma step_loop_sound (fuel : nat) : forall ran crit st ran' crit' st',
  step_loop cfg kernel simulate fuel ran crit st = Some (Ok (ran', crit'), st') ->
  existsb id crit' = true
  /\ (ran' = true -> (ran = true -> crit = criteria_of cfg st) ->
      crit' = criteria_of cfg st').
Proof.
  induction fuel as [|fuel IH]; intros ran crit st ran' crit' st'; simpl.
  - destruct (existsb id crit) eqn:E; [|discriminate].
    intros [= <- <- <-]. split; [exact E | auto].
  - destruct (existsb id crit) eqn:E.
    + intros [= <- <- <-]. split; [exact E | auto].
    + destruct (loop_body cfg kernel simulate st) as [[[]|e] st1]; [|discriminate].
      intros Hrun.
      destruct (IH true (criteria_of cfg st1) st1 ran' crit' st' Hrun) as [H1 H2].
      split; [exact H1|]. intros Hran _. apply H2; auto.
Qed.

(** The loop ends on the first turn after which some world is in
    [choose_object]. *)
Lemma step_loop_first (n : nat) : forall st st' ran crit fuel,
  existsb id crit = false ->
  ticks cfg kernel simulate (S n) st = Ok st' ->
  (forall k sk, (1 <= k <= n)%nat -> ticks cfg kernel simulate k st = Ok sk ->
                ~ some_world_chooses cfg sk) ->
  some_world_chooses cfg st' ->
  (S n <= fuel)%nat ->
  step_loop cfg kernel simulate fuel ran crit st = Some (Ok (true, criteria_of cfg st'), st').
Proof.
  induction n as [|n IH]; intros st st' ran crit fuel Hcrit Hticks Hbefore Hlast Hfuel;
    (destruct fuel as [|fuel]; [lia|]); cbn [step_loop]; rewrite Hcrit;
    cbn [ticks] in Hticks;
    destruct (loop_body cfg kernel simulate st) as [[[]|e] st1] eqn:Hbody; try discriminate.
  - injection Hticks as <-. apply step_loop_stops, criteria_any, Hlast.
  - apply IH; try assumption; [| |lia].
    + apply criteria_none, (Hbefore 1%nat); [lia|]. cbn [ticks]. now rewrite Hbody.
    + intros k sk Hk Hsk. apply (Hbefore (S k)); [lia|].
      cbn [ticks]. now rewrite Hbody.
Qed.

End StepLoop.

Lemma read_camera_info_ok (cfg : Params) (st : Env) :
  disable_camera cfg = false \/ n_multiple_cam cfg = 0%nat ->
  read_camera_info cfg st
  = (Ok tt, set_camera_info (Some (seq 0 (n_multiple_cam cfg))) st).
Proof.
  intros H. unfold read_camera_info.
  destruct H as [-> | ->]; [reflexivity|].
  rewrite andb_false_r. reflexivity.
Qed.

Lemma read_camera_info_inv (cfg : Params) (st st' : Env) (u : unit) :
  read_camera_info cfg st = (Ok u, st') ->
  (disable_camera cfg = false \/ n_multiple_cam cfg = 0%nat)
  /\ st' = set_camera_info (Some (seq 0 (n_multiple_cam cfg))) st.
Proof.
  unfold read_camera_info.
  destruct (disable_camera cfg); cbn [andb]; [|intros [= <-]; auto].
  destruct (Nat.eqb_spec (n_multiple_cam cfg) 0); cbn [negb];
    [intros [= <-]; auto | discriminate].
Qed.

(** C5 (amended). The loop of [step] hands control back as soon as AT LEAST
    ONE world is in [choose_object] after a turn, whether or not the worlds
    flagged [init] or [init_env] have reached [choose_object]: if the
    supplied criteria has no true entry, turn [n + 1] is the first after
    which some world is in [choose_object] and the cameras can be read, then,
    given fuel for that many turns, [step] returns after exactly [n + 1]
    turns with the state of that moment, the camera info assigned, and with
    the criteria [sm_state == choose_object] (nothing in its place with
    [use_sb3]); and whenever [step] returns at all, the cameras could be
    read, some world is in [choose_object] (not necessarily every world, and
    not necessarily the flagged ones) and the criteria returned is that of
    the state returned. *)
Theorem step_returns_at_first_choice
    (cfg : Params) (kernel : list bool -> Env -> Env) (simulate : Env -> Env)
    (n fuel : nat) (grasp : list Pose) (crit : list bool) (st st' : Env) :
  disable_camera cfg = false \/ n_multiple_cam cfg = 0%nat ->
  existsb id crit = false ->
  ticks cfg kernel simulate (S n) (set_grasp_pose grasp st) = Ok st' ->
  (forall k sk, (1 <= k <= n)%nat ->
     ticks cfg kernel simulate k (set_grasp_pose grasp st) = Ok sk ->
     ~ some_world_chooses cfg sk) ->
  some_world_chooses cfg st' ->
  (S n <= fuel)%nat ->
  step cfg kernel simulate fuel grasp crit st
  = Some (Ok (if use_sb3 cfg then None else Some (criteria_of cfg st')),
          set_camera_info (Some (seq 0 (n_multiple_cam cfg))) st')
  /\ (forall fuel0 grasp0 crit0 st0 r st1,
        step cfg kernel simulate fuel0 grasp0 crit0 st0 = Some (Ok r, st1) ->
        (disable_camera cfg = false \/ n_multiple_cam cfg = 0%nat)
        /\ some_world_chooses cfg st1
        /\ r = if use_sb3 cfg then None else Some (criteria_of cfg st1)).
Proof.
  intros Hcam Hcrit Hticks Hbefore Hlast Hfuel. split.
  - unfold step.
    rewrite (step_loop_first cfg kernel simulate n _ st' false crit fuel
               Hcrit Hticks Hbefore Hlast Hfuel).
    now rewrite (read_camera_info_ok cfg st' Hcam).
  - intros fuel0 grasp0 crit0 st0 r st1. unfold step.
    destruct (step_loop cfg kernel simulate fuel0 false crit0
                (set_grasp_pose grasp0 st0))
      as [[[[ran' crit'] | e] st2]|] eqn:Hloop; try discriminate.
    destruct (read_camera_info cfg st2) as [[[]|e] st3] eqn:Hread;
      [|discriminate].
    apply read_camera_info_inv in Hread as [Hcam' ->].
    destruct ran'; [|discriminate]. intros [= <- <-].
    destruct (step_loop_sound cfg kernel simulate _ _ _ _ _ _ _ Hloop)
      as [Hany Hc].
    assert (Heq : crit' = criteria_of cfg st2)
      by (apply Hc; [reflexivity | discriminate]).
    split; [exact Hcam'|]. split.
    + apply (criteria_any cfg st2). now rewrite <- Heq.
    + now rewrite Heq.
Qed.

(** World 0 has waited half a second in [start] over a resting object: the
    first turn only lets its timer pass one second, the second turn moves
    it to [choose_object], and [step] returns after these two turns. *)
Lemma step_returns_at_first_choice_witness :
  let st0 := set_sm_wait_time [1 # 2; 0 # 1]%Q demo_env in
  let tick := loop_body demo_cfg (spec_kernel demo_cfg 1) id in
  let st' := snd (tick (snd (tick (set_grasp_pose (grasp_pose demo_env) st0)))) in
  sm_state st' = [3; 2]
  /\ step demo_cfg (spec_kernel demo_cfg 1) id 5 (grasp_pose demo_env) [] st0
     = Some (Ok (Some [true; false]), set_camera_info (Some [0%nat]) st').
Proof.
  intros st0 tick st'.
  assert (Hticks : ticks demo_cfg (spec_kernel demo_cfg 1) id 2
                     (set_grasp_pose (grasp_pose demo_env) st0) = Ok st')
    by (vm_compute; reflexivity).
  assert (Hbefore : forall k sk, (1 <= k <= 1)%nat ->
            ticks demo_cfg (spec_kernel demo_cfg 1) id k
              (set_grasp_pose (grasp_pose demo_env) st0) = Ok sk ->
            ~ some_world_chooses demo_cfg sk).
  { intros k sk Hk Hsk. assert (k = 1%nat) as -> by lia.
    vm_compute in Hsk. injection Hsk as <-.
    intros [[|[|w]] Hw]; discriminate Hw. }
  assert (Hlast : some_world_chooses demo_cfg st')
    by (exists 0%nat; reflexivity).
  destruct (step_returns_at_first_choice demo_cfg (spec_kernel demo_cfg 1) id
              1 5 (grasp_pose demo_env) [] st0 st'
              (or_introl eq_refl) eq_refl Hticks Hbefore Hlast ltac:(lia))
    as [Hstep _].
  split; [reflexivity | exact Hstep].
Defined.

(** C5 (as stated, refuted).  World 0 is ready in [start] and world 1 is
    flagged: it is in [init].  After one turn world 0 is in [choose_object]
    and the call returns, with fuel to spare, although the flagged world has
    not reached [choose_object]: it is still flagged, in [init] with a
    kernel that leaves it there and in [init_env] with the kernel of the
    specification. *)
Lemma step_returns_with_a_flagged_world_behind :
  let st := set_sm_state [2; 0] demo_env in
  flagged demo_cfg st 1
  /\ (exists st',
        step demo_cfg demo_kernel id 5 (grasp_pose demo_env) [] st
        = Some (Ok (Some [true; false]), st')
        /\ sm_state st' = [3; 0]
        /\ flagged demo_cfg st' 1
        /\ sm_state st' !! 1%nat <> Some (STATE_MACHINE demo_cfg "choose_object"))
  /\ (exists st',
        step demo_cfg (spec_kernel demo_cfg 1) id 5 (grasp_pose demo_env) [] st
        = Some (Ok (Some [true; false]), st')
        /\ sm_state st' = [3; 1]
        /\ flagged demo_cfg st' 1
        /\ sm_state st' !! 1%nat <> Some (STATE_MACHINE demo_cfg "choose_object")).
Proof.
  split; [left; reflexivity|]. split.
  - eexists. split; [vm_compute; reflexivity|].
    split; [reflexivity|]. split; [left; reflexivity | discriminate].
  - eexists. split; [vm_compute; reflexivity|].
    split; [reflexivity|]. split; [right; reflexivity | discriminate].
Qed.

(** * Further properties *)

(** ** Readiness, continued *)

Lemma length_env_reachable_and_stable (cfg : Params) (s : Sim) (wait : list Q) :
  length (env_reachable_and_stable cfg s wait) = length wait.
Proof.
  unfold env_reachable_and_stable.
  rewrite length_zip_with, !length_map, length_seq. lia.
Qed.

(** X1. A world that is classified ready has an object that can be grasped:
    one of its objects is reachable and slower than the velocity limit; and
    an object is graspable exactly when it is reachable and slower than the
    limit. *)
Theorem ready_world_has_graspable_object
    (cfg : Params) (s : Sim) (wait : list Q) (env : nat) :
  env_reachable_and_stable cfg s wait !! env = Some true ->
  (exists o, (o < num_objs cfg)%nat
             /\ obj_graspable cfg s env o = true
             /\ (mean_abs (_get_obj_vel s o env) < obj_vel_limit cfg)%Q)
  /\ (forall o, obj_graspable cfg s env o = true <->
                obj_reachable cfg s env o = true
                /\ (mean_abs (_get_obj_vel s o env) < obj_vel_limit cfg)%Q).
Proof.
  intros Hready.
  assert (Hgrasp : forall o, obj_graspable cfg s env o = true <->
            obj_reachable cfg s env o = true
            /\ (mean_abs (_get_obj_vel s o env) < obj_vel_limit cfg)%Q).
  { intros o. unfold obj_graspable.
    rewrite andb_true_iff, obj_stable_iff. split.
    - intros [Hr [Hv | Hn]]; [auto | congruence].
    - intros [Hr Hv]. auto. }
  split; [|exact Hgrasp].
  pose proof (lookup_lt_Some _ _ _ Hready) as Hlt.
  rewrite length_env_reachable_and_stable in Hlt.
  destruct (lookup_lt_is_Some_2 wait env Hlt) as [t Ht].
  rewrite (env_ready_lookup cfg s wait env t Ht) in Hready.
  injection Hready as Hready.
  apply andb_true_iff in Hready as [Hready _].
  apply andb_true_iff in Hready as [Hall Hsome].
  apply existsb_seq_lt in Hsome as (o & Ho & Hreach).
  pose proof (proj1 (forallb_seq_lt _ _) Hall o Ho) as Hstable.
  exists o. split; [exact Ho|].
  destruct (proj1 (obj_stable_iff cfg s env o) Hstable) as [Hv | Hn];
    [|congruence].
  split; [apply Hgrasp; auto | exact Hv].
Qed.

Lemma ready_world_has_graspable_object_witness :
  exists o, (o < 2)%nat /\ obj_graspable demo_cfg demo_sim 0 o = true
            /\ (mean_abs (_get_obj_vel demo_sim o 0) < 1 # 100)%Q.
Proof.
  exact (proj1 (ready_world_has_graspable_object demo_cfg demo_sim
                  [2 # 1; 2 # 1]%Q 0%nat eq_refl)).
Defined.

(** ** Grasp selection, continued *)

(** X3. A world whose choice has been cleared to -1 is not refused by grasp
    selection: the index wraps around and every candidate is placed relative
    to the LAST object of the world. *)
Theorem cleared_choice_uses_last_object
    (cfg : Params) (gq : GraspRow -> Quat) (st : Env) (env_id : nat)
    (g : GraspRow) :
  (0 < num_objs cfg)%nat ->
  obj_chosen st !! env_id = Some (-1) ->
  grasp_pose_world cfg gq st env_id g
  = Ok (combine_frame_transforms
          (_get_obj_pos (sim st) (num_objs cfg - 1) env_id)
          (root_quat (objs_root_state_w (sim st) (num_objs cfg - 1) env_id))
          (grasp_pos_obj g) (Some (gq g))).
Proof.
  intros Hn Hk. unfold grasp_pose_world, get_item. rewrite Hk. cbn [result_bind].
  unfold _get_obj_pose, py_norm_index.
  destruct (Z.leb_spec 0 (-1)); [lia|]. cbn [andb].
  destruct (Z.leb_spec (- Z.of_nat (num_objs cfg)) (-1)); [|lia].
  destruct (Z.ltb_spec (-1) 0); [|lia]. cbn [andb result_bind fst snd].
  replace (Z.to_nat (-1 + Z.of_nat (num_objs cfg))) with (num_objs cfg - 1)%nat
    by lia.
  reflexivity.
Qed.

Lemma cleared_choice_uses_last_object_witness :
  grasp_pose_world demo_cfg demo_grasp_quat
    (set_obj_chosen [-1; 1] demo_env) 0 demo_grasp
  = Ok (combine_frame_transforms
          (_get_obj_pos demo_sim 1 0)
          (root_quat (objs_root_state_w demo_sim 1 0))
          (grasp_pos_obj demo_grasp) (Some quat_id)).
Proof.
  apply (cleared_choice_uses_last_object demo_cfg demo_grasp_quat
           (set_obj_chosen [-1; 1] demo_env) 0%nat demo_grasp).
  - simpl. lia.
  - reflexivity.
Defined.

(** X4. Without a GUI, [pc_markers] is never created, and grasp selection
    never returns a pose: every call ends in an exception and leaves the
    environment as it was. *)
Theorem headless_selection_never_returns
    (cfg : Params) (gq : GraspRow -> Quat) (gd : GraspDict)
    (env_id : nat) (st : Env) :
  has_gui cfg = false ->
  exists e, get_grasp_poses_from_hdf5 cfg gq gd env_id st = (Raise e, st).
Proof.
  intros Hgui. unfold get_grasp_poses_from_hdf5. m_unfold.
  destruct (result_mapM _ _) as [[|p poses]|e]; cbn; eauto.
  destruct (py_max _) as [m|e]; cbn; eauto.
  destruct (py_index _ _) as [i|e]; cbn; eauto.
  destruct (get_item _ _) as [q|e]; cbn; eauto.
  rewrite Hgui. eauto.
Qed.

Lemma headless_selection_never_returns_witness :
  exists e,
    get_grasp_poses_from_hdf5
      (mkParams 2 (1 # 2) (ee_goals_default demo_cfg) (1 # 100) 3
         demo_STATE_MACHINE (scene_has_obj demo_cfg) (mkV3 2 2 0)
         false "DIFFIK" false
         "obj" (mkQuat 1 0 0 0) (mkV3 0 0 0) (mkV3 0 0 0) false 1)
      demo_grasp_quat (mkGraspDict [demo_grasp] [1 # 1]%Q) 0 demo_env
    = (Raise e, demo_env).
Proof.
  apply headless_selection_never_returns. reflexivity.
Defined.

Lemma py_max_from_app (l : list Q) (x : Q) : forall m,
  py_max_from m (l ++ [x])
  = if Qltb (py_max_from m l) x then x else py_max_from m l.
Proof. induction l as [|y l IH]; intros m; simpl; [reflexivity | apply IH]. Qed.

Lemma py_max_app (l : list Q) (x m : Q) :
  py_max l = Ok m ->
  py_max (l ++ [x]) = Ok (if Qltb m x then x else m).
Proof.
  destruct l as [|y l]; simpl; [discriminate|].
  intros [= <-]. now rewrite py_max_from_app.
Qed.

Lemma py_index_app_found (l k : list Q) (m : Q) (i : nat) :
  py_index m l = Ok i -> py_index m (l ++ k) = Ok i.
Proof.
  revert i. induction l as [|y l IH]; intros i; simpl; [discriminate|].
  destruct (Qeq_bool y m); [auto|].
  destruct (py_index m l) as [j|e]; [|discriminate].
  intros [= <-]. now rewrite (IH j eq_refl).
Qed.

Lemma py_index_app_fresh (l : list Q) (m : Q) :
  (forall x, In x l -> ~ (x == m)%Q) ->
  py_index m (l ++ [m]) = Ok (length l).
Proof.
  induction l as [|y l IH]; intros Hl; simpl.
  - now rewrite (proj2 (Qeq_bool_iff m m)) by reflexivity.
  - destruct (Qeq_bool y m) eqn:E.
    + exfalso. apply (Hl y); [left; reflexivity | apply Qeq_bool_iff, E].
    + rewrite IH; [reflexivity|]. intros x Hx. apply Hl. right. exact Hx.
Qed.

Lemma result_mapM_app {A B} (f : A -> result B) (l : list A) (x : A)
    (ys : list B) (y : B) :
  result_mapM f l = Ok ys -> f x = Ok y ->
  result_mapM f (l ++ [x]) = Ok (ys ++ [y]).
Proof.
  revert ys. induction l as [|a l IH]; intros ys; simpl.
  - intros [= <-] ->. reflexivity.
  - destruct (f a) as [b|e]; [|discriminate]. cbn [result_bind].
    destruct (result_mapM f l) as [bs|e]; [|discriminate]. cbn [result_bind].
    intros [= <-] Hx. now rewrite (IH bs eq_refl Hx).
Qed.

Lemma result_mapM_length {A B} (f : A -> result B) (l : list A) (ys : list B) :
  result_mapM f l = Ok ys -> length ys = length l.
Proof.
  revert ys. induction l as [|a l IH]; intros ys; simpl.
  - intros [= <-]. reflexivity.
  - destruct (f a) as [b|e]; [|discriminate]. cbn [result_bind].
    destruct (result_mapM f l) as [bs|e]; [|discriminate]. cbn [result_bind].
    intros [= <-]. simpl. now rewrite (IH bs eq_refl).
Qed.

(** The pose of a candidate exists as soon as the pose of any candidate
    does: only the chosen object can make it fail. *)
Lemma grasp_pose_world_any (cfg : Params) (gq : GraspRow -> Quat) (st : Env)
    (env_id : nat) (c g : GraspRow) (p : Pose) :
  grasp_pose_world cfg gq st env_id c = Ok p ->
  exists q, grasp_pose_world cfg gq st env_id g = Ok q.
Proof.
  unfold grasp_pose_world.
  destruct (get_item (obj_chosen st) env_id) as [k|e]; [|discriminate].
  cbn [result_bind].
  destruct (_get_obj_pose cfg (sim st) k env_id) as [op|e]; [|discriminate].
  cbn [result_bind]. eauto.
Qed.

Lemma get_item_app_l {A} (l k : list A) (i : nat) (x : A) :
  get_item l i = Ok x -> get_item (l ++ k) i = Ok x.
Proof.
  unfold get_item. destruct (l !! i) as [y|] eqn:E; [|discriminate].
  intros [= <-]. now rewrite (lookup_app_l_Some _ _ _ _ E).
Qed.

(** X5. Adding a candidate at the end of the library whose score does not
    exceed the best score so far does not change the selected pose. *)
Theorem weaker_candidate_keeps_selection
    (cfg : Params) (gq : GraspRow -> Quat) (cands : list GraspRow)
    (scores : list Q) (g : GraspRow) (sc m : Q) (env_id : nat)
    (st st' : Env) (p : Pose) :
  get_grasp_poses_from_hdf5 cfg gq (mkGraspDict cands scores) env_id st
  = (Ok p, st') ->
  py_max scores = Ok m ->
  (sc <= m)%Q ->
  get_grasp_poses_from_hdf5 cfg gq
    (mkGraspDict (cands ++ [g]) (scores ++ [sc])) env_id st
  = (Ok p, st').
Proof.
  intros Hrun Hmax Hsc.
  unfold get_grasp_poses_from_hdf5 in *. revert Hrun. m_unfold.
  cbn [paralleljaw_pregrasp_transform paralleljaw_pregrasp_score].
  destruct (result_mapM (grasp_pose_world cfg gq st env_id) cands)
    as [poses|e] eqn:Hposes; [|discriminate].
  destruct poses as [|p0 poses]; [discriminate|].
  rewrite Hmax.
  destruct (py_index m scores) as [i|e] eqn:Hidx; [|discriminate].
  destruct (get_item (p0 :: poses) i) as [q|e] eqn:Hget; [|discriminate].
  intros Hrun.
  assert (Hg : exists y, grasp_pose_world cfg gq st env_id g = Ok y).
  { destruct cands as [|c cands]; [discriminate Hposes|].
    simpl in Hposes.
    destruct (grasp_pose_world cfg gq st env_id c) as [pc|e] eqn:Hc;
      [|discriminate].
    eapply grasp_pose_world_any, Hc. }
  destruct Hg as [y Hy].
  rewrite (result_mapM_app _ _ _ _ _ Hposes Hy). cbn [app].
  rewrite (py_max_app _ sc _ Hmax).
  assert (Hnot : Qltb m sc = false).
  { unfold Qltb. apply negb_false_iff, Qle_bool_iff, Hsc. }
  rewrite Hnot, (py_index_app_found _ _ _ _ Hidx).
  change (p0 :: poses ++ [y]) with ((p0 :: poses) ++ [y]).
  rewrite (get_item_app_l _ _ _ _ Hget). exact Hrun.
Qed.

Lemma weaker_candidate_keeps_selection_witness :
  get_grasp_poses_from_hdf5 demo_cfg demo_grasp_quat
    (mkGraspDict ([demo_grasp; demo_grasp_low] ++ [demo_grasp_low])
                 ([3 # 4; 1 # 2] ++ [3 # 4])%Q) 0 demo_env
  = get_grasp_poses_from_hdf5 demo_cfg demo_grasp_quat
      (mkGraspDict [demo_grasp; demo_grasp_low] [3 # 4; 1 # 2]%Q) 0 demo_env.
Proof.
  apply (weaker_candidate_keeps_selection demo_cfg demo_grasp_quat
           [demo_grasp; demo_grasp_low] [3 # 4; 1 # 2]%Q demo_grasp_low
           (3 # 4)%Q (3 # 4)%Q 0%nat demo_env).
  - vm_compute. reflexivity.
  - reflexivity.
  - apply Qle_refl.
Defined.

(** X6. Adding a candidate at the end of the library whose score is strictly
    above every score so far makes its pose the selected one. *)
Theorem better_candidate_becomes_selection
    (cfg : Params) (gq : GraspRow -> Quat) (cands : list GraspRow)
    (scores : list Q) (g : GraspRow) (sc m : Q) (env_id : nat)
    (st st' : Env) (p : Pose) :
  get_grasp_poses_from_hdf5 cfg gq (mkGraspDict cands scores) env_id st
  = (Ok p, st') ->
  length scores = length cands ->
  py_max scores = Ok m ->
  (m < sc)%Q ->
  exists q,
    grasp_pose_world cfg gq st env_id g = Ok q
    /\ get_grasp_poses_from_hdf5 cfg gq
         (mkGraspDict (cands ++ [g]) (scores ++ [sc])) env_id st
       = (Ok q, st).
Proof.
  intros Hrun Hlen Hmax Hsc.
  unfold get_grasp_poses_from_hdf5 in *. revert Hrun. m_unfold.
  cbn [paralleljaw_pregrasp_transform paralleljaw_pregrasp_score].
  destruct (result_mapM (grasp_pose_world cfg gq st env_id) cands)
    as [poses|e] eqn:Hposes; [|discriminate].
  destruct poses as [|p0 poses]; [discriminate|].
  rewrite Hmax.
  destruct (py_index m scores) as [i|e] eqn:Hidx; [|discriminate].
  destruct (get_item (p0 :: poses) i) as [q0|e] eqn:Hget; [|discriminate].
  destruct (has_gui cfg) eqn:Hgui; [|discriminate].
  intros _.
  assert (Hg : exists y, grasp_pose_world cfg gq st env_id g = Ok y).
  { destruct cands as [|c cands]; [discriminate Hposes|].
    simpl in Hposes.
    destruct (grasp_pose_world cfg gq st env_id c) as [pc|e] eqn:Hc;
      [|discriminate].
    eapply grasp_pose_world_any, Hc. }
  destruct Hg as [y Hy]. exists y. split; [exact Hy|].
  rewrite (result_mapM_app _ _ _ _ _ Hposes Hy). cbn [app].
  rewrite (py_max_app _ sc _ Hmax).
  rewrite (proj2 (Qltb_lt m sc) Hsc).
  rewrite py_index_app_fresh.
  - change (p0 :: poses ++ [y]) with ((p0 :: poses) ++ [y]).
    unfold get_item.
    rewrite Hlen, <- (result_mapM_length _ _ _ Hposes), list_lookup_middle
      by reflexivity.
    reflexivity.
  - intros x Hx Heq. destruct (py_max_spec _ _ Hmax) as [_ Hle].
    specialize (Hle x Hx). rewrite Heq in Hle.
    exact (Qlt_not_le _ _ Hsc Hle).
Qed.

Lemma better_candidate_becomes_selection_witness :
  exists q,
    grasp_pose_world demo_cfg demo_grasp_quat demo_env 0 demo_grasp = Ok q
    /\ get_grasp_poses_from_hdf5 demo_cfg demo_grasp_quat
         (mkGraspDict ([demo_grasp_low] ++ [demo_grasp])
                      ([1 # 2] ++ [3 # 4])%Q) 0 demo_env
       = (Ok q, demo_env).
Proof.
  apply (better_candidate_becomes_selection demo_cfg demo_grasp_quat
           [demo_grasp_low] [1 # 2]%Q demo_grasp (3 # 4)%Q (1 # 2)%Q
           0%nat demo_env demo_env
           (combine_frame_transforms
              (_get_obj_pos demo_sim 0 0)
              (root_quat (objs_root_state_w demo_sim 0 0))
              (grasp_pos_obj demo_grasp_low) (Some quat_id))).
  - reflexivity.
  - reflexivity.
  - reflexivity.
  - reflexivity.
Defined.

(** ** Recording rewards, continued *)

(** X7. When no world has both a non-zero reward and a positive judgement,
    [_record_reward] ends normally and changes nothing at all; if every
    reward is zero this holds for any [judge_reward], even an empty one,
    because the judgement is only read for a non-zero reward. *)
Theorem record_reward_without_success
    (cfg : Params) (judge_reward : list bool) (st : Env) :
  (forall i r, reward_buf st !! i = Some r ->
               Qtruthy r = false \/ judge_reward !! i = Some false) ->
  _record_reward cfg judge_reward st = (Ok tt, st).
Proof.
  intros Hno. unfold _record_reward, mbind, M_bind, get_self.
  apply for_each_skip. intros [i r] Hin.
  apply elem_of_lookup_imap in Hin as (i' & r' & [= -> ->] & Hl).
  apply record_one_no_success, (Hno _ _ Hl).
Qed.

Lemma record_reward_without_success_witness :
  _record_reward demo_cfg []
    (set_reward_buf [0 # 1; 0 # 1]%Q demo_env)
  = (Ok tt, set_reward_buf [0 # 1; 0 # 1]%Q demo_env).
Proof.
  apply record_reward_without_success.
  intros [|[|i]] r Hr; try discriminate Hr; injection Hr as <-;
    left; reflexivity.
Defined.

(** One turn of the loop for a successful world whose chosen object is not
    in the scene: the cell is credited, then the lookup of the object
    fails. *)
Lemma record_one_without_object (cfg : Params) (judge : list bool) (i : nat)
    (r0 r : Q) (st : Env) (e s : Z) (W : list (list Q)) (row : list Q)
    (x : Q) (k : Z) :
  Qtruthy r0 = true -> judge !! i = Some true ->
  epi_step_count st !! i = Some (e, s) ->
  reward_buf st !! i = Some r ->
  reward_recorder st !! i = Some W ->
  0 <= e -> W !! Z.to_nat e = Some row ->
  0 <= s -> row !! Z.to_nat s = Some x ->
  obj_chosen st !! i = Some k -> scene_has_obj cfg k = false ->
  record_one cfg judge i r0 st
  = (Raise KeyError,
     set_reward_recorder
       (<[ i := <[ Z.to_nat e := <[ Z.to_nat s := (x + r)%Q ]> row ]> W ]>
          (reward_recorder st)) st).
Proof.
  intros Hr Hj He Hb HW He0 Hrow Hs0 Hx Hk Hobj.
  unfold record_one. rewrite Hr. m_unfold. unfold get_item. rewrite Hj, He.
  cbn. rewrite Hb.
  unfold ledger_add, get_item. rewrite HW. cbn [result_bind].
  rewrite (py_locate_nonneg _ _ _ He0 Hrow). cbn [result_bind].
  rewrite (py_locate_nonneg _ _ _ Hs0 Hx). cbn [result_bind].
  rewrite Hk, Hobj. reflexivity.
Qed.

(** X8. [_record_reward] is not atomic.  If the first successful world has a
    choice that names no object of the scene (for instance the cleared
    choice -1), the call credits that world's ledger cell and then ends in
    [KeyError]: the world's state and choice are not reset, nothing is
    printed or relocated, and the worlds after it are not looked at. *)
Theorem first_success_without_object
    (cfg : Params) (judge_reward : list bool) (st : Env) (i : nat) (r : Q)
    (e s : Z) (W : list (list Q)) (row : list Q) (x : Q) (k : Z) :
  (forall j rj, (j < i)%nat -> reward_buf st !! j = Some rj ->
                Qtruthy rj = false \/ judge_reward !! j = Some false) ->
  reward_buf st !! i = Some r ->
  Qtruthy r = true -> judge_reward !! i = Some true ->
  epi_step_count st !! i = Some (e, s) ->
  reward_recorder st !! i = Some W ->
  0 <= e -> W !! Z.to_nat e = Some row ->
  0 <= s -> row !! Z.to_nat s = Some x ->
  obj_chosen st !! i = Some k -> scene_has_obj cfg k = false ->
  _record_reward cfg judge_reward st
  = (Raise KeyError,
     set_reward_recorder
       (<[ i := <[ Z.to_nat e := <[ Z.to_nat s := (x + r)%Q ]> row ]> W ]>
          (reward_recorder st)) st).
Proof.
  intros Hbefore Hb Hr Hj He HW He0 Hrow Hs0 Hx Hk Hobj.
  unfold _record_reward, mbind, M_bind, get_self.
  rewrite <- (take_drop_middle _ _ _ Hb) at 1.
  rewrite imap_app, for_each_app.
  rewrite for_each_skip.
  - rewrite imap_cons. cbn [for_each]. unfold mbind, M_bind at 1.
    pose proof (lookup_lt_Some _ _ _ Hb) as Hlt.
    rewrite length_take, Nat.min_l, Nat.add_0_r by lia.
    now rewrite (record_one_without_object cfg judge_reward i r r st e s W row x k).
  - intros [j rj] Hin.
    apply elem_of_lookup_imap in Hin as (j' & rj' & [= -> ->] & Hl).
    apply lookup_take_Some in Hl as [Hl Hlt].
    apply record_one_no_success, (Hbefore _ _ Hlt Hl).
Qed.

Lemma first_success_without_object_witness :
  _record_reward demo_cfg [true; true] (set_obj_chosen [-1; 1] demo_env)
  = (Raise KeyError,
     set_reward_recorder
       (<[ 0%nat := <[ 0%nat := <[ 0%nat := (0 + 1)%Q ]> (replicate 3 0%Q) ]>
                     (replicate 100 (replicate 3 0%Q)) ]>
          (reward_recorder demo_env))
       (set_obj_chosen [-1; 1] demo_env)).
Proof.
  apply (first_success_without_object demo_cfg [true; true]
           (set_obj_chosen [-1; 1] demo_env) 0%nat (1 # 1)%Q 0 0
           (replicate 100 (replicate 3 0%Q)) (replicate 3 0%Q) 0%Q (-1)).
  - intros j rj Hj. lia.
  - reflexivity.
  - reflexivity.
  - reflexivity.
  - reflexivity.
  - reflexivity.
  - lia.
  - reflexivity.
  - lia.
  - reflexivity.
  - reflexivity.
  - reflexivity.
Defined.

Lemma py_locate_Some {A} (l : list A) (i : Z) (k : nat) (x : A) :
  py_locate l i = Ok (k, x) -> l !! k = Some x.
Proof.
  unfold py_locate. destruct (py_norm_index (length l) i) as [k'|]; [|discriminate].
  destruct (l !! k') as [y|] eqn:E; [|discriminate]. now intros [= <- <-].
Qed.

Lemma ledger_add_shape (cfg : Params) (n : nat) (L L' : list (list (list Q)))
    (i : nat) (e s : Z) (v : Q) :
  ledger_shape cfg n L -> ledger_add L i e s v = Ok L' ->
  ledger_shape cfg n L'.
Proof.
  intros [Hlen Hshape]. unfold ledger_add, get_item.
  destruct (L !! i) as [W|] eqn:HW; [|discriminate]. cbn [result_bind].
  destruct (py_locate W e) as [[e' row]|] eqn:He; [|discriminate].
  cbn [result_bind].
  destruct (py_locate row s) as [[s' x]|] eqn:Hs; [|discriminate].
  cbn [result_bind]. intros [= <-].
  apply py_locate_Some in He.
  destruct (proj1 (Forall_lookup _ _) Hshape i W HW) as [HlenW Hrows].
  split; [now rewrite length_insert|].
  apply Forall_insert; [exact Hshape|]. split.
  - now rewrite length_insert.
  - apply Forall_insert; [exact Hrows|]. rewrite length_insert.
    exact (proj1 (Forall_lookup _ _) Hrows _ row He).
Qed.

Lemma set_item_Ok {A} (l l' : list A) (i : nat) (v : A) :
  set_item l i v = Ok l' -> l' = <[ i := v ]> l.
Proof. unfold set_item. destruct (decide _); [now intros [= <-] | discriminate]. Qed.

Lemma record_one_keeps (cfg : Params) (n : nat) (judge : list bool) (i : nat)
    (r : Q) (st0 st : Env) :
  kept_by_record cfg n st0 st ->
  kept_by_record cfg n st0 (snd (record_one cfg judge i r st)).
Proof.
  intros Hk.
  pose proof Hk as ((Hsm & Hep & Hrb & Hoc & HL) & K1 & K2 & K3 & K4 & K5 & K6 & K7).
  unfold record_one. destruct (Qtruthy r); [|exact Hk].
  m_unfold.
  destruct (get_item judge i) as [[|]|]; cbn; try exact Hk.
  destruct (get_item (epi_step_count st) i) as [[e s]|]; cbn; try exact Hk.
  destruct (get_item (reward_buf st) i) as [v|]; cbn; try exact Hk.
  destruct (ledger_add (reward_recorder st) i e s v) as [L|] eqn:HLadd; cbn;
    try exact Hk.
  pose proof (ledger_add_shape cfg n _ _ _ _ _ _ HL HLadd) as HL'.
  destruct (get_item (obj_chosen st) i) as [k|]; cbn;
    [|repeat split; try assumption; apply HL'].
  destruct (scene_has_obj cfg k); cbn;
    [|repeat split; try assumption; apply HL'].
  destruct (write_root_state_frame cfg k i (drop_root_state cfg (sim st) i) (sim st))
    as (W1 & W2 & W3 & W4 & _).
  destruct (episode_total L i e) as [total|]; cbn;
    [|repeat split; try assumption; try apply HL'; cbn; congruence].
  destruct (set_item (sm_state st) i (STATE_MACHINE cfg "init")) as [sm|] eqn:Esm;
    cbn; [|repeat split; try assumption; try apply HL'; cbn; congruence].
  apply set_item_Ok in Esm. subst sm.
  destruct (set_item (obj_chosen st) i (-1)) as [oc|] eqn:Eoc; cbn.
  - apply set_item_Ok in Eoc. subst oc.
    repeat split; try assumption; try apply HL';
      cbn; rewrite ?length_insert; congruence.
  - repeat split; try assumption; try apply HL';
      cbn; rewrite ?length_insert; congruence.
Qed.

Lemma for_each_keeps {A} (P : Env -> Prop) (body : A -> M unit) (l : list A) :
  (forall x st, P st -> P (snd (body x st))) ->
  forall st, P st -> P (snd (for_each body l st)).
Proof.
  intros Hbody. induction l as [|x l IH]; intros st HP; [exact HP|].
  cbn [for_each]. unfold mbind, M_bind.
  specialize (Hbody x st HP).
  destruct (body x st) as [[[]|e] st1]; cbn in Hbody; [apply IH, Hbody | exact Hbody].
Qed.

Lemma init_env_wf (cfg : Params) (n : nat) (s : Sim)
    (jp jv : list (list Q)) (cnt : Z) :
  wf_env cfg n (init_env cfg n s jp jv cnt).
Proof.
  unfold wf_env.
  split; [|split; [|split; [|split]]];
    try (unfold init_env; cbn [sm_state epi_step_count reward_buf obj_chosen];
         apply length_replicate).
  apply init_env_ledger_shape.
Qed.

(** X9. The shape of the environment is an invariant of the bookkeeping:
    [_record_reward] keeps a well-formed environment well-formed on every
    path, also when it ends in an exception half-way, and it never writes the
    episode and step counters, the rewards, the timers, the robot, the joints
    or the origins of the worlds (of the scene it writes root states of
    objects only); the reset phase keeps the environment well-formed as
    well. *)
Theorem wf_env_is_kept
    (cfg : Params) (n : nat) (judge_reward : list bool) (st : Env) :
  wf_env cfg n st ->
  kept_by_record cfg n st (snd (_record_reward cfg judge_reward st))
  /\ wf_env cfg n (snd (_summerize_and_reset cfg st)).
Proof.
  intros Hwf. split.
  - unfold _record_reward, mbind, M_bind, get_self.
    apply for_each_keeps.
    + intros [i r] st1. apply record_one_keeps.
    + repeat split; apply Hwf.
  - unfold _summerize_and_reset, _reset_robot, _reset_idx. m_unfold. cbn.
    destruct (masked _ _) as [init_id|]; cbn; [|exact Hwf].
    destruct (masked _ _) as [init_env_id|]; cbn; [|exact Hwf].
    destruct (rows_at (joint_pos_init st) init_id) as [pos|]; cbn; [|exact Hwf].
    destruct (rows_at (joint_vel_init st) init_id) as [vel|]; cbn; [|exact Hwf].
    destruct (String.eqb (CONTROLLER cfg) "RMPFLOW"); cbn; exact Hwf.
Qed.

Lemma wf_env_is_kept_witness :
  kept_by_record demo_cfg 2 demo_env
    (snd (_record_reward demo_cfg [true; true] demo_env))
  /\ wf_env demo_cfg 2 (snd (_summerize_and_reset demo_cfg demo_env)).
Proof.
  exact (wf_env_is_kept demo_cfg 2 [true; true] demo_env demo_env_wf).
Defined.

(** ** Resets, continued *)

Lemma NoDup_fst_filter {A B} (p : A * B -> bool) (l : list (A * B)) :
  NoDup (map fst l) -> NoDup (map fst (List.filter p l)).
Proof.
  induction l as [|x l IH]; simpl; [auto|].
  intros Hnd. apply NoDup_cons in Hnd as [Hx Hnd].
  destruct (p x); simpl; [|auto].
  apply NoDup_cons. split; [|auto].
  intros Hin. apply Hx.
  apply list_elem_of_In, in_map_iff in Hin as (y & Hy & Hin).
  apply filter_In in Hin as [Hin _].
  apply list_elem_of_In, in_map_iff. eauto.
Qed.

Lemma map_fst_zip_seq (n : nat) (mask : list bool) :
  length mask = n -> map fst (zip (seq 0 n) mask) = seq 0 n.
Proof.
  intros H. rewrite map_is_fmap. apply fst_zip. rewrite length_seq. lia.
Qed.

(** The worlds selected by a state mask: exactly those in the state, each
    once. *)
Lemma state_mask_spec (code : Z) (sm : list Z) (l : list nat) :
  masked (seq 0 (length sm)) (map (fun x => x =? code) sm) = Ok l ->
  NoDup l /\ forall w, w ∈ l <-> sm !! w = Some code.
Proof.
  intros Hm. split.
  - unfold masked in Hm. destruct (decide _) as [_|]; [|discriminate].
    injection Hm as <-. apply NoDup_fst_filter.
    rewrite map_fst_zip_seq by apply length_map. apply NoDup_seq.
  - intros w. split; [apply (state_mask_elem _ _ _ _ Hm)|].
    intros Hw. unfold masked in Hm. destruct (decide _) as [_|]; [|discriminate].
    injection Hm as <-.
    apply list_elem_of_In, in_map_iff. exists (w, true). split; [reflexivity|].
    apply filter_In. split; [|reflexivity].
    apply list_elem_of_In, list_elem_of_lookup. exists w.
    apply lookup_zip_Some. split.
    + apply lookup_seq. split; [reflexivity | eapply lookup_lt_Some, Hw].
    + rewrite map_is_fmap, list_lookup_fmap, Hw. simpl.
      now rewrite Z.eqb_refl.
Qed.

Lemma rows_at_lookup {A} (t : list A) (ids : list nat) (rows : list A)
    (k i : nat) :
  rows_at t ids = Ok rows -> ids !! k = Some i -> rows !! k = t !! i.
Proof.
  unfold rows_at. revert rows k. induction ids as [|j ids IH]; intros rows k;
    [intros _ Hk; inversion Hk|].
  cbn [result_mapM]. unfold get_item at 1.
  destruct (t !! j) as [x|] eqn:Hx; [|discriminate]. cbn [result_bind].
  destruct (result_mapM (get_item t) ids) as [rs|]; [|discriminate].
  cbn [result_bind]. intros [= <-]. destruct k as [|k]; simpl.
  - intros [= <-]. now rewrite Hx.
  - intros Hk. apply (IH rs k eq_refl Hk).
Qed.

Lemma foldl_fn_set_at {A} (ids : list nat) : forall (rows : list A) f k w row,
  NoDup ids -> ids !! k = Some w -> rows !! k = Some row ->
  foldl (fun f '(i, row) => fn_set f i row) f (zip ids rows) w = row.
Proof.
  induction ids as [|i ids IH]; intros rows f k w row Hnd Hk Hrow;
    [inversion Hk|].
  apply NoDup_cons in Hnd as [Hi Hnd].
  destruct rows as [|r rows]; [destruct k; discriminate Hrow|].
  destruct k as [|k]; simpl in *.
  - injection Hk as ->. injection Hrow as ->.
    rewrite foldl_fn_set_other by exact Hi.
    unfold fn_set. destruct (decide (w = w)); [reflexivity | contradiction].
  - eapply IH; eassumption.
Qed.

(** X10. After the reset phase of a tick every world that was in [init] has
    its joint positions and velocities back at the initial values recorded
    at start-up; this is done before the controller is touched, so it holds
    with either controller setting. *)
Theorem init_worlds_get_initial_joints
    (cfg : Params) (st : Env) (w : nat) (jp jv : list Q) :
  env_idx st = seq 0 (length (sm_state st)) ->
  length (joint_pos_init st) = length (sm_state st) ->
  length (joint_vel_init st) = length (sm_state st) ->
  sm_state st !! w = Some (STATE_MACHINE cfg "init") ->
  joint_pos_init st !! w = Some jp ->
  joint_vel_init st !! w = Some jv ->
  joint_pos (sim (snd (_summerize_and_reset cfg st))) w = jp
  /\ joint_vel (sim (snd (_summerize_and_reset cfg st))) w = jv.
Proof.
  intros Hidx Hlp Hlv Hw Hjp Hjv.
  unfold _summerize_and_reset, _reset_robot, _reset_idx. m_unfold. cbn.
  rewrite Hidx.
  destruct (masked_ok (seq 0 (length (sm_state st)))
              (map (fun x => x =? STATE_MACHINE cfg "init") (sm_state st)))
    as [init_id Hinit]; [now rewrite length_seq, length_map|].
  destruct (masked_ok (seq 0 (length (sm_state st)))
              (map (fun x => x =? STATE_MACHINE cfg "init_env") (sm_state st)))
    as [init_env_id Hinit_env]; [now rewrite length_seq, length_map|].
  rewrite Hinit, Hinit_env.
  destruct (state_mask_spec _ _ _ Hinit) as [Hnd Hin].
  assert (Hrange : Forall (fun i => (i < length (sm_state st))%nat) init_id).
  { apply Forall_forall. intros i Hi. eapply lookup_lt_Some, Hin, Hi. }
  destruct (rows_at_ok (joint_pos_init st) init_id) as (pos & Hpos & _);
    [now rewrite Hlp|].
  destruct (rows_at_ok (joint_vel_init st) init_id) as (vel & Hvel & _);
    [now rewrite Hlv|].
  rewrite Hpos, Hvel.
  apply Hin, list_elem_of_lookup in Hw as [k Hk].
  assert (Hpk : pos !! k = Some jp)
    by (rewrite (rows_at_lookup _ _ _ _ _ Hpos Hk); exact Hjp).
  assert (Hvk : vel !! k = Some jv)
    by (rewrite (rows_at_lookup _ _ _ _ _ Hvel Hk); exact Hjv).
  destruct (String.eqb (CONTROLLER cfg) "RMPFLOW"); cbn;
    split; eapply foldl_fn_set_at; eassumption.
Qed.

Lemma init_worlds_get_initial_joints_witness :
  let st := set_sm_state [0; 3; 1; 2] (init_env demo_cfg 4 demo_sim
              (replicate 4 [0 # 1; 0 # 1]%Q) (replicate 4 [5 # 1; 5 # 1]%Q) 1) in
  joint_pos (sim (snd (_summerize_and_reset demo_cfg st))) 0 = [0 # 1; 0 # 1]%Q
  /\ joint_vel (sim (snd (_summerize_and_reset demo_cfg st))) 0 = [5 # 1; 5 # 1]%Q.
Proof.
  apply (init_worlds_get_initial_joints demo_cfg
           (set_sm_state [0; 3; 1; 2] (init_env demo_cfg 4 demo_sim
              (replicate 4 [0 # 1; 0 # 1]%Q) (replicate 4 [5 # 1; 5 # 1]%Q) 1))
           0%nat); reflexivity.
Defined.

(** X11. The reset phase issues exactly these requests, in this order: the
    joint write, the robot reset and the controller reset for the worlds in
    [init], then the environment reset for the worlds in [init_env]; each
    list holds exactly the worlds in that state, each once.  With the
    ["RMPFLOW"] setting the phase stops with [AttributeError] after the robot
    reset, and the environment reset of the [init_env] worlds is never
    requested. *)
Theorem reset_requests_are_exact (cfg : Params) (st : Env) :
  env_idx st = seq 0 (length (sm_state st)) ->
  length (joint_pos_init st) = length (sm_state st) ->
  length (joint_vel_init st) = length (sm_state st) ->
  exists init_id init_env_id,
    (NoDup init_id
     /\ forall w, w ∈ init_id <-> sm_state st !! w = Some (STATE_MACHINE cfg "init"))
    /\ (NoDup init_env_id
        /\ forall w, w ∈ init_env_id <->
                     sm_state st !! w = Some (STATE_MACHINE cfg "init_env"))
    /\ if String.eqb (CONTROLLER cfg) "RMPFLOW"
       then fst (_summerize_and_reset cfg st) = Raise AttributeError
            /\ effects (snd (_summerize_and_reset cfg st))
               = effects st ++ [WriteJointState init_id; RobotReset init_id]
       else fst (_summerize_and_reset cfg st) = Ok tt
            /\ effects (snd (_summerize_and_reset cfg st))
               = effects st ++ [WriteJointState init_id; RobotReset init_id;
                                ControllerReset init_id; ResetIdx init_env_id].
Proof.
  intros Hidx Hlp Hlv.
  unfold _summerize_and_reset, _reset_robot, _reset_idx. m_unfold. cbn.
  rewrite Hidx.
  destruct (masked_ok (seq 0 (length (sm_state st)))
              (map (fun x => x =? STATE_MACHINE cfg "init") (sm_state st)))
    as [init_id Hinit]; [now rewrite length_seq, length_map|].
  destruct (masked_ok (seq 0 (length (sm_state st)))
              (map (fun x => x =? STATE_MACHINE cfg "init_env") (sm_state st)))
    as [init_env_id Hinit_env]; [now rewrite length_seq, length_map|].
  rewrite Hinit, Hinit_env.
  pose proof (state_mask_spec _ _ _ Hinit) as Hspec.
  pose proof (state_mask_spec _ _ _ Hinit_env) as Hspec_env.
  assert (Hrange : Forall (fun i => (i < length (sm_state st))%nat) init_id).
  { apply Forall_forall. intros i Hi. eapply lookup_lt_Some, Hspec, Hi. }
  destruct (rows_at_ok (joint_pos_init st) init_id) as (pos & Hpos & _);
    [now rewrite Hlp|].
  destruct (rows_at_ok (joint_vel_init st) init_id) as (vel & Hvel & _);
    [now rewrite Hlv|].
  rewrite Hpos, Hvel.
  exists init_id, init_env_id. split; [exact Hspec|]. split; [exact Hspec_env|].
  destruct (String.eqb (CONTROLLER cfg) "RMPFLOW"); cbn;
    (split; [reflexivity | rewrite <- ?app_assoc; reflexivity]).
Qed.

Lemma reset_requests_are_exact_witness :
  let st := set_sm_state [0; 3; 1; 2] (init_env demo_cfg 4 demo_sim
              (replicate 4 [0 # 1; 0 # 1]%Q) (replicate 4 [5 # 1; 5 # 1]%Q) 1) in
  exists init_id init_env_id,
    (NoDup init_id /\ forall w, w ∈ init_id <-> sm_state st !! w = Some 0)
    /\ (NoDup init_env_id
        /\ forall w, w ∈ init_env_id <-> sm_state st !! w = Some 1)
    /\ fst (_summerize_and_reset demo_cfg st) = Ok tt
    /\ effects (snd (_summerize_and_reset demo_cfg st))
       = effects st ++ [WriteJointState init_id; RobotReset init_id;
                        ControllerReset init_id; ResetIdx init_env_id].
Proof.
  exact (reset_requests_are_exact demo_cfg
           (set_sm_state [0; 3; 1; 2] (init_env demo_cfg 4 demo_sim
              (replicate 4 [0 # 1; 0 # 1]%Q) (replicate 4 [5 # 1; 5 # 1]%Q) 1))
           eq_refl eq_refl eq_refl).
Defined.

(** ** Export, continued *)

Lemma rows_at_seq_from {A} (l : list A) : forall pre,
  result_mapM (get_item (pre ++ l)) (seq (length pre) (length l)) = Ok l.
Proof.
  induction l as [|x l IH]; intros pre; [reflexivity|].
  cbn [length seq result_mapM]. unfold get_item at 1.
  rewrite list_lookup_middle by reflexivity. cbn [result_bind].
  specialize (IH (pre ++ [x])). rewrite <- app_assoc, length_app in IH.
  cbn [length app] in IH. rewrite Nat.add_1_r in IH. now rewrite IH.
Qed.

Lemma rows_at_seq {A} (t : list A) : rows_at t (seq 0 (length t)) = Ok t.
Proof. exact (rows_at_seq_from t []). Qed.

Lemma block_of_columns (i : nat) (e : Z) (W : list (list Q)) : forall s,
  zip_with (fun '(a, b) '(c, d) => mkRow a b c d)
    (zip (replicate (length W) i) (replicate (length W) e))
    (zip (seq s (length W)) W)
  = imap (fun j row => mkRow i e (s + j) row) W.
Proof.
  induction W as [|row W IH]; intros s; [reflexivity|].
  cbn [length replicate seq zip zip_with imap]. rewrite Nat.add_0_r. f_equal.
  rewrite IH. apply imap_ext. intros j r _. cbn. f_equal. lia.
Qed.

Lemma columns_are_blocks (ids : list nat) : forall eps gt,
  length ids = length gt -> length eps = length gt ->
  zip_with (fun '(a, b) '(c, d) => mkRow a b c d)
    (zip (np_repeat ids (map (@length _) gt))
         (np_repeat eps (map (@length _) gt)))
    (zip (flat_map (fun episode => seq 0 (length episode)) gt)
         (flat_map (fun episode => episode) gt))
  = block_rows ids eps gt.
Proof.
  unfold np_repeat.
  induction ids as [|i ids IH]; intros [|e eps] [|W gt] H1 H2;
    try discriminate; try reflexivity.
  cbn [map zip_with flat_map block_rows].
  rewrite !zip_with_app;
    rewrite ?length_zip_with, ?length_replicate, ?length_seq; try lia.
  f_equal.
  - rewrite (block_of_columns i e W 0). apply imap_ext. reflexivity.
  - apply IH; simpl in *; lia.
Qed.

Lemma new_rows_blocks (ids : list nat) (eps : list Z) (gt : list (list (list Q))) :
  length ids = length gt -> length eps = length gt ->
  new_rows ids eps gt = Ok (block_rows ids eps gt).
Proof.
  intros H1 H2. destruct (new_rows_ok ids eps gt H1 H2) as (rows & Hrows & _).
  rewrite Hrows. revert Hrows. unfold new_rows, data_frame.
  destruct (decide _); [|discriminate].
  intros [= <-]. f_equal. now apply columns_are_blocks.
Qed.

Lemma block_rows_lookup (c : nat) (ids : list nat) : forall eps gt k j i e W row,
  Forall (fun W => length W = c) gt ->
  ids !! k = Some i -> eps !! k = Some e -> gt !! k = Some W ->
  W !! j = Some row ->
  block_rows ids eps gt !! (k * c + j)%nat = Some (mkRow i e j row).
Proof.
  induction ids as [|i0 ids IH]; intros eps gt k j i e W row Hc Hi He HW Hrow;
    [inversion Hi|].
  destruct eps as [|e0 eps]; [destruct k; discriminate He|].
  destruct gt as [|W0 gt]; [destruct k; discriminate HW|].
  apply Forall_cons in Hc as [Hc0 Hc]. cbn [block_rows].
  destruct k as [|k]; simpl in Hi, He, HW.
  - injection Hi as ->. injection He as ->. injection HW as ->.
    change (0 * c + j)%nat with j.
    rewrite lookup_app_l
      by (rewrite length_imap; eapply lookup_lt_Some, Hrow).
    rewrite list_lookup_imap, Hrow. reflexivity.
  - rewrite lookup_app_r by (rewrite length_imap; lia).
    rewrite length_imap, Hc0.
    replace (S k * c + j - c)%nat with (k * c + j)%nat by lia.
    eapply IH; eassumption.
Qed.

Lemma length_block_rows (c : nat) (ids : list nat) : forall eps gt,
  length ids = length gt -> length eps = length gt ->
  Forall (fun W => length W = c) gt ->
  length (block_rows ids eps gt) = (length gt * c)%nat.
Proof.
  induction ids as [|i ids IH]; intros [|e eps] [|W gt] H1 H2 Hc;
    try discriminate; try reflexivity.
  apply Forall_cons in Hc as [Hc0 Hc]. cbn [block_rows length].
  rewrite length_app, length_imap, Hc0, IH by (simpl in *; try lia; assumption).
  lia.
Qed.

(** What an export does with the file, in a well-formed environment whose
    ids are all its worlds. *)
Lemma recorder_run (cfg : Params) (n : nat) (st : Env) (file : option (list Row)) :
  wf_env cfg n st ->
  env_reset_id st = seq 0 n ->
  recorder st file
  = Ok (if (n =? 0)%nat || (count st =? 0) then file
        else Some (default [] file
                   ++ block_rows (seq 0 n) (map fst (epi_step_count st))
                        (reward_recorder st))).
Proof.
  intros (Hsm & Hep & Hrb & Hoc & HL & Hshape) Hids.
  unfold recorder. rewrite Hids.
  rewrite <- Hep at 1. rewrite rows_at_seq. cbn [result_bind].
  rewrite <- HL at 1. rewrite rows_at_seq. cbn [result_bind].
  rewrite length_seq, length_map, Hep, HL.
  destruct ((n =? 0)%nat || (count st =? 0)); [reflexivity|].
  rewrite Nat.eqb_refl. cbn [andb negb].
  rewrite new_rows_blocks by (rewrite ?length_seq, ?length_map; lia).
  cbn [result_bind]. destruct file; reflexivity.
Qed.

(** C7 (amended). In an environment with its tensors in the shapes
    [__init__] gives them and [env_reset_id] naming all [n] worlds, export
    appends and is not idempotent.  The rows it computes are the [100 * n]
    rows of the current ledger: at position [100 * k + j] the row of world
    [k] with the world's episode counter, [j] and row [j] of the world's
    block.  With no world or a zero [count] export leaves the file as it is;
    otherwise it writes the previous rows of the file followed by these rows
    (the rows alone when there was no file), and a second export without any
    change in between appends the same rows once more. *)
Theorem recorder_appends (cfg : Params) (n : nat) (st : Env) :
  wf_env cfg n st ->
  env_reset_id st = seq 0 n ->
  exists rows,
    length rows = (n * 100)%nat
    /\ (forall k j e s W row,
          epi_step_count st !! k = Some (e, s) ->
          reward_recorder st !! k = Some W ->
          W !! j = Some row ->
          rows !! (k * 100 + j)%nat = Some (mkRow k e j row))
    /\ (forall file,
          recorder st file
          = Ok (if (n =? 0)%nat || (count st =? 0) then file
                else Some (default [] file ++ rows)))
    /\ (forall file first,
          recorder st file = Ok first ->
          recorder st first
          = Ok (if (n =? 0)%nat || (count st =? 0) then file
                else Some ((default [] file ++ rows) ++ rows))).
Proof.
  intros Hwf Hids.
  pose proof Hwf as (_ & Hlep & _ & _ & HL & Hshape).
  assert (Hc : Forall (fun W : list (list Q) => length W = 100%nat)
                 (reward_recorder st)).
  { eapply Forall_impl; [exact Hshape|]. intros W' [HW' _]. exact HW'. }
  exists (block_rows (seq 0 n) (map fst (epi_step_count st)) (reward_recorder st)).
  split; [|split; [|split]].
  - rewrite (length_block_rows 100), HL;
      rewrite ?length_seq, ?length_map; try lia. exact Hc.
  - intros k j e s W row Hep HW Hrow.
    pose proof (lookup_lt_Some _ _ _ HW) as Hk.
    apply (block_rows_lookup 100 _ _ _ k j k e W row); try assumption.
    + apply lookup_seq. split; [reflexivity | lia].
    + rewrite map_is_fmap, list_lookup_fmap, Hep. reflexivity.
  - intros file. apply (recorder_run cfg n st file Hwf Hids).
  - intros file first Hfirst.
    rewrite (recorder_run cfg n st file Hwf Hids) in Hfirst.
    injection Hfirst as <-.
    rewrite (recorder_run cfg n st _ Hwf Hids).
    destruct ((n =? 0)%nat || (count st =? 0)); reflexivity.
Qed.

(** The demo environment (two worlds, [count = 1]) exports 200 rows, and
    exports them again; a fresh environment, whose [count] is 0, leaves the
    file alone. *)
Lemma recorder_appends_witness :
  (exists rows,
     length rows = 200%nat
     /\ rows !! 107%nat = Some (mkRow 1 0 7 (replicate 3 0%Q))
     /\ recorder demo_env None = Ok (Some rows)
     /\ recorder demo_env (Some rows) = Ok (Some (rows ++ rows)))
  /\ recorder (init_env demo_cfg 2 demo_sim [] [] 0) (Some []) = Ok (Some []).
Proof.
  destruct (recorder_appends demo_cfg 2 demo_env demo_env_wf eq_refl)
    as (rows & Hlen & Hrows & Hrec & _).
  destruct (recorder_appends demo_cfg 2 (init_env demo_cfg 2 demo_sim [] [] 0)
              (init_env_wf demo_cfg 2 demo_sim [] [] 0) eq_refl)
    as (rows0 & _ & _ & Hrec0 & _).
  split.
  - exists rows. split; [exact Hlen|]. split.
    + exact (Hrows 1%nat 7%nat 0 0 (replicate 100 (replicate 3 0%Q))
               (replicate 3 0%Q) eq_refl eq_refl eq_refl).
    + split; [exact (Hrec None) | exact (Hrec (Some rows))].
  - exact (Hrec0 (Some [])).
Defined.

(** C7 (as stated, refuted).  Two exports of the unchanged two-world
    environment, starting without a file: the first writes 200 rows, the
    second leaves 400, and the row of world 0, episode row 0 is there twice,
    at positions 0 and 200. *)
Lemma export_twice_duplicates_rows :
  exists first second,
    recorder demo_env None = Ok (Some first)
    /\ recorder demo_env (Some first) = Ok (Some second)
    /\ length first = 200%nat
    /\ length second = 400%nat
    /\ second !! 0%nat = Some (mkRow 0 0 0 [0 # 1; 0 # 1; 0 # 1]%Q)
    /\ second !! 200%nat = Some (mkRow 0 0 0 [0 # 1; 0 # 1; 0 # 1]%Q)
    /\ ~ NoDup second.
Proof.
  eexists _, _. split; [vm_compute; reflexivity|].
  split; [vm_compute; reflexivity|].
  split; [reflexivity|]. split; [reflexivity|].
  split; [reflexivity|]. split; [reflexivity|].
  intros Hnd. apply NoDup_cons in Hnd as [Hnotin _]. apply Hnotin.
  apply list_elem_of_lookup. exists 199%nat. reflexivity.
Qed.

(** X12. The rows of an export: for world [k], the row at position [j] of
    its block of 100 reads (world [k], the world's CURRENT episode counter,
    [j], the ledger row of episode [j] with all its step cells); it is
    written behind what the file held, at offset [100 * k + j].  So the
    column called "Step Number" counts the episode rows of the ledger and
    "Episode Number" repeats the current counter. *)
Theorem recorder_rows_content
    (cfg : Params) (n : nat) (st : Env) (file : option (list Row))
    (k j : nat) (e s : Z) (W : list (list Q)) (row : list Q) :
  wf_env cfg n st ->
  env_reset_id st = seq 0 n ->
  count st <> 0 ->
  epi_step_count st !! k = Some (e, s) ->
  reward_recorder st !! k = Some W ->
  W !! j = Some row ->
  exists out,
    recorder st file = Ok (Some out)
    /\ out !! (length (default [] file) + (k * 100 + j))%nat
       = Some (mkRow k e j row).
Proof.
  intros Hwf Hids Hcount Hep HW Hrow.
  rewrite (recorder_run cfg n st file Hwf Hids).
  pose proof Hwf as (_ & Hlep & _ & _ & HL & Hshape).
  pose proof (lookup_lt_Some _ _ _ HW) as Hk.
  destruct (Nat.eqb_spec n 0) as [|_]; [lia|].
  destruct (Z.eqb_spec (count st) 0) as [|_]; [contradiction|].
  cbn [orb]. eexists. split; [reflexivity|].
  rewrite lookup_app_r by lia.
  replace (length (default [] file) + (k * 100 + j) - length (default [] file))%nat
    with (k * 100 + j)%nat by lia.
  apply (block_rows_lookup 100 _ _ _ k j k e W row).
  - eapply Forall_impl; [exact Hshape|]. intros W' [HW' _]. exact HW'.
  - apply lookup_seq. split; [reflexivity | lia].
  - rewrite map_is_fmap, list_lookup_fmap, Hep. reflexivity.
  - exact HW.
  - exact Hrow.
Qed.

Lemma recorder_rows_content_witness :
  exists out,
    recorder demo_env None = Ok (Some out)
    /\ out !! (0 + (1 * 100 + 7))%nat = Some (mkRow 1 0 7 (replicate 3 0%Q)).
Proof.
  apply (recorder_rows_content demo_cfg 2 demo_env None 1 7 0 0
           (replicate 100 (replicate 3 0%Q)) (replicate 3 0%Q) demo_env_wf).
  - reflexivity.
  - discriminate.
  - reflexivity.
  - reflexivity.
  - reflexivity.
Defined.

(** X13. An export leaves the file exactly as it was (an absent file stays
    absent) if and only if there is no world or [count] is zero; in every
    other case it adds [100 * n] rows. *)
Theorem recorder_untouched_iff
    (cfg : Params) (n : nat) (st : Env) (file : option (list Row)) :
  wf_env cfg n st ->
  env_reset_id st = seq 0 n ->
  (recorder st file = Ok file <-> n = 0%nat \/ count st = 0)
  /\ (n <> 0%nat -> count st <> 0 ->
      exists out, recorder st file = Ok (Some out)
                  /\ length out = (length (default [] file) + n * 100)%nat).
Proof.
  intros Hwf Hids. rewrite (recorder_run cfg n st file Hwf Hids).
  pose proof Hwf as (_ & Hlep & _ & _ & HL & Hshape).
  assert (Hlen : length (block_rows (seq 0 n) (map fst (epi_step_count st))
                           (reward_recorder st)) = (n * 100)%nat).
  { rewrite (length_block_rows 100), HL; rewrite ?length_seq, ?length_map; try lia.
    eapply Forall_impl; [exact Hshape|]. intros W' [HW' _]. exact HW'. }
  split.
  - destruct (Nat.eqb_spec n 0) as [Hn|Hn]; [cbn; tauto|].
    destruct (Z.eqb_spec (count st) 0) as [Hc|Hc]; [cbn; tauto|].
    cbn [orb]. split; [|intros [|]; contradiction].
    intros Heq. exfalso. destruct file as [f|]; [|discriminate].
    injection Heq as Heq. apply (f_equal (@length _)) in Heq.
    rewrite length_app, Hlen in Heq. simpl in Heq. lia.
  - intros Hn Hc.
    destruct (Nat.eqb_spec n 0) as [|_]; [contradiction|].
    destruct (Z.eqb_spec (count st) 0) as [|_]; [contradiction|].
    cbn [orb]. eexists. split; [reflexivity|].
    now rewrite length_app, Hlen.
Qed.

Lemma recorder_untouched_iff_witness :
  recorder (init_env demo_cfg 2 demo_sim [] [] 0) (Some [])
  = Ok (Some []).
Proof.
  apply (proj1 (recorder_untouched_iff demo_cfg 2
                  (init_env demo_cfg 2 demo_sim [] [] 0) (Some [])
                  (init_env_wf demo_cfg 2 demo_sim [] [] 0) eq_refl)).
  right. reflexivity.
Defined.

(** ** Camera data, continued *)

(** X14. [get_grasp_pose_demo] reads its required channels before it looks
    at any world: without the ["policy"] entry, or with the depth channel
    but without the point cloud or the normals, it ends in [KeyError], has
    written nothing and has changed nothing. *)
Theorem demo_missing_channel_is_key_error
    {Channel : Type} (ids : list nat)
    (obs_buf : gmap string (gmap string Channel)) (st : Env) :
  obs_buf !! "policy" = None
  \/ (exists data_cam,
        obs_buf !! "policy" = Some data_cam
        /\ is_Some (data_cam !! "distance_to_image_plane")
        /\ (data_cam !! "pcd" = None \/ data_cam !! "normals" = None)) ->
  get_grasp_pose_demo ids obs_buf st = (Raise KeyError, st).
Proof.
  intros [Hnone | (data_cam & Hpolicy & Hdepth & Hmiss)];
    unfold get_grasp_pose_demo; m_unfold.
  - rewrite Hnone. reflexivity.
  - rewrite Hpolicy. cbn.
    destruct (decide (is_Some (data_cam !! "distance_to_image_plane")))
      as [_ | Hn]; [|contradiction].
    unfold dict_get. destruct Hdepth as [c Hc].
    destruct (data_cam !! "pcd") as [p|] eqn:Hp; cbn; [|reflexivity].
    rewrite Hc. cbn.
    destruct Hmiss as [Hmiss | Hmiss]; [discriminate Hmiss|].
    rewrite Hmiss. reflexivity.
Qed.

Lemma demo_missing_channel_is_key_error_witness :
  get_grasp_pose_demo [0; 1]%nat
    ({[ "policy" := {[ "distance_to_image_plane" := tt; "pcd" := tt ]} ]}
       : gmap string (gmap string unit)) demo_env
  = (Raise KeyError, demo_env).
Proof.
  apply demo_missing_channel_is_key_error. right.
  exists {[ "distance_to_image_plane" := tt; "pcd" := tt ]}.
  split; [reflexivity|]. split; [exists tt; reflexivity|].
  right. reflexivity.
Defined.

(** ** The outer loop, continued *)

(** X15. If the criteria handed to [step] already has a true entry, the
    loop body never runs: no tick is taken and [step] ends in an exception.
    With the cameras disabled (and at least one camera configured) the read
    of the camera info raises AttributeError and the only change to the
    environment is the stored grasp pose; otherwise the camera info is
    assigned and the return raises UnboundLocalError, because nothing was
    ever observed. *)
Theorem step_with_true_criteria_never_ticks
    (cfg : Params) (kernel : list bool -> Env -> Env) (simulate : Env -> Env)
    (fuel : nat) (grasp : list Pose) (crit : list bool) (st : Env) :
  existsb id crit = true ->
  step cfg kernel simulate fuel grasp crit st
  = if disable_camera cfg && negb (n_multiple_cam cfg =? 0)%nat
    then Some (Raise AttributeError, set_grasp_pose grasp st)
    else Some (Raise UnboundLocalError,
               set_camera_info (Some (seq 0 (n_multiple_cam cfg)))
                 (set_grasp_pose grasp st)).
Proof.
  intros Hcrit. unfold step. rewrite step_loop_stops by exact Hcrit.
  unfold read_camera_info.
  destruct (disable_camera cfg && negb (n_multiple_cam cfg =? 0)%nat);
    reflexivity.
Qed.

Lemma step_with_true_criteria_never_ticks_witness :
  step demo_cfg demo_kernel id 3 (grasp_pose demo_env) [false; true] demo_env
  = Some (Raise UnboundLocalError,
          set_camera_info (Some [0%nat])
            (set_grasp_pose (grasp_pose demo_env) demo_env)).
Proof.
  apply (step_with_true_criteria_never_ticks demo_cfg demo_kernel id 3
           (grasp_pose demo_env) [false; true] demo_env).
  reflexivity.
Defined.

(** X20. With [CONTROLLER] set to ["RMPFLOW"] no controller is created, and
    [step] cannot run a single turn: called with criteria that has no true
    entry, it raises AttributeError at the command to the controller of the
    first turn, after the state machine has advanced once and before the
    simulation is stepped or any reset is requested. *)
Theorem step_without_controller_raises
    (cfg : Params) (kernel : list bool -> Env -> Env) (simulate : Env -> Env)
    (fuel : nat) (grasp : list Pose) (crit : list bool) (st : Env) :
  CONTROLLER cfg = "RMPFLOW" ->
  existsb id crit = false ->
  step cfg kernel simulate (S fuel) grasp crit st
  = Some (Raise AttributeError,
          kernel (env_reachable_and_stable cfg (sim st) (sm_wait_time st))
                 (set_grasp_pose grasp st)).
Proof.
  intros Hc Hcrit. unfold step. cbn [step_loop]. rewrite Hcrit.
  unfold loop_body, set_command. m_unfold. rewrite Hc. reflexivity.
Qed.

Lemma step_without_controller_raises_witness :
  step rmpflow_cfg demo_kernel id 3 (grasp_pose demo_env) [] demo_env
  = Some (Raise AttributeError,
          set_sm_state [3; 2] (set_grasp_pose (grasp_pose demo_env) demo_env)).
Proof.
  apply (step_without_controller_raises rmpflow_cfg demo_kernel id 2
           (grasp_pose demo_env) [] demo_env); reflexivity.
Defined.

Lemma step_loop_blocks (cfg : Params) (kernel : list bool -> Env -> Env)
    (simulate : Env -> Env) (fuel : nat) : forall ran crit st,
  existsb id crit = false ->
  (forall k, (1 <= k <= fuel)%nat ->
     exists sk, ticks cfg kernel simulate k st = Ok sk /\ ~ some_world_chooses cfg sk) ->
  step_loop cfg kernel simulate fuel ran crit st = None.
Proof.
  induction fuel as [|fuel IH]; intros ran crit st Hcrit Hticks;
    cbn [step_loop]; rewrite Hcrit; [reflexivity|].
  destruct (Hticks 1%nat ltac:(lia)) as (s1 & Hs1 & Hno1).
  cbn [ticks] in Hs1.
  destruct (loop_body cfg kernel simulate st) as [[[]|e] st1] eqn:Hbody; [|discriminate].
  injection Hs1 as <-.
  apply IH; [apply criteria_none, Hno1|].
  intros k Hk. destruct (Hticks (S k) ltac:(lia)) as (sk & Hsk & Hno).
  cbn [ticks] in Hsk. rewrite Hbody in Hsk. eauto.
Qed.

(** X16. [step] keeps control as long as no world is in [choose_object]:
    started with criteria that has no true entry, if none of the first
    [fuel] turns raises or leaves a world in [choose_object], the loop has
    not ended after [fuel] turns. *)
Theorem step_blocks_until_choice
    (cfg : Params) (kernel : list bool -> Env -> Env) (simulate : Env -> Env)
    (fuel : nat)
    (grasp : list Pose) (crit : list bool) (st : Env) :
  existsb id crit = false ->
  (forall k, (1 <= k <= fuel)%nat ->
     exists sk, ticks cfg kernel simulate k (set_grasp_pose grasp st) = Ok sk
                /\ ~ some_world_chooses cfg sk) ->
  step cfg kernel simulate fuel grasp crit st = None.
Proof.
  intros Hcrit Hticks. unfold step.
  now rewrite (step_loop_blocks cfg kernel simulate fuel false crit _ Hcrit Hticks).
Qed.

Lemma step_blocks_until_choice_witness :
  step demo_cfg demo_kernel id 2 (grasp_pose demo_env) []
    (set_sm_state [4; 2] demo_env) = None.
Proof.
  apply step_blocks_until_choice; [reflexivity|].
  intros [|[|[|k]]] Hk; try lia.
  - eexists. split; [vm_compute; reflexivity|].
    intros [[|[|w]] Hw]; discriminate Hw.
  - eexists. split; [vm_compute; reflexivity|].
    intros [[|[|w]] Hw]; discriminate Hw.
Defined.

(** ** Quaternion order *)

Lemma result_mapM_round_trip {A B} (f : A -> result B) (g : B -> result A)
    (l : list A) :
  Forall (fun x => result_bind (f x) g = Ok x) l ->
  result_bind (result_mapM f l) (result_mapM g) = Ok l.
Proof.
  induction 1 as [|x l Hx _ IH]; [reflexivity|].
  cbn [result_mapM]. destruct (f x) as [y|e]; [|discriminate Hx].
  cbn [result_bind] in *.
  destruct (result_mapM f l) as [ys|e]; [|discriminate IH].
  cbn [result_bind result_mapM] in *. now rewrite Hx, IH.
Qed.

Lemma xyzw_round_trip {A} (row : list A) :
  length row = 7%nat -> result_bind (to_xyzw row) to_wxyz = Ok row.
Proof.
  destruct row as [|a [|b [|c [|d [|e [|f [|g [|h t]]]]]]]]; try discriminate.
  reflexivity.
Qed.

(** X18. [_advance_state_machine] hands [self.grasp_pose] back as it found
    it: reordering every row from (w, x, y, z) to (x, y, z, w) for the
    kernel and back afterwards is the identity on rows of seven entries; on
    a shorter row either reordering raises [IndexError]. *)
Theorem quaternion_order_round_trip {A : Type} (grasp_pose : list (list A)) :
  (Forall (fun row => length row = 7%nat) grasp_pose ->
   advance_grasp_pose grasp_pose = Ok grasp_pose)
  /\ (forall row : list A, (length row < 7)%nat ->
        to_xyzw row = Raise IndexError /\ to_wxyz row = Raise IndexError).
Proof.
  split.
  - intros Hrows. unfold advance_grasp_pose. apply result_mapM_round_trip.
    eapply Forall_impl; [exact Hrows|]. intros row. apply xyzw_round_trip.
  - intros row Hlen.
    destruct row as [|a [|b [|c [|d [|e [|f [|g [|h t]]]]]]]];
      try (simpl in Hlen; lia); split; reflexivity.
Qed.

Lemma quaternion_order_round_trip_witness :
  advance_grasp_pose [[1; 2; 3; 4; 5; 6; 7]; [0; 0; 0; 1; 0; 0; 0]]
  = Ok [[1; 2; 3; 4; 5; 6; 7]; [0; 0; 0; 1; 0; 0; 0]]
  /\ to_xyzw [1; 2; 3; 4; 5; 6; 7] = Ok [1; 2; 3; 5; 6; 7; 4]
  /\ to_xyzw [1; 2; 3] = Raise IndexError.
Proof.
  split; [|split].
  - apply (proj1 (quaternion_order_round_trip
                    [[1; 2; 3; 4; 5; 6; 7]; [0; 0; 0; 1; 0; 0; 0]])).
    repeat constructor.
  - reflexivity.
  - apply (proj2 (quaternion_order_round_trip (A := Z) [])). simpl. lia.
Defined.

(** ** The object list of a saved record *)

Section SceneObjectsFacts.
Context (cfg : Params) {Mat : Type} (to_matrix : Pose -> Mat).
Context (OBJ_LABLE : list string) (s : Sim) (env_id : nat).

Lemma get_obj_pose_in_range (obj : nat) :
  (obj < num_objs cfg)%nat ->
  _get_obj_pose cfg s (Z.of_nat obj) env_id
  = Ok (_get_obj_pos s obj env_id, root_quat (objs_root_state_w s obj env_id)).
Proof.
  intros H. rewrite (get_obj_pose_ok cfg s _ env_id obj); [reflexivity|].
  rewrite py_norm_index_nonneg by lia. now rewrite Nat2Z.id.
Qed.

Lemma scene_object_loop_spec (objs : list nat) : forall acc,
  Forall (fun o => (o < num_objs cfg)%nat /\ (o < length OBJ_LABLE)%nat) objs ->
  exists ids,
    scene_object_loop cfg to_matrix OBJ_LABLE s env_id acc objs
    = Ok (fst acc ++ map (stored_pose to_matrix s env_id)
                       (List.filter (above_floor s env_id) objs),
          snd acc ++ ids)
    /\ Forall2 (fun o l => OBJ_LABLE !! o = Some l)
               (List.filter (above_floor s env_id) objs) ids.
Proof.
  induction objs as [|o objs IH]; intros [poses ids0] Hobjs.
  - exists []. cbn. rewrite !app_nil_r. split; [reflexivity | constructor].
  - apply Forall_cons in Hobjs as [[Ho Hl] Hobjs].
    cbn [scene_object_loop List.filter]. unfold scene_object_step.
    rewrite (get_obj_pose_in_range o Ho). cbn [result_bind fst snd].
    change (Qltb (- (5 # 100)) (vz (_get_obj_pos s o env_id)))
      with (above_floor s env_id o).
    destruct (above_floor s env_id o).
    + destruct (lookup_lt_is_Some_2 OBJ_LABLE o Hl) as [label Hlabel].
      unfold get_item. rewrite Hlabel. cbn [result_bind].
      destruct (IH (poses ++ [stored_pose to_matrix s env_id o],
                    ids0 ++ [label]) Hobjs)
        as (ids & Hrun & Hids).
      exists (label :: ids). unfold stored_pose at 1 in Hrun.
      rewrite Hrun. cbn [fst snd map].
      rewrite <- !app_assoc. split; [reflexivity|].
      constructor; assumption.
    + apply (IH (poses, ids0) Hobjs).
Qed.

End SceneObjectsFacts.

(** X19. The object list of a saved record holds exactly the objects of the
    world that stand higher than five centimetres below the robot base, in
    object order, each with its position in centimetres and its label at
    the same position of the label list; the pose list is absent when no
    object qualifies.  Every object that the readiness classification calls
    reachable is in the list. *)
Theorem scene_objects_listing
    (cfg : Params) {Mat : Type} (to_matrix : Pose -> Mat)
    (OBJ_LABLE : list string) (s : Sim) (env_id : nat) :
  (num_objs cfg <= length OBJ_LABLE)%nat ->
  exists ids,
    scene_objects cfg to_matrix OBJ_LABLE s env_id
    = Ok (match List.filter (above_floor s env_id) (seq 0 (num_objs cfg)) with
          | [] => None
          | o :: visible =>
              Some (map (stored_pose to_matrix s env_id) (o :: visible))
          end, ids)
    /\ Forall2 (fun o l => OBJ_LABLE !! o = Some l)
         (List.filter (above_floor s env_id) (seq 0 (num_objs cfg))) ids
    /\ (forall o, In o (List.filter (above_floor s env_id) (seq 0 (num_objs cfg)))
                  <-> (o < num_objs cfg)%nat
                      /\ (- (5 # 100) < vz (_get_obj_pos s o env_id))%Q)
    /\ (forall o, (o < num_objs cfg)%nat ->
                  obj_reachable cfg s env_id o = true ->
                  In o (List.filter (above_floor s env_id) (seq 0 (num_objs cfg)))).
Proof.
  intros Hlabels.
  assert (Hin : forall o,
            In o (List.filter (above_floor s env_id) (seq 0 (num_objs cfg)))
            <-> (o < num_objs cfg)%nat
                /\ (- (5 # 100) < vz (_get_obj_pos s o env_id))%Q).
  { intros o. rewrite filter_In, in_seq. unfold above_floor.
    rewrite Qltb_lt. intuition lia. }
  destruct (scene_object_loop_spec cfg to_matrix OBJ_LABLE s env_id
              (seq 0 (num_objs cfg)) ([], []))
    as (ids & Hrun & Hids).
  { apply Forall_forall. intros o Ho. apply list_elem_of_In, in_seq in Ho. lia. }
  exists ids. split; [|split; [exact Hids | split; [exact Hin|]]].
  - unfold scene_objects. rewrite Hrun. cbn [result_bind fst snd app].
    destruct (List.filter (above_floor s env_id) (seq 0 (num_objs cfg)));
      reflexivity.
  - intros o Ho Hreach. apply Hin. split; [exact Ho|].
    apply obj_reachable_iff in Hreach. tauto.
Qed.

Lemma scene_objects_listing_witness :
  exists ids,
    scene_objects demo_cfg (fun p : Pose => p) demo_OBJ_LABLE demo_sim 0
    = Ok (Some (map (stored_pose (fun p : Pose => p) demo_sim 0) [0; 1]%nat), ids)
    /\ Forall2 (fun o l => demo_OBJ_LABLE !! o = Some l) [0; 1]%nat ids.
Proof.
  destruct (scene_objects_listing demo_cfg (fun p : Pose => p)
              demo_OBJ_LABLE demo_sim 0%nat)
    as (ids & Hrun & Hids & _).
  - simpl. lia.
  - exists ids. split; [exact Hrun | exact Hids].
Defined.
